(** * QuizApp: the persistent store and the quiz session engine

    A shallow embedding of the store (the [StoreProvider] operations behind
    [useStore], in the revision with paused runs, freezers and diamonds), of
    the purchase handler of [StreakScreen.tsx], of the question ordering of
    [TestEditorScreen.tsx] and of the session logic of [ActiveQuizScreen.tsx]
    (the revision with pause, resume and early end), and of the screens
    around them: the question editor, the review of mistakes and the
    pre-quiz screen.

    Conventions of the model.
    - React state updaters [setX(prev => f(prev))] are functions on the
      store state; an operation that calls several updaters is their
      composition.
    - A JavaScript [number] that only ever holds a count or an index is a
      [Z]; a [number] that holds a fraction (score percentage, diamonds) is
      an IEEE-754 binary64 value, Rocq's primitive [float], which rounds
      exactly as JavaScript does.
    - An instant ([Date]) is its [getTime()] value, a [Z] of milliseconds
      since the epoch.  A calendar-day string ["YYYY-MM-DD"], as produced by
      [toISOString().split("T")[0]], is the number of whole UTC days since
      the epoch: the two are in one-to-one correspondence, and [new Date(s)]
      of such a string is UTC midnight of that day.  [setDate(getDate() + n)]
      moves an instant by [n] days of 24 hours (a device clock without
      daylight-saving shifts).
    - [generateId()] and [new Date()] are inputs of the operations; so are
      the values of [Math.floor(Math.random() * (i + 1))] that a shuffle
      draws, each between 0 and [i].
    - An optional string used as a condition is absent when it is
      [undefined] or empty ([truthy]).
    - [String.prototype.trim] is a parameter of the question editor.

    Where the embedded code lives.
    - client/navigation/TestsStackNavigator.tsx (the store revision that this
      file carries): [checkStreak] 385-450, [addQuiz] 453-470, [updateQuiz]
      472-478, [deleteQuiz] 480-484, [getQuiz] 486-488, [addQuestion]
      490-511, [updateQuestion] 513-531, [deleteQuestion] 533-546,
      [reorderQuestions] 548-568, [addRun] 570-588, [getRun] 590-592,
      [getRunsByQuiz] 594-596, [savePausedRun] 598-619, [deletePausedRun]
      621-623, [getPausedRun] 625-627, [updateStreak] 633-658, [buyFreezer]
      660-670.
    - client/screens/StreakScreen.tsx: [handleBuyFreezer] 27-51 and the
      button 128-138.
    - client/screens/TestEditorScreen.tsx: [sortedQuestions] 123-125,
      [handleMoveQuestion] 241-257.
    - client/screens/ActiveQuizScreen.tsx: [calculateIncompleteScore]
      749-760, [shuffleArray] 762-769, the memos and initial state 778-825,
      [handlePause] 848-885, [handleEndEarly] 887-937, the background
      listener 953-986, [handleAnswerSelect] 999-1013, [finishQuiz]
      1015-1042, [handleNext] 1044-1052, [handleSubmit] 1054-1089,
      [getAnswerState] 1166-1174.
    - unnamed/part_007 (the question editor): [isValid] 59-63, [handleSave]
      65-99, [handleAddAnswer] 116-129, [handleRemoveAnswer] 131-150,
      [handleAnswerTextChange] 152-157, [handleSetCorrect] 159-169.
    - client/screens/ReviewMistakesScreen.tsx: [questionsToReview] 38-72,
      [handleRetryMistakes] 78-86.
    - client/screens/PreQuizScreen.tsx: [handleStartQuiz] 37-43,
      [validQuestions] 76-78.
    - client/screens/HistoryListScreen.tsx: [handleResumeRun] 51-61. *)

From Stdlib Require Import ZArith Lia Bool List Sorting.Sorted.
From Stdlib Require Import Floats.PrimFloat Numbers.Cyclic.Int63.Uint63.
From stdpp Require Import base list gmap strings.

Local Open Scope Z_scope.

(** ** Numbers *)

(** The binary64 value of an integer-valued [number] (exact below 2^53). *)
Definition num_of_Z (z : Z) : float :=
  if z <? 0 then PrimFloat.opp (PrimFloat.of_uint63 (Uint63.of_Z (- z)))
  else PrimFloat.of_uint63 (Uint63.of_Z z).

(** [a >= b] and [a < b] on numbers. *)
Definition num_ge (a b : float) : bool := PrimFloat.leb b a.
Definition num_lt (a b : float) : bool := PrimFloat.ltb a b.

(** [Math.ceil(a / b)] for an integer [a] and a positive integer [b]. *)
Definition ceilDiv (a b : Z) : Z := - ((- a) / b).

(** ** Calendar days *)

Definition msPerDay : Z := 1000 * 60 * 60 * 24.

(** [new Date(t).toISOString().split("T")[0]] *)
Definition isoDay (t : Z) : Z := t / msPerDay.

(** [new Date(dayString).getTime()] *)
Definition dayStart (d : Z) : Z := d * msPerDay.

(** [d.setDate(d.getDate() + n)] *)
Definition addDays (t n : Z) : Z := t + n * msPerDay.

(** ** Data model (interfaces of store.tsx) *)

Module Answer.
Record t := mk { id : string; text : string; isCorrect : bool }.
End Answer.

Module Question.
Record t := mk {
  id : string;
  text : string;
  orderIndex : Z;
  answers : list Answer.t;
  images : option (list string)
}.

(** [{ ...question, orderIndex: index }] *)
Definition with_orderIndex (q : t) (index : Z) : t :=
  mk (id q) (text q) index (answers q) (images q).

(** [{ ...q, answers: as }] *)
Definition with_answers (q : t) (answers' : list Answer.t) : t :=
  mk (id q) (text q) (orderIndex q) answers' (images q).
End Question.

Module Quiz.
Record t := mk {
  id : string;
  title : string;
  description : string;
  createdAt : Z;
  updatedAt : Z;
  questions : list Question.t
}.

(** [{ ...q, questions: qs, updatedAt: new Date() }] *)
Definition with_questions (q : t) (qs : list Question.t) (now : Z) : t :=
  mk (id q) (title q) (description q) (createdAt q) now qs.
End Quiz.

Module QuizRunAnswer.
Record t := mk {
  questionId : string;
  selectedAnswerIds : list string;
  isCorrect : bool
}.
End QuizRunAnswer.

Module QuizRun.
Record t := mk {
  id : string;
  quizId : string;
  quizTitle : string;
  timestamp : Z;
  scorePercentage : float;
  totalQuestions : Z;
  correctCount : Z;
  wrongCount : Z;
  answers : list QuizRunAnswer.t;
  isIncomplete : option bool;
  diamondsEarned : option float
}.
End QuizRun.

(** [Omit<QuizRun, "id" | "timestamp" | "diamondsEarned">], the argument of
    [addRun]. *)
Module RunInput.
Record t := mk {
  quizId : string;
  quizTitle : string;
  scorePercentage : float;
  totalQuestions : Z;
  correctCount : Z;
  wrongCount : Z;
  answers : list QuizRunAnswer.t;
  isIncomplete : option bool
}.
End RunInput.

Module PausedRun.
Record t := mk {
  id : string;
  quizId : string;
  currentQuestionIndex : Z;
  selectedAnswerIds : list string;
  answers : list QuizRunAnswer.t;
  timestamp : Z;
  shuffle : bool;
  shuffleAnswers : option bool;
  questionIds : option (list string)
}.
End PausedRun.

Module Settings.
Record t := mk {
  defaultShuffle : bool;
  defaultShuffleAnswers : bool;
  displayName : string;
  avatarPreset : Z;
  profileImage : option string;
  vibrationEnabled : bool;
  autoAdvanceDelay : float;
  manualConfirmation : bool
}.
End Settings.

Module StreakData.
Inductive status := completed | freezed | missed.

#[global] Instance status_eq_dec : EqDecision status.
Proof. solve_decision. Defined.

Record t := mk {
  currentStreak : Z;
  lastCompletedDate : option Z;
  freezers : Z;
  history : gmap Z status
}.
End StreakData.

(** An optional id as a condition ([if (id)], [id || ...]): the empty
    string counts as absent. *)
Definition truthy (id : option string) : option string :=
  match id with
  | Some EmptyString => None
  | _ => id
  end.

(** [Omit<PausedRun, "id" | "timestamp"> & { id?: string }], the argument
    of [savePausedRun]; an absent id is [None]. *)
Module PausedInput.
Record t := mk {
  id : option string;
  quizId : string;
  currentQuestionIndex : Z;
  selectedAnswerIds : list string;
  answers : list QuizRunAnswer.t;
  shuffle : bool;
  shuffleAnswers : option bool;
  questionIds : option (list string)
}.
End PausedInput.

(** [Partial<Omit<Quiz, "id" | "createdAt">>], the argument of
    [updateQuiz]: a field that is present is [Some].  ([updatedAt] is
    overwritten by the operation whatever the argument holds.) *)
Module QuizUpdates.
Record t := mk {
  title : option string;
  description : option string;
  questions : option (list Question.t)
}.
End QuizUpdates.

(** [Partial<Omit<Question, "id">>], the argument of [updateQuestion]. *)
Module QuestionUpdates.
Record t := mk {
  text : option string;
  orderIndex : option Z;
  answers : option (list Answer.t);
  images : option (list string)
}.
End QuestionUpdates.

(** ** The store (StoreProvider of store.tsx) *)

(** [Omit<Quiz, "id" | "createdAt" | "updatedAt">], the argument of
    [addQuiz]. *)
Module QuizInput.
Record t := mk {
  title : string;
  description : string;
  questions : list Question.t
}.
End QuizInput.

Module Store.

Record StoreState := mk {
  quizzes : list Quiz.t;
  runs : list QuizRun.t;
  pausedRuns : list PausedRun.t;
  settings : Settings.t;
  streak : StreakData.t;
  diamonds : float
}.

Definition with_quizzes (st : StoreState) (qs : list Quiz.t) : StoreState :=
  mk qs (runs st) (pausedRuns st) (settings st) (streak st) (diamonds st).

(** *** Streak accounting *)

(** The updater that [checkStreak] passes to [setStreak], run once after
    initialization; [now] is the value of [new Date()]. *)
Definition checkStreak (now : Z) (prev : StreakData.t) : StreakData.t :=
  let today := isoDay now in
  let yesterdayStr := isoDay (addDays now (-1)) in
  if bool_decide (StreakData.lastCompletedDate prev = Some today) then prev
  else if bool_decide (StreakData.lastCompletedDate prev = Some yesterdayStr) then prev
  else
    match StreakData.lastCompletedDate prev with
    | None => prev
    | Some last =>
      let lastDate := dayStart last in
      let diffTime := Z.abs (now - lastDate) in
      let diffDays := ceilDiv diffTime msPerDay - 1 in
      if 0 <? diffDays then
        if diffDays <=? StreakData.freezers prev then
          let newHistory :=
            fold_left
              (fun h i => <[isoDay (addDays lastDate (Z.of_nat i)) := StreakData.freezed]> h)
              (seq 1 (Z.to_nat diffDays))
              (StreakData.history prev) in
          StreakData.mk
            (StreakData.currentStreak prev)
            (Some yesterdayStr)
            (StreakData.freezers prev - diffDays)
            newHistory
        else
          StreakData.mk
            0
            (StreakData.lastCompletedDate prev)
            (StreakData.freezers prev)
            (StreakData.history prev)
      else prev
    end.

(** The updater of [updateStreak]. *)
Definition updateStreak_streak (now : Z) (prev : StreakData.t) : StreakData.t :=
  let today := isoDay now in
  if bool_decide (StreakData.lastCompletedDate prev = Some today) then prev
  else
    let yesterdayStr := isoDay (addDays now (-1)) in
    let newStreak :=
      if bool_decide (StreakData.lastCompletedDate prev = Some yesterdayStr)
      then StreakData.currentStreak prev + 1
      else 1 in
    StreakData.mk
      newStreak
      (Some today)
      (StreakData.freezers prev)
      (<[today := StreakData.completed]> (StreakData.history prev)).

Definition updateStreak (now : Z) (st : StoreState) : StoreState :=
  mk (quizzes st) (runs st) (pausedRuns st) (settings st)
     (updateStreak_streak now (streak st)) (diamonds st).

(** [buyFreezer]: the returned boolean and the state after the updaters. *)
Definition buyFreezer (st : StoreState) : bool * StoreState :=
  if num_ge (diamonds st) 100 then
    (true,
     mk (quizzes st) (runs st) (pausedRuns st) (settings st)
        (StreakData.mk
           (StreakData.currentStreak (streak st))
           (StreakData.lastCompletedDate (streak st))
           (StreakData.freezers (streak st) + 1)
           (StreakData.history (streak st)))
        (PrimFloat.sub (diamonds st) 100))
  else (false, st).

(** *** Quiz catalog *)

Definition deleteQuiz (id : string) (st : StoreState) : StoreState :=
  mk (List.filter (fun q => negb (String.eqb (Quiz.id q) id)) (quizzes st))
     (List.filter (fun r => negb (String.eqb (QuizRun.quizId r) id)) (runs st))
     (List.filter (fun r => negb (String.eqb (PausedRun.quizId r) id)) (pausedRuns st))
     (settings st) (streak st) (diamonds st).

Definition getQuiz (id : string) (st : StoreState) : option Quiz.t :=
  List.find (fun q => String.eqb (Quiz.id q) id) (quizzes st).

(** [q.questions.reduce((max, qn) => Math.max(max, qn.orderIndex), -1)] *)
Definition maxOrder (qs : list Question.t) : Z :=
  fold_left (fun mx qn => Z.max mx (Question.orderIndex qn)) qs (-1).

(** [addQuestion]; [newId] is the generated id, [question] carries the
    text, answers and images ([id] and [orderIndex] are overwritten). *)
Definition addQuestion_quiz (newId : string) (now : Z) (question : Question.t)
    (q : Quiz.t) : Quiz.t :=
  let newQuestion :=
    Question.mk newId (Question.text question) (maxOrder (Quiz.questions q) + 1)
      (Question.answers question) (Question.images question) in
  Quiz.with_questions q (Quiz.questions q ++ [newQuestion]) now.

Definition addQuestion (quizId newId : string) (now : Z) (question : Question.t)
    (st : StoreState) : StoreState :=
  with_quizzes st
    (map (fun q => if String.eqb (Quiz.id q) quizId
                   then addQuestion_quiz newId now question q else q)
         (quizzes st)).

Definition deleteQuestion_quiz (questionId : string) (now : Z) (q : Quiz.t) : Quiz.t :=
  Quiz.with_questions q
    (List.filter (fun qn => negb (String.eqb (Question.id qn) questionId))
                 (Quiz.questions q))
    now.

Definition deleteQuestion (quizId questionId : string) (now : Z)
    (st : StoreState) : StoreState :=
  with_quizzes st
    (map (fun q => if String.eqb (Quiz.id q) quizId
                   then deleteQuestion_quiz questionId now q else q)
         (quizzes st)).

(** [questionIds.map((id, index) => ...).filter(Boolean)] *)
Definition reordered (questionIds : list string) (qs : list Question.t)
    : list Question.t :=
  omap (fun x => x)
    (imap (fun index id =>
             match List.find (fun qn => String.eqb (Question.id qn) id) qs with
             | Some question => Some (Question.with_orderIndex question (Z.of_nat index))
             | None => None
             end)
          questionIds).

Definition reorderQuestions_quiz (questionIds : list string) (now : Z)
    (q : Quiz.t) : Quiz.t :=
  Quiz.with_questions q (reordered questionIds (Quiz.questions q)) now.

Definition reorderQuestions (quizId : string) (questionIds : list string) (now : Z)
    (st : StoreState) : StoreState :=
  with_quizzes st
    (map (fun q => if String.eqb (Quiz.id q) quizId
                   then reorderQuestions_quiz questionIds now q else q)
         (quizzes st)).

(** *** Run ledger *)

Definition rawDiamonds (run : RunInput.t) : float :=
  PrimFloat.mul
    (PrimFloat.mul (num_of_Z (RunInput.totalQuestions run)) 0.5%float)
    (PrimFloat.div (RunInput.scorePercentage run) 100%float).

(** [addRun]: the returned run and the state after the two updaters. *)
Definition addRun (newId : string) (now : Z) (run : RunInput.t) (st : StoreState)
    : QuizRun.t * StoreState :=
  let diamondsEarned := rawDiamonds run in
  let newRun :=
    QuizRun.mk newId (RunInput.quizId run) (RunInput.quizTitle run) now
      (RunInput.scorePercentage run) (RunInput.totalQuestions run)
      (RunInput.correctCount run) (RunInput.wrongCount run)
      (RunInput.answers run) (RunInput.isIncomplete run)
      (Some diamondsEarned) in
  (newRun,
   mk (quizzes st) (newRun :: runs st) (pausedRuns st) (settings st) (streak st)
      (PrimFloat.add (diamonds st) diamondsEarned)).

Definition deletePausedRun (id : string) (st : StoreState) : StoreState :=
  mk (quizzes st) (runs st)
     (List.filter (fun r => negb (String.eqb (PausedRun.id r) id)) (pausedRuns st))
     (settings st) (streak st) (diamonds st).

(** *** Lookups and updates of the catalog and the ledgers *)

Definition getRun (id : string) (st : StoreState) : option QuizRun.t :=
  List.find (fun r => String.eqb (QuizRun.id r) id) (runs st).

Definition getRunsByQuiz (quizId : string) (st : StoreState) : list QuizRun.t :=
  List.filter (fun r => String.eqb (QuizRun.quizId r) quizId) (runs st).

Definition getPausedRun (id : string) (st : StoreState) : option PausedRun.t :=
  List.find (fun r => String.eqb (PausedRun.id r) id) (pausedRuns st).

(** [{ ...q, ...updates, updatedAt: new Date() }] *)
Definition updateQuiz_quiz (updates : QuizUpdates.t) (now : Z) (q : Quiz.t) : Quiz.t :=
  Quiz.mk (Quiz.id q)
    (default (Quiz.title q) (QuizUpdates.title updates))
    (default (Quiz.description q) (QuizUpdates.description updates))
    (Quiz.createdAt q)
    now
    (default (Quiz.questions q) (QuizUpdates.questions updates)).

Definition updateQuiz (id : string) (updates : QuizUpdates.t) (now : Z)
    (st : StoreState) : StoreState :=
  with_quizzes st
    (map (fun q => if String.eqb (Quiz.id q) id then updateQuiz_quiz updates now q else q)
         (quizzes st)).

(** [{ ...qn, ...updates }] *)
Definition updateQuestion_question (updates : QuestionUpdates.t) (qn : Question.t)
    : Question.t :=
  Question.mk (Question.id qn)
    (default (Question.text qn) (QuestionUpdates.text updates))
    (default (Question.orderIndex qn) (QuestionUpdates.orderIndex updates))
    (default (Question.answers qn) (QuestionUpdates.answers updates))
    (match QuestionUpdates.images updates with
     | Some imgs => Some imgs
     | None => Question.images qn
     end).

Definition updateQuestion_quiz (questionId : string) (updates : QuestionUpdates.t)
    (now : Z) (q : Quiz.t) : Quiz.t :=
  Quiz.with_questions q
    (map (fun qn => if String.eqb (Question.id qn) questionId
                    then updateQuestion_question updates qn else qn)
         (Quiz.questions q))
    now.

Definition updateQuestion (quizId questionId : string) (updates : QuestionUpdates.t)
    (now : Z) (st : StoreState) : StoreState :=
  with_quizzes st
    (map (fun q => if String.eqb (Quiz.id q) quizId
                   then updateQuestion_quiz questionId updates now q else q)
         (quizzes st)).

(** [prev.findIndex((p) => p.id === newId)], [None] for -1. *)
Fixpoint findIndex (newId : string) (prev : list PausedRun.t) : option nat :=
  match prev with
  | [] => None
  | p :: rest =>
    if String.eqb (PausedRun.id p) newId then Some 0%nat
    else match findIndex newId rest with
         | Some i => Some (S i)
         | None => None
         end
  end.

(** [savePausedRun]: the returned id and the state after the updater;
    [generated] is the value [generateId()] would give. *)
Definition savePausedRun (generated : string) (now : Z) (run : PausedInput.t)
    (st : StoreState) : string * StoreState :=
  let newId := default generated (truthy (PausedInput.id run)) in
  let newPausedRun :=
    PausedRun.mk newId (PausedInput.quizId run)
      (PausedInput.currentQuestionIndex run) (PausedInput.selectedAnswerIds run)
      (PausedInput.answers run) now (PausedInput.shuffle run)
      (PausedInput.shuffleAnswers run) (PausedInput.questionIds run) in
  (newId,
   mk (quizzes st) (runs st)
      (match findIndex newId (pausedRuns st) with
       | Some existingIndex => <[existingIndex := newPausedRun]> (pausedRuns st)
       | None => newPausedRun :: pausedRuns st
       end)
      (settings st) (streak st) (diamonds st)).

(** *** Creating a quiz *)

(** [q.answers.map((a) => ({ ...a, id: a.id || generateId() }))]; [gen n]
    is the result of the [n]-th call of [generateId] and [n] counts the
    calls made so far. *)
Fixpoint fillAnswers (gen : nat -> string) (n : nat) (answers : list Answer.t)
    : list Answer.t * nat :=
  match answers with
  | [] => ([], n)
  | a :: rest =>
    match truthy (Some (Answer.id a)) with
    | Some _ =>
      let '(rest', n') := fillAnswers gen n rest in (a :: rest', n')
    | None =>
      let '(rest', n') := fillAnswers gen (S n) rest in
      (Answer.mk (gen n) (Answer.text a) (Answer.isCorrect a) :: rest', n')
    end
  end.

(** [quiz.questions.map((q) => ({ ...q, id: q.id || generateId(),
    answers: ... }))] *)
Fixpoint fillQuestions (gen : nat -> string) (n : nat) (questions : list Question.t)
    : list Question.t * nat :=
  match questions with
  | [] => ([], n)
  | q :: rest =>
    let '(newId, n1) :=
      match truthy (Some (Question.id q)) with
      | Some id => (id, n)
      | None => (gen n, S n)
      end in
    let '(answers', n2) := fillAnswers gen n1 (Question.answers q) in
    let '(rest', n3) := fillQuestions gen n2 rest in
    (Question.mk newId (Question.text q) (Question.orderIndex q) answers'
       (Question.images q) :: rest', n3)
  end.

(** [addQuiz]: the new quiz and the store afterwards; [created] and
    [updated] are the two readings of the clock. *)
Definition addQuiz (gen : nat -> string) (created updated : Z) (quiz : QuizInput.t)
    (st : StoreState) : Quiz.t * StoreState :=
  let newQuiz :=
    Quiz.mk (gen 0%nat) (QuizInput.title quiz) (QuizInput.description quiz)
      created updated
      (fst (fillQuestions gen 1 (QuizInput.questions quiz))) in
  (newQuiz, with_quizzes st (quizzes st ++ [newQuiz])).

End Store.

(** ** StreakScreen.tsx: the freezer purchase button *)

Module StreakScreen.

Inductive outcome :=
| ButtonDisabled          (* [disabled={streak.freezers >= 3}] *)
| NotEnoughDiamonds       (* alert, no dialog *)
| Cancelled               (* the confirmation dialog was dismissed *)
| Purchase (success : bool).

(** Pressing the buy button and answering the confirmation dialog with
    [confirm]; [handleBuyFreezer] runs only when the button is enabled. *)
Definition pressBuy (confirm : bool) (st : Store.StoreState)
    : outcome * Store.StoreState :=
  if 3 <=? StreakData.freezers (Store.streak st) then (ButtonDisabled, st)
  else if num_lt (Store.diamonds st) 100 then (NotEnoughDiamonds, st)
  else if confirm then
    let (success, st') := Store.buyFreezer st in (Purchase success, st')
  else (Cancelled, st).

End StreakScreen.

(** ** TestEditorScreen.tsx: the order in which questions are presented *)

Module TestEditorScreen.

(** [Array.prototype.sort] is stable; with the comparator
    [(a, b) => a.orderIndex - b.orderIndex] every stable sort returns the
    same list, here insertion from the right. *)
Fixpoint insertSorted (q : Question.t) (l : list Question.t) : list Question.t :=
  match l with
  | [] => [q]
  | x :: r =>
    if Question.orderIndex q <=? Question.orderIndex x then q :: x :: r
    else x :: insertSorted q r
  end.

(** [[...questions].sort((a, b) => a.orderIndex - b.orderIndex)] *)
Definition sortedQuestions (questions : list Question.t) : list Question.t :=
  fold_right insertSorted [] questions.

(** The argument [handleMoveQuestion] would pass to [reorderQuestions] if
    nothing moved: the ids in presentation order. *)
Definition presentedIds (questions : list Question.t) : list string :=
  map Question.id (sortedQuestions questions).

(** The direction argument of [handleMoveQuestion]. *)
Inductive Direction := up | down.

(** [handleMoveQuestion], pressed on the row at [fromIndex] of the
    presented list: the store afterwards, [None] when the handler throws
    (a row index past the end moved up: [moved] is [undefined] and
    [newOrder.map((q) => q.id)] fails on it). *)
Definition handleMoveQuestion (currentQuizId : option string) (fromIndex : nat)
    (direction : Direction) (now : Z) (st : Store.StoreState)
    : option Store.StoreState :=
  match truthy currentQuizId with
  | None => Some st
  | Some quizId =>
    let questions :=
      match Store.getQuiz quizId st with
      | Some quiz => Quiz.questions quiz
      | None => []
      end in
    let toIndex :=
      match direction with
      | up => Z.of_nat fromIndex - 1
      | down => Z.of_nat fromIndex + 1
      end in
    if (toIndex <? 0) || (Z.of_nat (length (sortedQuestions questions)) <=? toIndex)
    then Some st
    else
      match sortedQuestions questions !! fromIndex with
      | Some moved =>
        let newOrder := delete fromIndex (sortedQuestions questions) in
        let newOrder :=
          take (Z.to_nat toIndex) newOrder ++ moved :: drop (Z.to_nat toIndex) newOrder in
        Some (Store.reorderQuestions quizId (map Question.id newOrder) now st)
      | None => None
      end
  end.

End TestEditorScreen.

(** ** ActiveQuizScreen.tsx: the session engine *)

Module ActiveQuizScreen.

(** Route parameters and component state of one session. *)
Record Session := mk {
  testId : string;
  quizTitle : string;                 (* the quiz title, empty without a quiz *)
  questions : list Question.t;
  isMiniRun : bool;
  activePausedRunId : option string;
  currentIndex : nat;
  selectedAnswerIds : list string;
  isSubmitted : bool;
  answers : list QuizRunAnswer.t
}.

(** [array.includes(id)] on strings *)
Definition includes (id : string) (l : list string) : bool :=
  existsb (String.eqb id) l.

Definition calculateIncompleteScore (answers : list QuizRunAnswer.t)
    (totalQuestions : Z) : Z * float :=
  let correctCount :=
    Z.of_nat (length (List.filter QuizRunAnswer.isCorrect answers)) in
  let scorePercentage :=
    if 0 <? Z.of_nat (length answers)
    then PrimFloat.mul
           (PrimFloat.div (num_of_Z correctCount)
                          (num_of_Z (Z.of_nat (length answers))))
           100%float
    else 0%float in
  (correctCount, scorePercentage).

(** The updater of [handleAnswerSelect]. *)
Definition toggle (answerId : string) (prev : list string) : list string :=
  if includes answerId prev
  then List.filter (fun id => negb (String.eqb id answerId)) prev
  else prev ++ [answerId].

Definition handleAnswerSelect (answerId : string) (s : Session) : Session :=
  if isSubmitted s then s
  else mk (testId s) (quizTitle s) (questions s) (isMiniRun s)
          (activePausedRunId s) (currentIndex s)
          (toggle answerId (selectedAnswerIds s)) (isSubmitted s) (answers s).

Definition correctIds (q : Question.t) : list string :=
  map Answer.id (List.filter Answer.isCorrect (Question.answers q)).

(** [selectedAnswerIds.length === correctIds.length &&
     selectedAnswerIds.every((id) => correctIds.includes(id))] *)
Definition selectionIsCorrect (selected : list string) (q : Question.t) : bool :=
  (length selected =? length (correctIds q))%nat
  && forallb (fun id => includes id (correctIds q)) selected.

Definition newAnswer (selected : list string) (q : Question.t) : QuizRunAnswer.t :=
  QuizRunAnswer.mk (Question.id q) selected (selectionIsCorrect selected q).

(** The updater that [handleSubmit] passes to [setAnswers]. *)
Definition appendAnswer (a : QuizRunAnswer.t) (prev : list QuizRunAnswer.t)
    : list QuizRunAnswer.t :=
  if existsb (fun x => String.eqb (QuizRunAnswer.questionId x)
                                  (QuizRunAnswer.questionId a)) prev
  then prev
  else prev ++ [a].

(** The state updates of [handleSubmit] (haptics and the auto-advance
    timer are outside the model). *)
Definition handleSubmit (s : Session) : Session :=
  match selectedAnswerIds s, questions s !! currentIndex s with
  | [], _ => s
  | _ :: _, None => s
  | _ :: _, Some currentQuestion =>
    mk (testId s) (quizTitle s) (questions s) (isMiniRun s)
       (activePausedRunId s) (currentIndex s) (selectedAnswerIds s)
       true
       (appendAnswer (newAnswer (selectedAnswerIds s) currentQuestion) (answers s))
  end.

(** The branch of [handleNext] that stays in the session. *)
Definition handleNext (s : Session) : Session :=
  mk (testId s) (quizTitle s) (questions s) (isMiniRun s)
     (activePausedRunId s) (S (currentIndex s)) [] false (answers s).

(** The [onPress] of the "End Test" button of [handleEndEarly]: the run
    written to the ledger, if any, and the store afterwards. *)
Definition handleEndEarly (newId : string) (now : Z) (s : Session)
    (st : Store.StoreState) : option QuizRun.t * Store.StoreState :=
  let '(correctCount, scorePercentage) :=
    calculateIncompleteScore (answers s) (Z.of_nat (length (questions s))) in
  let wrongCount := Z.of_nat (length (answers s)) - correctCount in
  if negb (isMiniRun s) then
    let '(run, st1) :=
      Store.addRun newId now
        (RunInput.mk (testId s) (quizTitle s) scorePercentage
           (Z.of_nat (length (answers s))) correctCount wrongCount
           (answers s) (Some true))
        st in
    (Some run,
     match activePausedRunId s with
     | Some id => Store.deletePausedRun id st1
     | None => st1
     end)
  else (None, st).

(** The transitions of a running session. *)
Inductive step : Session -> Session -> Prop :=
| step_select answerId s : step s (handleAnswerSelect answerId s)
| step_submit s : step s (handleSubmit s)
| step_next s :
    (currentIndex s < length (questions s) - 1)%nat ->
    step s (handleNext s).

(** A session started afresh ([pausedRun] absent). *)
Definition fresh (s : Session) : Prop :=
  currentIndex s = 0%nat /\ selectedAnswerIds s = [] /\
  isSubmitted s = false /\ answers s = [].

(** *** Shuffling *)

(** [[shuffled[i], shuffled[j]] = [shuffled[j], shuffled[i]]] for two
    indices inside the array (the loop of [shuffleArray] uses no other). *)
Definition swap {A : Type} (i j : nat) (shuffled : list A) : list A :=
  match shuffled !! i, shuffled !! j with
  | Some x, Some y => <[j := x]> (<[i := y]> shuffled)
  | _, _ => shuffled
  end.

(** The loop [for (let i = ...; i > 0; i--)] of [shuffleArray], from index
    [i] down; [draws] are the successive values of
    [Math.floor(Math.random() * (i + 1))]. *)
Fixpoint shuffleLoop {A : Type} (i : nat) (draws : list nat) (shuffled : list A)
    : list A :=
  match i, draws with
  | S i', j :: rest => shuffleLoop i' rest (swap (S i') j shuffled)
  | _, _ => shuffled
  end.

Definition shuffleArray {A : Type} (draws : list nat) (array : list A) : list A :=
  shuffleLoop (length array - 1) draws array.

(** The draws a run of the loop from index [i] consumes: one per index,
    each between 0 and that index, as [Math.floor(Math.random() * (i + 1))]
    is for [Math.random()] in [0, 1). *)
Fixpoint validDraws (i : nat) (draws : list nat) : Prop :=
  match i, draws with
  | O, _ => True
  | S i', j :: rest => (j <= S i')%nat /\ validDraws i' rest
  | S _, [] => False
  end.

(** *** Setting a session up *)

(** The route parameters of the screen; an absent flag is [false], an
    absent id list or paused-run id is [None]. *)
Record RouteParams := mkParams {
  p_testId : string;
  p_shuffle : bool;
  p_shuffleAnswers : bool;
  p_questionIds : option (list string);
  p_pausedRunId : option string
}.

(** [pausedRunId ? getPausedRun(pausedRunId) : undefined] *)
Definition pausedRunOf (params : RouteParams) (st : Store.StoreState)
    : option PausedRun.t :=
  match truthy (p_pausedRunId params) with
  | Some id => Store.getPausedRun id st
  | None => None
  end.

(** [questionIds || pausedRun?.questionIds] (an array, empty or not, is
    truthy). *)
Definition effectiveQuestionIds (params : RouteParams) (st : Store.StoreState)
    : option (list string) :=
  match p_questionIds params with
  | Some ids => Some ids
  | None =>
    match pausedRunOf params st with
    | Some pausedRun => PausedRun.questionIds pausedRun
    | None => None
    end
  end.

(** [shuffle || pausedRun?.shuffle] *)
Definition effectiveShuffle (params : RouteParams) (st : Store.StoreState) : bool :=
  p_shuffle params ||
  match pausedRunOf params st with
  | Some pausedRun => PausedRun.shuffle pausedRun
  | None => false
  end.

(** [shuffleAnswers || pausedRun?.shuffleAnswers] *)
Definition effectiveShuffleAnswers (params : RouteParams) (st : Store.StoreState)
    : bool :=
  p_shuffleAnswers params ||
  match pausedRunOf params st with
  | Some pausedRun => default false (PausedRun.shuffleAnswers pausedRun)
  | None => false
  end.

(** [ids && ids.length > 0] *)
Definition nonEmptyIds (ids : option (list string)) : bool :=
  match ids with
  | Some (_ :: _) => true
  | _ => false
  end.

Definition isMiniRunOf (params : RouteParams) (st : Store.StoreState) : bool :=
  nonEmptyIds (effectiveQuestionIds params st) ||
  match pausedRunOf params st with
  | Some pausedRun => nonEmptyIds (PausedRun.questionIds pausedRun)
  | None => false
  end.

(** [q.answers.some((a) => a.isCorrect)] *)
Definition hasCorrectAnswer (q : Question.t) : bool :=
  existsb Answer.isCorrect (Question.answers q).

(** The [questions] memo up to and including the sort by [orderIndex]. *)
Definition orderedQuestions (quiz : Quiz.t) (ids : option (list string))
    : list Question.t :=
  let qs := List.filter hasCorrectAnswer (Quiz.questions quiz) in
  let qs :=
    match ids with
    | Some (id :: rest) =>
      List.filter (fun q => includes (Question.id q) (id :: rest)) qs
    | _ => qs
    end in
  TestEditorScreen.sortedQuestions qs.

(** The [questions] memo; [draws] are the draws of the question shuffle and
    [answerDraws !! i] those of the answer shuffle of the [i]-th question. *)
Definition questionsInPlay (quiz : option Quiz.t) (shuffle shuffleAnswers : bool)
    (ids : option (list string)) (draws : list nat) (answerDraws : list (list nat))
    : list Question.t :=
  match quiz with
  | None => []
  | Some quiz =>
    let qs := orderedQuestions quiz ids in
    let qs := if shuffle then shuffleArray draws qs else qs in
    if shuffleAnswers
    then imap (fun i q =>
                 Question.with_answers q
                   (shuffleArray (default [] (answerDraws !! i)) (Question.answers q)))
              qs
    else qs
  end.

(** The first render of the screen: the memos and the initial [useState]
    values (a saved question index is a position in the list, a natural
    number). *)
Definition start (params : RouteParams) (st : Store.StoreState)
    (draws : list nat) (answerDraws : list (list nat)) : Session :=
  let quiz := Store.getQuiz (p_testId params) st in
  let pausedRun := pausedRunOf params st in
  mk (p_testId params)
     (match quiz with Some q => Quiz.title q | None => EmptyString end)
     (questionsInPlay quiz (effectiveShuffle params st)
        (effectiveShuffleAnswers params st) (effectiveQuestionIds params st)
        draws answerDraws)
     (isMiniRunOf params st)
     (p_pausedRunId params)
     (match pausedRun with
      | Some r => Z.to_nat (PausedRun.currentQuestionIndex r)
      | None => 0%nat
      end)
     (match pausedRun with Some r => PausedRun.selectedAnswerIds r | None => [] end)
     false
     (match pausedRun with Some r => PausedRun.answers r | None => [] end).

(** The parameters [handleResumeRun] of the history list navigates with. *)
Definition resumeParams (pausedRunId testId : string) : RouteParams :=
  mkParams testId false false None (Some pausedRunId).

(** *** Pausing and finishing *)

(** The argument [handlePause] and the background handler give to
    [savePausedRun]. *)
Definition pauseRecord (params : RouteParams) (s : Session) (st : Store.StoreState)
    : PausedInput.t :=
  PausedInput.mk (activePausedRunId s) (testId s) (Z.of_nat (currentIndex s))
    (selectedAnswerIds s) (answers s)
    (effectiveShuffle params st)
    (Some (effectiveShuffleAnswers params st))
    (effectiveQuestionIds params st).

(** [handlePause]: the id under which the session was saved, if it was, and
    the store afterwards. *)
Definition handlePause (generated : string) (now : Z) (params : RouteParams)
    (s : Session) (st : Store.StoreState) : option string * Store.StoreState :=
  if isMiniRun s then (None, st)
  else
    let '(newId, st') := Store.savePausedRun generated now (pauseRecord params s st) st in
    (Some newId, st').

(** The [AppState] listener on a change to inactive or background: the
    session and the store afterwards. *)
Definition handleBackground (generated : string) (now : Z) (params : RouteParams)
    (s : Session) (st : Store.StoreState) : Session * Store.StoreState :=
  if negb (isMiniRun s) && negb (isSubmitted s) then
    let '(newId, st') := Store.savePausedRun generated now (pauseRecord params s st) st in
    (mk (testId s) (quizTitle s) (questions s) (isMiniRun s) (Some newId)
        (currentIndex s) (selectedAnswerIds s) (isSubmitted s) (answers s),
     st')
  else (s, st).

(** [finishQuiz]: the run written to the ledger, if any, and the store
    afterwards; [timestamp] and [now] are the two readings of the clock, by
    [addRun] and by [updateStreak]. *)
Definition finishQuiz (newId : string) (timestamp now : Z) (s : Session)
    (finalAnswers : list QuizRunAnswer.t) (st : Store.StoreState)
    : option QuizRun.t * Store.StoreState :=
  let correctCount :=
    Z.of_nat (length (List.filter QuizRunAnswer.isCorrect finalAnswers)) in
  let wrongCount := Z.of_nat (length finalAnswers) - correctCount in
  let scorePercentage :=
    PrimFloat.mul
      (PrimFloat.div (num_of_Z correctCount)
                     (num_of_Z (Z.of_nat (length finalAnswers))))
      100%float in
  if negb (isMiniRun s) then
    let '(run, st1) :=
      Store.addRun newId timestamp
        (RunInput.mk (testId s) (quizTitle s) scorePercentage
           (Z.of_nat (length finalAnswers)) correctCount wrongCount
           finalAnswers None)
        st in
    let st2 := Store.updateStreak now st1 in
    (Some run,
     match truthy (activePausedRunId s) with
     | Some id => Store.deletePausedRun id st2
     | None => st2
     end)
  else (None, st).

(** *** Feedback on the answers *)

(** The results ["selected"], ["default"], ["correct"] and ["wrong"] of
    [getAnswerState]. *)
Inductive AnswerState := stSelected | stDefault | stCorrect | stWrong.

Definition getAnswerState (s : Session) (answerId : string) : AnswerState :=
  if negb (isSubmitted s) then
    if includes answerId (selectedAnswerIds s) then stSelected else stDefault
  else
    let answer :=
      match questions s !! currentIndex s with
      | Some currentQuestion =>
        List.find (fun a => String.eqb (Answer.id a) answerId)
          (Question.answers currentQuestion)
      | None => None
      end in
    if match answer with Some a => Answer.isCorrect a | None => false end
    then stCorrect
    else if includes answerId (selectedAnswerIds s) then stWrong else stDefault.

End ActiveQuizScreen.

(** ** The question editor ([QuestionEditorScreen]) *)

Module QuestionEditorScreen.

(** The component state the handlers work on. *)
Record Editor := mkEditor {
  questionText : string;
  answers : list Answer.t;
  images : list string
}.

(** [{ id: generateId(), text: "", isCorrect: false }] *)
Definition blankAnswer (newId : string) : Answer.t :=
  Answer.mk newId EmptyString false.

(** [quiz?.questions.find((q) => q.id === questionId)]; without a
    [questionId] no question is found. *)
Definition existingQuestion (testId : string) (questionId : option string)
    (st : Store.StoreState) : option Question.t :=
  match Store.getQuiz testId st, questionId with
  | Some quiz, Some qid =>
    List.find (fun q => String.eqb (Question.id q) qid) (Quiz.questions quiz)
  | _, _ => None
  end.

(** The initial [useState] values; [id1] and [id2] are the ids generated
    for the two blank answers of a new question. *)
Definition initial (existing : option Question.t) (id1 id2 : string) : Editor :=
  match existing with
  | Some q => mkEditor (Question.text q) (Question.answers q)
                (default [] (Question.images q))
  | None => mkEditor EmptyString [blankAnswer id1; blankAnswer id2] []
  end.

Definition handleAddAnswer (newId : string) (e : Editor) : Editor :=
  if (6 <=? length (answers e))%nat then e
  else mkEditor (questionText e) (answers e ++ [blankAnswer newId]) (images e).

(** The updater of [handleRemoveAnswer]; [filtered[0].isCorrect = true]
    is written as the list with its first answer marked. *)
Definition removeAnswer (answerId : string) (prev : list Answer.t) : list Answer.t :=
  let filtered :=
    List.filter (fun a => negb (String.eqb (Answer.id a) answerId)) prev in
  if negb (existsb Answer.isCorrect filtered) && (0 <? length filtered)%nat
  then match filtered with
       | first :: rest => Answer.mk (Answer.id first) (Answer.text first) true :: rest
       | [] => filtered
       end
  else filtered.

Definition handleRemoveAnswer (answerId : string) (e : Editor) : Editor :=
  if (length (answers e) <=? 2)%nat then e
  else mkEditor (questionText e) (removeAnswer answerId (answers e)) (images e).

Definition handleAnswerTextChange (answerId text : string) (e : Editor) : Editor :=
  mkEditor (questionText e)
    (map (fun a => if String.eqb (Answer.id a) answerId
                   then Answer.mk (Answer.id a) text (Answer.isCorrect a) else a)
         (answers e))
    (images e).

Definition handleSetCorrect (answerId : string) (e : Editor) : Editor :=
  mkEditor (questionText e)
    (map (fun a => if String.eqb (Answer.id a) answerId
                   then Answer.mk (Answer.id a) (Answer.text a) (negb (Answer.isCorrect a))
                   else a)
         (answers e))
    (images e).

(** The edits of the answer list; a generated id is new to the list. *)
Inductive editStep : Editor -> Editor -> Prop :=
| edit_add newId e :
    ~ In newId (map Answer.id (answers e)) -> editStep e (handleAddAnswer newId e)
| edit_remove answerId e : editStep e (handleRemoveAnswer answerId e)
| edit_text answerId text e : editStep e (handleAnswerTextChange answerId text e)
| edit_correct answerId e : editStep e (handleSetCorrect answerId e).

Section Trim.

(** [String.prototype.trim]; the definitions below use nothing of it but
    the length of its result. *)
Variable trim : string -> string.

(** [a.text.trim().length > 0] *)
Definition nonBlank (a : Answer.t) : bool :=
  (0 <? String.length (trim (Answer.text a)))%nat.

Definition isValid (e : Editor) : bool :=
  (0 <? String.length (trim (questionText e)))%nat
  && (2 <=? length (answers e))%nat
  && existsb Answer.isCorrect (answers e)
  && (2 <=? length (List.filter nonBlank (answers e)))%nat.

(** [handleSave]; [newId] is the id [addQuestion] generates. *)
Definition handleSave (testId : string) (questionId : option string)
    (newId : string) (now : Z) (e : Editor) (st : Store.StoreState)
    : Store.StoreState :=
  if negb (isValid e) then st
  else
    let validAnswers := List.filter nonBlank (answers e) in
    match existingQuestion testId questionId st, questionId with
    | Some _, Some qid =>
      Store.updateQuestion testId qid
        (QuestionUpdates.mk (Some (trim (questionText e))) None (Some validAnswers)
           (Some (images e)))
        now st
    | _, _ =>
      Store.addQuestion testId newId now
        (Question.mk EmptyString (trim (questionText e)) 0 validAnswers
           (Some (images e)))
        st
    end.

End Trim.

End QuestionEditorScreen.

(** ** Reviewing a run ([ReviewMistakesScreen]) *)

Module ReviewMistakesScreen.

(** The route parameter [mode], ['mistakes'] when absent. *)
Inductive Mode := mistakes | all.

Record MistakeItem := mkItem {
  questionId : string;
  questionText : string;
  questionImages : option (list string);
  selectedAnswers : list string;
  correctAnswers : list string
}.

(** The item pushed for the answer [a]. *)
Definition itemOf (quiz : Quiz.t) (a : QuizRunAnswer.t) : MistakeItem :=
  let question :=
    List.find (fun q => String.eqb (Question.id q) (QuizRunAnswer.questionId a))
      (Quiz.questions quiz) in
  mkItem (QuizRunAnswer.questionId a)
    (match question with
     | Some q => Question.text q
     | None => "Unknown question"
     end)
    (match question with
     | Some q => Question.images q
     | None => None
     end)
    (match question with
     | Some q =>
       map Answer.text
         (List.filter
            (fun ans => ActiveQuizScreen.includes (Answer.id ans)
                          (QuizRunAnswer.selectedAnswerIds a))
            (Question.answers q))
     | None => []
     end)
    (match question with
     | Some q => map Answer.text (List.filter Answer.isCorrect (Question.answers q))
     | None => []
     end).

(** One round of the [reduce]: the set [seenQuestions] and the
    accumulator. *)
Definition reviewStep (quiz : Quiz.t) (state : list string * list MistakeItem)
    (a : QuizRunAnswer.t) : list string * list MistakeItem :=
  let '(seenQuestions, acc) := state in
  if ActiveQuizScreen.includes (QuizRunAnswer.questionId a) seenQuestions
  then (seenQuestions, acc)
  else (QuizRunAnswer.questionId a :: seenQuestions, acc ++ [itemOf quiz a]).

Definition questionsToReview (mode : Mode) (run : option QuizRun.t)
    (quiz : option Quiz.t) : list MistakeItem :=
  match run, quiz with
  | Some run, Some quiz =>
    let answersToReview :=
      match mode with
      | mistakes =>
        List.filter (fun a => negb (QuizRunAnswer.isCorrect a)) (QuizRun.answers run)
      | all => QuizRun.answers run
      end in
    snd (fold_left (reviewStep quiz) answersToReview ([], []))
  | _, _ => []
  end.

(** The list the screen shows for the run [runId]. *)
Definition review (mode : Mode) (runId : string) (st : Store.StoreState)
    : list MistakeItem :=
  let run := Store.getRun runId st in
  let quiz :=
    match run with
    | Some r => Store.getQuiz (QuizRun.quizId r) st
    | None => None
    end in
  questionsToReview mode run quiz.

(** The parameters [handleRetryMistakes] navigates with. *)
Definition retryParams (run : QuizRun.t) (items : list MistakeItem)
    : ActiveQuizScreen.RouteParams :=
  ActiveQuizScreen.mkParams (QuizRun.quizId run) false false
    (Some (map questionId items)) None.

End ReviewMistakesScreen.

(** ** Before a quiz ([PreQuizScreen]) *)

Module PreQuizScreen.

(** The questions counted on the screen. *)
Definition validQuestions (quiz : Quiz.t) : list Question.t :=
  List.filter ActiveQuizScreen.hasCorrectAnswer (Quiz.questions quiz).

(** The parameters [handleStartQuiz] navigates with. *)
Definition startParams (testId : string) (shuffle : bool)
    : ActiveQuizScreen.RouteParams :=
  ActiveQuizScreen.mkParams testId shuffle false None None.

End PreQuizScreen.

(** ** The day count of the gap check

    The value that [checkStreak] computes as [diffDays] when the last
    completion lies [k] calendar days before today (see [diffDays_value]):
    the days strictly between, plus today unless [now] is exactly UTC
    midnight. *)
Definition countedDays (now k : Z) : Z :=
  if now mod msPerDay =? 0 then k - 1 else k.

(** ** The score formula of the specification

    [100 * correctCount / totalQuestions], read as a JavaScript expression.
    The source evaluates [(correctCount / answers.length) * 100] instead;
    [sameUpTo] compares two numbers up to an absolute tolerance. *)
Definition specScorePercentage (correctCount totalQuestions : Z) : float :=
  PrimFloat.div (PrimFloat.mul 100%float (num_of_Z correctCount))
                (num_of_Z totalQuestions).

Definition sameUpTo (tolerance a b : float) : bool :=
  PrimFloat.leb (PrimFloat.abs (PrimFloat.sub a b)) tolerance.

(** The answer lists of [total] answers of which the first [correct] are
    correct. *)
Definition answersWith (correct total : nat) : list QuizRunAnswer.t :=
  map (fun i => QuizRunAnswer.mk "q" [] (i <? correct)%nat) (seq 0 total).

(** ** Initial state and sample data *)

Definition defaultSettings : Settings.t :=
  Settings.mk false false EmptyString 0 None true 1.5%float false.

Definition defaultStreak : StreakData.t := StreakData.mk 0 None 0 ∅.

(** The [useState] initial values of [StoreProvider]. *)
Definition initialState : Store.StoreState :=
  Store.mk [] [] [] defaultSettings defaultStreak 0%float.

(** A store with the given streak record and diamonds balance. *)
Definition storeWith (s : StreakData.t) (d : float) : Store.StoreState :=
  Store.mk [] [] [] defaultSettings s d.

(** Noon (UTC) of day [d]. *)
Definition noonOf (d : Z) : Z := dayStart d + 12 * 60 * 60 * 1000.

(** A question with the correct-answer set {A, B} and a wrong answer C, and
    a one-question session on it with a given selection. *)
Definition questionAB : Question.t :=
  Question.mk "q1" "Pick both" 0
    [Answer.mk "A" "first" true; Answer.mk "B" "second" true;
     Answer.mk "C" "third" false]
    None.

Definition sessionOn (selected : list string) (answers : list QuizRunAnswer.t)
    : ActiveQuizScreen.Session :=
  ActiveQuizScreen.mk "quiz1" "Sample" [questionAB] false None 0 selected false answers.

(** A five-question session that has reached question [index] with the
    given submitted answers. *)
Definition fiveQuestions : list Question.t :=
  questionAB ::
  map (fun id => Question.mk id "Pick one" 0
                   [Answer.mk "A" "yes" true; Answer.mk "B" "no" false] None)
      ["q2"; "q3"; "q4"; "q5"].

Definition sessionAt (index : nat) (answers : list QuizRunAnswer.t)
    : ActiveQuizScreen.Session :=
  ActiveQuizScreen.mk "quiz1" "Sample" fiveQuestions false None index [] false answers.

Definition fourSubmitted : list QuizRunAnswer.t :=
  [QuizRunAnswer.mk "q1" ["A"; "B"] true; QuizRunAnswer.mk "q2" ["B"] false;
   QuizRunAnswer.mk "q3" ["A"] true; QuizRunAnswer.mk "q4" ["A"] true].

(** A quiz stored in an order that differs from its presentation order. *)
Definition quizStoredBackwards : Quiz.t :=
  Quiz.mk "quiz1" "Sample" "backwards" 0 0
    [Question.mk "b" "second" 1 [] None; Question.mk "a" "first" 0 [] None].

(** ** Well-formedness of a session *)

(** At most one submitted answer per question. *)
Definition uniqueAnswers (s : ActiveQuizScreen.Session) : Prop :=
  NoDup (map QuizRunAnswer.questionId (ActiveQuizScreen.answers s)).

(** ** Question order *)

(** Every question's [orderIndex] is its position in the list. *)
Definition indexedByPosition (l : list Question.t) : Prop :=
  forall i q, l !! i = Some q -> Question.orderIndex q = Z.of_nat i.

(** The ids and order indices of a quiz's questions, in array order. *)
Definition orderOf (quizId : string) (st : Store.StoreState) : list (string * Z) :=
  match Store.getQuiz quizId st with
  | Some q => map (fun qn => (Question.id qn, Question.orderIndex qn)) (Quiz.questions q)
  | None => []
  end.

(** The ids in presentation order, as the editor shows the quiz. *)
Definition presentedIdsOf (quizId : string) (st : Store.StoreState) : list string :=
  match Store.getQuiz quizId st with
  | Some q => TestEditorScreen.presentedIds (Quiz.questions q)
  | None => []
  end.

(** A store holding one empty quiz, and a question body to add to it. *)
Definition oneEmptyQuiz : Store.StoreState :=
  Store.mk [Quiz.mk "quiz1" "Sample" EmptyString 0 0 []] [] [] defaultSettings
    defaultStreak
    0%float.

Definition questionBody : Question.t :=
  Question.mk "unset" "text" 0
    [Answer.mk "A" "yes" true; Answer.mk "B" "no" false] None.

(** Three questions added, the middle one deleted. *)
Definition afterDelete : Store.StoreState :=
  Store.deleteQuestion "quiz1" "b" 4
    (Store.addQuestion "quiz1" "c" 3 questionBody
       (Store.addQuestion "quiz1" "b" 2 questionBody
          (Store.addQuestion "quiz1" "a" 1 questionBody oneEmptyQuiz))).

(** ** Order of a question list *)

(** Sorted by [orderIndex], equal indices allowed. *)
Definition ascending (l : list Question.t) : Prop :=
  StronglySorted (fun a b => Question.orderIndex a <= Question.orderIndex b) l.

(** The questions of a quiz, [[]] when there is no such quiz. *)
Definition questionsOf (quizId : string) (st : Store.StoreState) : list Question.t :=
  match Store.getQuiz quizId st with
  | Some q => Quiz.questions q
  | None => []
  end.

(** [Store.reordered] with the index written through [k]; [Store.reordered]
    is [reorderedBy Z.of_nat]. *)
Definition reorderedBy (k : nat -> Z) (questionIds : list string)
    (qs : list Question.t) : list Question.t :=
  omap (fun x => x)
    (imap (fun index id =>
             match List.find (fun qn => String.eqb (Question.id qn) id) qs with
             | Some question => Some (Question.with_orderIndex question (k index))
             | None => None
             end)
          questionIds).

(** The ids of a list paired with their positions. *)
Definition numbered (ids : list string) : list (string * Z) :=
  imap (fun index id => (id, Z.of_nat index)) ids.

(** A store with one quiz of three questions. *)
Definition threeQuestions : Store.StoreState :=
  Store.addQuestion "quiz1" "c" 3 questionBody
    (Store.addQuestion "quiz1" "b" 2 questionBody
       (Store.addQuestion "quiz1" "a" 1 questionBody oneEmptyQuiz)).

(** ** Draws of the answer shuffles *)

(** One valid list of draws for the answers of every question of [qs]. *)
Definition validAnswerDraws (qs : list Question.t) (answerDraws : list (list nat))
    : Prop :=
  forall i q, qs !! i = Some q ->
    ActiveQuizScreen.validDraws (length (Question.answers q) - 1)
      (default [] (answerDraws !! i)).

(** ** A quiz to play *)

(** Three answerable questions stored out of order, and one without a
    correct answer. *)
Definition playQuiz : Quiz.t :=
  Quiz.mk "quiz1" "Sample" "play" 0 0
    [Question.mk "c" "third" 2
       [Answer.mk "c1" "no" false; Answer.mk "c2" "yes" true] None;
     Question.mk "a" "first" 0
       [Answer.mk "a1" "yes" true; Answer.mk "a2" "no" false;
        Answer.mk "a3" "yes" true] None;
     Question.mk "x" "unanswerable" 1
       [Answer.mk "x1" "no" false; Answer.mk "x2" "no" false] None;
     Question.mk "b" "second" 1
       [Answer.mk "b1" "no" false; Answer.mk "b2" "yes" true] None].

(** ** Progress of a session *)

(** The answer was recorded by a submission on question [q]: it carries the
    question's id, a non-empty selection and the verdict on that selection. *)
Definition recordedOn (q : Question.t) (a : QuizRunAnswer.t) : Prop :=
  a = ActiveQuizScreen.newAnswer (QuizRunAnswer.selectedAnswerIds a) q /\
  QuizRunAnswer.selectedAnswerIds a <> [].

(** Every recorded answer was recorded on a question shown so far. *)
Definition answeredUpTo (s : ActiveQuizScreen.Session) : Prop :=
  forall a, In a (ActiveQuizScreen.answers s) ->
    exists i q, (i <= ActiveQuizScreen.currentIndex s)%nat /\
                ActiveQuizScreen.questions s !! i = Some q /\
                recordedOn q a.

(** An answer is recorded under the id of the question on screen. *)
Definition currentAnswered (s : ActiveQuizScreen.Session) : Prop :=
  exists q, ActiveQuizScreen.questions s !! ActiveQuizScreen.currentIndex s = Some q /\
            In (Question.id q)
               (map QuizRunAnswer.questionId (ActiveQuizScreen.answers s)).

(** The answers counted against the position in the quiz. *)
Definition counted (s : ActiveQuizScreen.Session) : Prop :=
  (length (ActiveQuizScreen.answers s) <= ActiveQuizScreen.currentIndex s)%nat \/
  ((length (ActiveQuizScreen.answers s) <= S (ActiveQuizScreen.currentIndex s))%nat /\
   currentAnswered s).

Definition progressInvariant (s : ActiveQuizScreen.Session) : Prop :=
  (ActiveQuizScreen.currentIndex s <= length (ActiveQuizScreen.questions s) - 1)%nat /\
  answeredUpTo s /\
  counted s /\
  (ActiveQuizScreen.isSubmitted s = true -> currentAnswered s).

(** The five-question session after a tap on answer A of the first
    question, its submission and the move to the second question. *)
Definition afterFirstQuestion : ActiveQuizScreen.Session :=
  ActiveQuizScreen.handleNext
    (ActiveQuizScreen.handleSubmit
       (ActiveQuizScreen.handleAnswerSelect "A" (sessionAt 0 []))).

(** ** A session on the quiz to play *)

Definition playStore : Store.StoreState :=
  Store.mk [playQuiz] [] [] defaultSettings defaultStreak 0%float.

Definition playParams : ActiveQuizScreen.RouteParams :=
  ActiveQuizScreen.mkParams "quiz1" false false None None.

(** The session on [playQuiz] after a tap on answer a1 of its first
    question. *)
Definition playSession : ActiveQuizScreen.Session :=
  ActiveQuizScreen.handleAnswerSelect "a1"
    (ActiveQuizScreen.start playParams playStore [] []).

(** A practice session on two questions of the quiz to play. *)
Definition practiceParams : ActiveQuizScreen.RouteParams :=
  ActiveQuizScreen.mkParams "quiz1" false false (Some ["a"; "c"]) None.

Definition practiceSession : ActiveQuizScreen.Session :=
  ActiveQuizScreen.handleSubmit
    (ActiveQuizScreen.handleAnswerSelect "a1"
       (ActiveQuizScreen.start practiceParams playStore [] [])).

Definition oneWrongAnswer : list QuizRunAnswer.t :=
  [QuizRunAnswer.mk "a" ["a1"] false].

(** ** Editing a question *)

(** The answer list has distinct ids and between two and six entries. *)
Definition editorInvariant (e : QuestionEditorScreen.Editor) : Prop :=
  NoDup (map Answer.id (QuestionEditorScreen.answers e)) /\
  (2 <= length (QuestionEditorScreen.answers e) <= 6)%nat.

(** A new question after one more answer was added and the first removed. *)
Definition editedAnswers : QuestionEditorScreen.Editor :=
  QuestionEditorScreen.handleRemoveAnswer "a1"
    (QuestionEditorScreen.handleAddAnswer "a3"
       (QuestionEditorScreen.initial None "a1" "a2")).

(** A stand-in for [trim] that removes leading spaces only. *)
Fixpoint trimStart (s : string) : string :=
  match s with
  | String c rest => if Ascii.eqb c Ascii.Space then trimStart rest else s
  | EmptyString => s
  end.

(** An editor whose only correct answer is blank. *)
Definition blankCorrect : QuestionEditorScreen.Editor :=
  QuestionEditorScreen.mkEditor " What?"
    [Answer.mk "a1" " " true; Answer.mk "a2" "yes" false; Answer.mk "a3" "no" false]
    [].

(** ** A run to review *)

(** A run on the quiz to play with two wrong answers on question a, one
    right answer on question b and a wrong one on question c. *)
Definition playedRun : QuizRun.t :=
  QuizRun.mk "r1" "quiz1" "Sample" 5 25%float 4 1 3
    [QuizRunAnswer.mk "c" ["c1"] false; QuizRunAnswer.mk "b" ["b2"] true;
     QuizRunAnswer.mk "a" ["a1"] false; QuizRunAnswer.mk "a" ["a2"] false]
    None None.

Definition reviewStore : Store.StoreState :=
  Store.mk [playQuiz] [playedRun] [] defaultSettings defaultStreak 0%float.

(** * Properties *)

(** ** Records are determined by their fields *)

Lemma StoreState_eta (st : Store.StoreState) :
  Store.mk (Store.quizzes st) (Store.runs st) (Store.pausedRuns st)
    (Store.settings st) (Store.streak st) (Store.diamonds st) = st.
Proof. by destruct st. Qed.

Lemma StreakData_eta (s : StreakData.t) :
  StreakData.mk (StreakData.currentStreak s) (StreakData.lastCompletedDate s)
    (StreakData.freezers s) (StreakData.history s) = s.
Proof. by destruct s. Qed.

Lemma with_orderIndex_same (q : Question.t) :
  Question.with_orderIndex q (Question.orderIndex q) = q.
Proof. by destruct q. Qed.

(** ** Boolean list predicates on strings *)

Lemma filter_neqb_In {A} (key : A -> string) (id : string) (l : list A) (x : A) :
  In x (List.filter (fun y => negb (String.eqb (key y) id)) l) <->
  In x l /\ key x <> id.
Proof.
  rewrite filter_In, negb_true_iff.
  split; intros [Hin Hne]; split; try done.
  - intros Heq. apply String.eqb_eq in Heq. congruence.
  - apply not_true_is_false. intros Heq. apply String.eqb_eq in Heq. done.
Qed.

Lemma includes_In (id : string) (l : list string) :
  ActiveQuizScreen.includes id l = true <-> In id l.
Proof.
  unfold ActiveQuizScreen.includes. rewrite existsb_exists. split.
  - intros (x & Hin & Heq). apply String.eqb_eq in Heq. by subst.
  - intros Hin. exists id. split; [done | apply String.eqb_refl].
Qed.

(** ** Cascading quiz deletion *)

(** C8: [deleteQuiz id] keeps exactly the quizzes whose id differs from [id]
    and exactly the runs and paused runs whose quizId differs from [id];
    settings, streak and diamonds are the same afterwards. *)
Theorem deleteQuiz_cascades (id : string) (st : Store.StoreState) :
  (forall q, In q (Store.quizzes (Store.deleteQuiz id st)) <->
             In q (Store.quizzes st) /\ Quiz.id q <> id) /\
  (forall r, In r (Store.runs (Store.deleteQuiz id st)) <->
             In r (Store.runs st) /\ QuizRun.quizId r <> id) /\
  (forall p, In p (Store.pausedRuns (Store.deleteQuiz id st)) <->
             In p (Store.pausedRuns st) /\ PausedRun.quizId p <> id) /\
  Store.settings (Store.deleteQuiz id st) = Store.settings st /\
  Store.streak (Store.deleteQuiz id st) = Store.streak st /\
  Store.diamonds (Store.deleteQuiz id st) = Store.diamonds st.
Proof.
  unfold Store.deleteQuiz; simpl.
  split; [intros q; apply (filter_neqb_In Quiz.id) |].
  split; [intros r; apply (filter_neqb_In QuizRun.quizId) |].
  split; [intros p; apply (filter_neqb_In PausedRun.quizId) |].
  done.
Qed.

(** ** Completing a quiz twice on one day *)

Lemma updateStreak_streak_noop (now : Z) (s : StreakData.t) :
  StreakData.lastCompletedDate s = Some (isoDay now) ->
  Store.updateStreak_streak now s = s.
Proof.
  intros H. unfold Store.updateStreak_streak.
  by rewrite bool_decide_eq_true_2.
Qed.

Lemma updateStreak_streak_last (now : Z) (s : StreakData.t) :
  StreakData.lastCompletedDate (Store.updateStreak_streak now s) = Some (isoDay now).
Proof.
  unfold Store.updateStreak_streak. by case_bool_decide.
Qed.

(** C6: when [lastCompletedDate] is today's calendar day, [updateStreak]
    returns the state unchanged; hence a completion at [now'] that follows a
    completion at [now] on the same calendar day changes nothing (neither
    currentStreak nor lastCompletedDate nor history). *)
Theorem updateStreak_idempotent_within_day (now now' : Z) (st : Store.StoreState)
    (Hday : isoDay now' = isoDay now) :
  (StreakData.lastCompletedDate (Store.streak st) = Some (isoDay now') ->
   Store.updateStreak now' st = st) /\
  Store.updateStreak now' (Store.updateStreak now st) = Store.updateStreak now st.
Proof.
  split.
  - intros H. unfold Store.updateStreak.
    rewrite updateStreak_streak_noop by done. apply StoreState_eta.
  - unfold Store.updateStreak at 1. simpl.
    rewrite updateStreak_streak_noop; [done |].
    rewrite updateStreak_streak_last. by rewrite Hday.
Qed.

Lemma updateStreak_idempotent_within_day_witness :
  let st := storeWith (StreakData.mk 3 (Some 20000) 0 {[20000 := StreakData.completed]})
                      0%float in
  isoDay (noonOf 20000 + 1) = isoDay (noonOf 20000) /\
  StreakData.lastCompletedDate (Store.streak st) = Some (isoDay (noonOf 20000 + 1)) /\
  Store.updateStreak (noonOf 20000 + 1) st = st /\
  Store.updateStreak (noonOf 20000 + 1) (Store.updateStreak (noonOf 20000) st)
  = Store.updateStreak (noonOf 20000) st.
Proof.
  intros st.
  assert (Hday : isoDay (noonOf 20000 + 1) = isoDay (noonOf 20000)) by reflexivity.
  pose proof (updateStreak_idempotent_within_day (noonOf 20000) (noonOf 20000 + 1) st Hday)
    as [Hsame Htwice].
  split; [exact Hday |].
  split; [reflexivity |].
  split; [apply Hsame; reflexivity | exact Htwice].
Defined.

(** ** The run ledger *)

(** C7: the stored run carries
    [diamondsEarned = totalQuestions * 0.5 * (scorePercentage / 100)]
    (4.0 for ten questions at 80 percent), the balance grows by that amount,
    and the new run is the head of the ledger. *)
Theorem addRun_rewards_and_prepends (newId : string) (now : Z) (run : RunInput.t)
    (st : Store.StoreState) :
  let newRun := fst (Store.addRun newId now run st) in
  let st' := snd (Store.addRun newId now run st) in
  let earned :=
    PrimFloat.mul
      (PrimFloat.mul (num_of_Z (RunInput.totalQuestions run)) 0.5%float)
      (PrimFloat.div (RunInput.scorePercentage run) 100%float) in
  QuizRun.diamondsEarned newRun = Some earned /\
  (RunInput.totalQuestions run = 10 ->
   RunInput.scorePercentage run = 80%float ->
   QuizRun.diamondsEarned newRun = Some 4%float) /\
  Store.diamonds st' = PrimFloat.add (Store.diamonds st) earned /\
  Store.runs st' = newRun :: Store.runs st /\
  QuizRun.totalQuestions newRun = RunInput.totalQuestions run /\
  QuizRun.scorePercentage newRun = RunInput.scorePercentage run.
Proof.
  simpl. repeat split.
  intros Htq Hsp. unfold Store.rawDiamonds. by rewrite Htq, Hsp.
Qed.

(** ** Ending a session early *)

Section EndEarly.

Variables (newId : string) (now : Z).
Variable s : ActiveQuizScreen.Session.
Variable st : Store.StoreState.

(** The run that ending early writes: its counts come from the submitted
    answers alone, and the ledger and paused-run cleanup follow. *)
Lemma handleEndEarly_run :
  ActiveQuizScreen.isMiniRun s = false ->
  exists run st',
    ActiveQuizScreen.handleEndEarly newId now s st = (Some run, st') /\
    Store.runs st' = run :: Store.runs st /\
    QuizRun.totalQuestions run = Z.of_nat (length (ActiveQuizScreen.answers s)) /\
    QuizRun.correctCount run
    = Z.of_nat (length (List.filter QuizRunAnswer.isCorrect
                          (ActiveQuizScreen.answers s))) /\
    QuizRun.wrongCount run
    = Z.of_nat (length (ActiveQuizScreen.answers s))
      - Z.of_nat (length (List.filter QuizRunAnswer.isCorrect
                            (ActiveQuizScreen.answers s))) /\
    QuizRun.scorePercentage run
    = snd (ActiveQuizScreen.calculateIncompleteScore (ActiveQuizScreen.answers s)
             (Z.of_nat (length (ActiveQuizScreen.questions s)))) /\
    QuizRun.answers run = ActiveQuizScreen.answers s /\
    QuizRun.isIncomplete run = Some true.
Proof.
  intros Hmini. unfold ActiveQuizScreen.handleEndEarly.
  rewrite Hmini. simpl. eexists _, _. split; [reflexivity |].
  split; [| done].
  by destruct (ActiveQuizScreen.activePausedRunId s).
Qed.

(** A mini-run that is ended early writes nothing. *)
Lemma handleEndEarly_miniRun :
  ActiveQuizScreen.isMiniRun s = true ->
  ActiveQuizScreen.handleEndEarly newId now s st = (None, st).
Proof.
  intros Hmini. unfold ActiveQuizScreen.handleEndEarly. by rewrite Hmini.
Qed.

End EndEarly.

(** C4: ending a (non-practice) session early with at least one submitted
    answer records a run whose totalQuestions is the number of submitted
    answers, whose correctCount counts the submitted answers that are
    correct, whose wrongCount is their difference, whose scorePercentage is
    [(correctCount / totalQuestions) * 100] over those answers, and which is
    flagged incomplete. *)
Theorem handleEndEarly_scores_submitted_only (newId : string) (now : Z)
    (s : ActiveQuizScreen.Session) (st : Store.StoreState) :
  ActiveQuizScreen.isMiniRun s = false ->
  ActiveQuizScreen.answers s <> [] ->
  exists run st',
    ActiveQuizScreen.handleEndEarly newId now s st = (Some run, st') /\
    Store.runs st' = run :: Store.runs st /\
    QuizRun.totalQuestions run = Z.of_nat (length (ActiveQuizScreen.answers s)) /\
    QuizRun.correctCount run
    = Z.of_nat (length (List.filter QuizRunAnswer.isCorrect (ActiveQuizScreen.answers s))) /\
    QuizRun.wrongCount run = QuizRun.totalQuestions run - QuizRun.correctCount run /\
    0 <= QuizRun.correctCount run <= QuizRun.totalQuestions run /\
    QuizRun.scorePercentage run
    = PrimFloat.mul
        (PrimFloat.div (num_of_Z (QuizRun.correctCount run))
                       (num_of_Z (QuizRun.totalQuestions run)))
        100%float /\
    QuizRun.isIncomplete run = Some true.
Proof.
  intros Hmini Hne.
  destruct (handleEndEarly_run newId now s st Hmini)
    as (run & st' & Heq & Hruns & Htot & Hcor & Hwrong & Hscore & _ & Hinc).
  exists run, st'. rewrite Htot, Hcor.
  repeat split; try done.
  - lia.
  - apply inj_le, filter_length_le.
  - rewrite Hscore. unfold ActiveQuizScreen.calculateIncompleteScore. simpl.
    destruct (ActiveQuizScreen.answers s); [done |]. reflexivity.
Qed.

(** C10: with no submitted answer the score helper returns correctCount 0
    and scorePercentage 0 (the division is behind the length guard), and the
    incomplete run that is recorded has totalQuestions 0 and a
    scorePercentage of 0, which is not NaN. *)
Theorem handleEndEarly_without_answers (newId : string) (now : Z)
    (s : ActiveQuizScreen.Session) (st : Store.StoreState) :
  ActiveQuizScreen.isMiniRun s = false ->
  ActiveQuizScreen.answers s = [] ->
  ActiveQuizScreen.calculateIncompleteScore (ActiveQuizScreen.answers s)
    (Z.of_nat (length (ActiveQuizScreen.questions s))) = (0, 0%float) /\
  exists run st',
    ActiveQuizScreen.handleEndEarly newId now s st = (Some run, st') /\
    Store.runs st' = run :: Store.runs st /\
    QuizRun.totalQuestions run = 0 /\
    QuizRun.correctCount run = 0 /\
    QuizRun.wrongCount run = 0 /\
    QuizRun.scorePercentage run = 0%float /\
    PrimFloat.is_nan (QuizRun.scorePercentage run) = false /\
    QuizRun.isIncomplete run = Some true.
Proof.
  intros Hmini Hnil.
  destruct (handleEndEarly_run newId now s st Hmini)
    as (run & st' & Heq & Hruns & Htot & Hcor & Hwrong & Hscore & _ & Hinc).
  rewrite Hnil in *. simpl in *.
  split; [reflexivity |].
  exists run, st'. rewrite Hscore. by repeat split.
Qed.

(** Without the guard the same expression is NaN on the empty list: this
    is what [(correctCount / answers.length) * 100] evaluates to for 0/0. *)
Remark unguarded_score_of_nothing_is_nan :
  PrimFloat.is_nan
    (PrimFloat.mul (PrimFloat.div (num_of_Z 0) (num_of_Z 0)) 100%float) = true.
Proof. reflexivity. Qed.

(** ** Buying a freezer *)

(** [buyFreezer] does not look at the number of freezers: with the cap
    already reached and 100 diamonds it still sells one, so success is not
    equivalent to "balance at least 100 and fewer than 3 freezers". *)
Lemma buyFreezer_sells_above_cap :
  let st := storeWith (StreakData.mk 0 None 3 ∅) 100%float in
  fst (Store.buyFreezer st) = true /\
  StreakData.freezers (Store.streak (snd (Store.buyFreezer st))) = 4 /\
  Store.diamonds (snd (Store.buyFreezer st)) = 0%float /\
  ~ (fst (Store.buyFreezer st) = true <->
     num_ge (Store.diamonds st) 100 = true /\
     StreakData.freezers (Store.streak st) < 3).
Proof.
  simpl. repeat split; try reflexivity.
  intros [Hcap _]. destruct Hcap as [_ Hlt]; [reflexivity |]. vm_compute in Hlt. done.
Qed.

(** C2, as the code has it: [buyFreezer] succeeds exactly when the balance
    is at least 100, whatever the freezer count; on success it debits 100
    diamonds and adds one freezer, otherwise it returns false and changes
    nothing.  The cap of 3 is applied by the Streak screen, whose button is
    disabled from 3 freezers on, so a purchase made through the screen
    happens only below the cap. *)
Theorem buyFreezer_succeeds_iff_affordable (st : Store.StoreState) :
  (fst (Store.buyFreezer st) = true <-> num_ge (Store.diamonds st) 100 = true) /\
  (fst (Store.buyFreezer st) = true ->
   Store.diamonds (snd (Store.buyFreezer st)) = PrimFloat.sub (Store.diamonds st) 100 /\
   StreakData.freezers (Store.streak (snd (Store.buyFreezer st)))
   = StreakData.freezers (Store.streak st) + 1) /\
  (fst (Store.buyFreezer st) = false -> snd (Store.buyFreezer st) = st) /\
  (forall confirm,
     (3 <= StreakData.freezers (Store.streak st) ->
      StreakScreen.pressBuy confirm st = (StreakScreen.ButtonDisabled, st)) /\
     (fst (StreakScreen.pressBuy confirm st) = StreakScreen.Purchase true ->
      StreakData.freezers (Store.streak st) < 3 /\
      num_ge (Store.diamonds st) 100 = true /\
      snd (StreakScreen.pressBuy confirm st) = snd (Store.buyFreezer st))).
Proof.
  unfold StreakScreen.pressBuy, Store.buyFreezer.
  destruct (num_ge (Store.diamonds st) 100) eqn:Hge; simpl.
  - repeat split; try done.
    + intros Hcap. by rewrite (proj2 (Z.leb_le _ _) Hcap).
    + destruct (3 <=? _) eqn:Hcap; [done | by apply Z.leb_gt].
    + destruct (3 <=? _); [done |].
      destruct (num_lt _ _); [done |]. by destruct confirm.
  - repeat split; try done.
    + intros Hcap. by rewrite (proj2 (Z.leb_le _ _) Hcap).
    + destruct (3 <=? _) eqn:Hcap; [done | by apply Z.leb_gt].
    + destruct (3 <=? _); [done |].
      destruct (num_lt _ _); [done |]. by destruct confirm.
    + destruct (3 <=? _); [done |].
      destruct (num_lt _ _); [done |]. by destruct confirm.
Qed.

(** ** The gap check at start-up *)

Lemma msPerDay_pos : 0 < msPerDay.
Proof. reflexivity. Qed.

Lemma isoDay_addDays (t n : Z) : isoDay (addDays t n) = isoDay t + n.
Proof. unfold isoDay, addDays. by rewrite Z.div_add. Qed.

Lemma isoDay_dayStart (d : Z) : isoDay (dayStart d) = d.
Proof. unfold isoDay, dayStart. by rewrite Z.div_mul. Qed.

(** The number the source calls [diffDays], for a last completion [k] days
    before today: [k] at any instant that is not exactly UTC midnight (today
    is counted as missed), [k - 1] at UTC midnight. *)
Lemma diffDays_value (last now k : Z) :
  isoDay now = last + k -> 0 <= k ->
  ceilDiv (Z.abs (now - dayStart last)) msPerDay - 1 = countedDays now k.
Proof.
  intros Hday Hk. unfold isoDay in Hday. unfold ceilDiv, dayStart, countedDays.
  pose proof msPerDay_pos as Hpos.
  pose proof (Z.div_mod now msPerDay ltac:(lia)) as Hdm.
  pose proof (Z.mod_pos_bound now msPerDay Hpos) as Hr.
  set (r := now mod msPerDay) in *.
  assert (Hnow : now - last * msPerDay = k * msPerDay + r) by nia.
  rewrite Hnow, Z.abs_eq by nia.
  destruct (r =? 0) eqn:Hr0.
  - apply Z.eqb_eq in Hr0. rewrite Hr0, Z.add_0_r.
    replace (- (k * msPerDay)) with ((- k) * msPerDay) by lia.
    rewrite Z.div_mul by lia. lia.
  - apply Z.eqb_neq in Hr0.
    replace (- (k * msPerDay + r)) with ((msPerDay - r) + (- k - 1) * msPerDay) by lia.
    rewrite Z.div_add by lia. rewrite Z.div_small by lia. lia.
Qed.

(** The loop that marks days as freezed: after it, day [d] is freezed when
    it is one of the [n] days after [last], and as before otherwise. *)
Lemma freeze_loop_lookup (last : Z) (n : nat) (h : gmap Z StreakData.status) (d : Z) :
  fold_left
    (fun h i => <[isoDay (addDays (dayStart last) (Z.of_nat i)) := StreakData.freezed]> h)
    (seq 1 n) h !! d
  = if bool_decide (last < d <= last + Z.of_nat n) then Some StreakData.freezed
    else h !! d.
Proof.
  induction n as [| n IH].
  - simpl. case_bool_decide; [lia | done].
  - rewrite seq_S, fold_left_app. cbn [fold_left].
    change (1 + n)%nat with (S n).
    rewrite isoDay_addDays, isoDay_dayStart.
    destruct (decide (d = last + Z.of_nat (S n))) as [-> | Hne].
    + rewrite lookup_insert_eq. by rewrite bool_decide_eq_true_2 by lia.
    + rewrite lookup_insert_ne by lia. rewrite IH. clear IH.
      repeat case_bool_decide; try done; lia.
Qed.

Section GapCheck.

Variables (prev : StreakData.t) (now last k : Z).
Hypothesis Hlast : StreakData.lastCompletedDate prev = Some last.
Hypothesis Htoday : isoDay now = last + k.
Hypothesis Hgap : 2 <= k.

(** Enough freezers: [countedDays now k] of them are used, the days after
    [last] up to [last + countedDays now k] are marked, and the last
    completion becomes yesterday. *)
Lemma checkStreak_uses_freezers :
  countedDays now k <= StreakData.freezers prev ->
  let next := Store.checkStreak now prev in
  StreakData.currentStreak next = StreakData.currentStreak prev /\
  StreakData.freezers next = StreakData.freezers prev - countedDays now k /\
  StreakData.lastCompletedDate next = Some (isoDay now - 1) /\
  forall d, StreakData.history next !! d
            = if bool_decide (last < d <= last + countedDays now k)
              then Some StreakData.freezed
              else StreakData.history prev !! d.
Proof.
  intros Henough. unfold Store.checkStreak. cbv zeta. rewrite Hlast.
  rewrite isoDay_addDays, Htoday.
  rewrite !bool_decide_eq_false_2 by (intros [=]; lia).
  rewrite (diffDays_value last now k) by (done || lia). fold (countedDays now k).
  assert (Hpos : 0 < countedDays now k) by (unfold countedDays; destruct (_ =? 0); lia).
  rewrite (proj2 (Z.ltb_lt _ _)) by done.
  rewrite (proj2 (Z.leb_le _ _)) by done. simpl.
  repeat split; try done.
  intros d. rewrite freeze_loop_lookup. by rewrite Z2Nat.id by lia.
Qed.

(** Too few freezers: the streak is reset and nothing else changes. *)
Lemma checkStreak_resets :
  StreakData.freezers prev < countedDays now k ->
  Store.checkStreak now prev
  = StreakData.mk 0 (StreakData.lastCompletedDate prev)
      (StreakData.freezers prev) (StreakData.history prev).
Proof.
  intros Hfew. unfold Store.checkStreak. cbv zeta. rewrite Hlast.
  rewrite isoDay_addDays, Htoday.
  rewrite !bool_decide_eq_false_2 by (intros [=]; lia).
  rewrite (diffDays_value last now k) by (done || lia). fold (countedDays now k).
  assert (Hpos : 0 < countedDays now k) by (unfold countedDays; destruct (_ =? 0); lia).
  rewrite (proj2 (Z.ltb_lt _ _)) by done.
  by rewrite (proj2 (Z.leb_gt _ _)) by done.
Qed.

End GapCheck.

(** The scenario "last completion four days ago, five freezers": at every
    instant of the day other than UTC midnight the source's [diffDays] is 4,
    not 3, so four freezers are used and today is marked as freezed. *)
Lemma checkStreak_four_day_gap (prev : StreakData.t) (now last : Z) :
  StreakData.lastCompletedDate prev = Some last ->
  isoDay now = last + 4 ->
  now mod msPerDay <> 0 ->
  StreakData.freezers prev = 5 ->
  let next := Store.checkStreak now prev in
  StreakData.currentStreak next = StreakData.currentStreak prev /\
  StreakData.freezers next = 1 /\
  StreakData.lastCompletedDate next = Some (isoDay now - 1) /\
  StreakData.history next !! isoDay now = Some StreakData.freezed /\
  forall d, StreakData.history next !! d
            = if bool_decide (last < d <= isoDay now) then Some StreakData.freezed
              else StreakData.history prev !! d.
Proof.
  intros Hlast Htoday Hnoon Hfreezers. apply Z.eqb_neq in Hnoon.
  destruct (checkStreak_uses_freezers prev now last 4 Hlast Htoday ltac:(lia))
    as (Hstreak & Hfr & Hdate & Hhist).
  { unfold countedDays. rewrite Hnoon. lia. }
  unfold countedDays in *. rewrite Hnoon in *. cbv zeta.
  rewrite Hfr, Hfreezers, Hdate, Htoday.
  repeat split; try done.
  rewrite Hhist. by rewrite bool_decide_eq_true_2 by lia.
Qed.

(** With a single freezer the streak is reset, at any time of day, and the
    freezer, the last completion and the history stay as they are. *)
Lemma checkStreak_four_day_gap_one_freezer (prev : StreakData.t) (now last : Z) :
  StreakData.lastCompletedDate prev = Some last ->
  isoDay now = last + 4 ->
  StreakData.freezers prev = 1 ->
  Store.checkStreak now prev
  = StreakData.mk 0 (Some last) 1 (StreakData.history prev).
Proof.
  intros Hlast Htoday Hfreezers.
  rewrite (checkStreak_resets prev now last 4 Hlast Htoday ltac:(lia)).
  - by rewrite Hlast, Hfreezers.
  - unfold countedDays. destruct (_ =? 0); lia.
Qed.

(** At exactly UTC midnight the same scenario consumes 3 freezers and marks
    the 3 days strictly between the last completion and today. *)
Lemma checkStreak_four_day_gap_at_midnight (prev : StreakData.t) (now last : Z) :
  StreakData.lastCompletedDate prev = Some last ->
  isoDay now = last + 4 ->
  now mod msPerDay = 0 ->
  StreakData.freezers prev = 5 ->
  let next := Store.checkStreak now prev in
  StreakData.currentStreak next = StreakData.currentStreak prev /\
  StreakData.freezers next = 2 /\
  StreakData.lastCompletedDate next = Some (isoDay now - 1) /\
  forall d, StreakData.history next !! d
            = if bool_decide (last < d < isoDay now) then Some StreakData.freezed
              else StreakData.history prev !! d.
Proof.
  intros Hlast Htoday Hmid Hfreezers. apply Z.eqb_eq in Hmid.
  destruct (checkStreak_uses_freezers prev now last 4 Hlast Htoday ltac:(lia))
    as (Hstreak & Hfr & Hdate & Hhist).
  { unfold countedDays. rewrite Hmid. lia. }
  unfold countedDays in *. rewrite Hmid in *. cbv zeta.
  rewrite Hfr, Hfreezers, Hdate, Htoday.
  repeat split; try done.
  intros d. rewrite Hhist. repeat case_bool_decide; try done; lia.
Qed.

(** C1, evaluated: the last completion was on day 20000, it is noon of day
    20004 and there are 5 freezers.  The gap check uses 4 freezers (1 is
    left, not 2) and marks 4 days as freezed, today included; the streak
    count is kept and the last completion becomes yesterday.  With a single
    freezer the streak is reset and nothing else changes. *)
Theorem checkStreak_four_days_ago_at_noon :
  let history0 : gmap Z StreakData.status := {[20000 := StreakData.completed]} in
  let now := noonOf 20004 in
  let next := Store.checkStreak now (StreakData.mk 7 (Some 20000) 5 history0) in
  isoDay now = 20004 /\
  StreakData.currentStreak next = 7 /\
  StreakData.freezers next = 1 /\
  StreakData.lastCompletedDate next = Some 20003 /\
  StreakData.history next !! 20001 = Some StreakData.freezed /\
  StreakData.history next !! 20002 = Some StreakData.freezed /\
  StreakData.history next !! 20003 = Some StreakData.freezed /\
  StreakData.history next !! 20004 = Some StreakData.freezed /\
  size (filter (fun kv => kv.2 = StreakData.freezed) (StreakData.history next)) = 4%nat /\
  Store.checkStreak now (StreakData.mk 7 (Some 20000) 1 history0)
  = StreakData.mk 0 (Some 20000) 1 history0.
Proof. vm_compute. repeat split. Qed.

(** ** Selecting and submitting answers *)

(** Selections are kept free of repetitions by the toggle. *)
Lemma toggle_NoDup (answerId : string) (prev : list string) :
  NoDup prev -> NoDup (ActiveQuizScreen.toggle answerId prev).
Proof.
  intros Hnd. unfold ActiveQuizScreen.toggle.
  destruct (ActiveQuizScreen.includes answerId prev) eqn:Hinc.
  - by apply NoDup_ListNoDup, List.NoDup_filter, NoDup_ListNoDup.
  - apply NoDup_app. repeat split; [done | | apply NoDup_singleton].
    intros x Hx Hx'. apply list_elem_of_singleton in Hx'. subst x.
    apply list_elem_of_In, includes_In in Hx. congruence.
Qed.

Lemma NoDup_map_filter {A B} (f : A -> B) (p : A -> bool) (l : list A) :
  NoDup (map f l) -> NoDup (map f (List.filter p l)).
Proof.
  induction l as [| x l IH]; simpl; [done |].
  intros Hnd. apply NoDup_cons in Hnd as [Hx Hl].
  destruct (p x); simpl; [| by apply IH].
  apply NoDup_cons. split; [| by apply IH].
  intros Hin. apply Hx.
  apply list_elem_of_In, in_map_iff in Hin as (y & Hy & Hin).
  apply filter_In in Hin as [Hin _].
  apply list_elem_of_In, in_map_iff. by exists y.
Qed.

(** Distinct answer ids give distinct correct ids. *)
Lemma correctIds_NoDup (q : Question.t) :
  NoDup (map Answer.id (Question.answers q)) ->
  NoDup (ActiveQuizScreen.correctIds q).
Proof. apply NoDup_map_filter. Qed.

(** The length-and-inclusion test of the source decides set equality of two
    repetition-free id lists. *)
Lemma selectionIsCorrect_iff (selected : list string) (q : Question.t) :
  NoDup selected ->
  NoDup (ActiveQuizScreen.correctIds q) ->
  ActiveQuizScreen.selectionIsCorrect selected q = true <->
  (forall id, In id selected <-> In id (ActiveQuizScreen.correctIds q)).
Proof.
  intros Hsel Hcor. unfold ActiveQuizScreen.selectionIsCorrect.
  rewrite andb_true_iff, Nat.eqb_eq, forallb_forall.
  apply base.NoDup_ListNoDup in Hsel, Hcor.
  split.
  - intros [Hlen Hincl] id.
    assert (Hsub : incl selected (ActiveQuizScreen.correctIds q)).
    { intros x Hx. by apply includes_In, Hincl. }
    split; [apply Hsub |].
    apply (List.NoDup_length_incl Hsel); [lia | done].
  - intros Heq. split.
    + apply Nat.le_antisymm; apply List.NoDup_incl_length; try done;
        intros x Hx; by apply Heq.
    + intros x Hx. by apply includes_In, Heq.
Qed.

Lemma appendAnswer_present (a : QuizRunAnswer.t) (prev : list QuizRunAnswer.t) :
  (exists x, In x prev /\ QuizRunAnswer.questionId x = QuizRunAnswer.questionId a) ->
  ActiveQuizScreen.appendAnswer a prev = prev.
Proof.
  intros (x & Hin & Heq). unfold ActiveQuizScreen.appendAnswer.
  assert (Hex : existsb (fun x => String.eqb (QuizRunAnswer.questionId x)
                                             (QuizRunAnswer.questionId a)) prev = true).
  { apply existsb_exists. exists x. split; [done | by apply String.eqb_eq]. }
  by rewrite Hex.
Qed.


Lemma appendAnswer_twice (a : QuizRunAnswer.t) (prev : list QuizRunAnswer.t) :
  ActiveQuizScreen.appendAnswer a (ActiveQuizScreen.appendAnswer a prev)
  = ActiveQuizScreen.appendAnswer a prev.
Proof.
  apply appendAnswer_present. unfold ActiveQuizScreen.appendAnswer.
  destruct (existsb _ prev) eqn:Hex.
  - apply existsb_exists in Hex as (x & Hin & Heq). apply String.eqb_eq in Heq.
    by exists x.
  - exists a. split; [| done]. apply in_app_iff. right. by left.
Qed.

Lemma appendAnswer_unique (a : QuizRunAnswer.t) (prev : list QuizRunAnswer.t) :
  NoDup (map QuizRunAnswer.questionId prev) ->
  NoDup (map QuizRunAnswer.questionId (ActiveQuizScreen.appendAnswer a prev)).
Proof.
  intros Hnd. unfold ActiveQuizScreen.appendAnswer.
  destruct (existsb _ prev) eqn:Hex; [done |].
  rewrite map_app. apply NoDup_app. repeat split; [done | | apply NoDup_singleton].
  intros id Hid Hid'. apply list_elem_of_singleton in Hid'. subst id.
  apply list_elem_of_In, in_map_iff in Hid as (x & Heq & Hin).
  assert (Hex' : existsb (fun x => String.eqb (QuizRunAnswer.questionId x)
                                              (QuizRunAnswer.questionId a)) prev = true).
  { apply existsb_exists. exists x. split; [done | by apply String.eqb_eq]. }
  congruence.
Qed.

(** What [handleSubmit] does to the answer list of a session with a
    non-empty selection on question [q]. *)
Lemma handleSubmit_answers (s : ActiveQuizScreen.Session) (q : Question.t) :
  ActiveQuizScreen.questions s !! ActiveQuizScreen.currentIndex s = Some q ->
  ActiveQuizScreen.selectedAnswerIds s <> [] ->
  ActiveQuizScreen.answers (ActiveQuizScreen.handleSubmit s)
  = ActiveQuizScreen.appendAnswer
      (ActiveQuizScreen.newAnswer (ActiveQuizScreen.selectedAnswerIds s) q)
      (ActiveQuizScreen.answers s).
Proof.
  intros Hq Hsel. unfold ActiveQuizScreen.handleSubmit. rewrite Hq.
  by destruct (ActiveQuizScreen.selectedAnswerIds s).
Qed.

Lemma handleSubmit_blocked (s : ActiveQuizScreen.Session) :
  ActiveQuizScreen.selectedAnswerIds s = [] ->
  ActiveQuizScreen.handleSubmit s = s.
Proof. intros Hsel. unfold ActiveQuizScreen.handleSubmit. by rewrite Hsel. Qed.



(** The three wrong selections of the specification's example. *)
Example selection_A_is_wrong :
  ActiveQuizScreen.selectionIsCorrect ["A"] questionAB = false.
Proof. reflexivity. Qed.

Example selection_ABC_is_wrong :
  ActiveQuizScreen.selectionIsCorrect ["A"; "B"; "C"] questionAB = false.
Proof. reflexivity. Qed.

Example empty_selection_records_nothing :
  ActiveQuizScreen.handleSubmit (sessionOn [] []) = sessionOn [] [].
Proof. reflexivity. Qed.

(** ** Invariants of a running session *)

Lemma handleSubmit_uniqueAnswers (s : ActiveQuizScreen.Session) :
  uniqueAnswers s -> uniqueAnswers (ActiveQuizScreen.handleSubmit s).
Proof.
  unfold uniqueAnswers, ActiveQuizScreen.handleSubmit. intros Hnd.
  destruct (ActiveQuizScreen.selectedAnswerIds s); [done |].
  destruct (ActiveQuizScreen.questions s !! ActiveQuizScreen.currentIndex s); [| done].
  by apply appendAnswer_unique.
Qed.

Lemma step_uniqueAnswers (s s' : ActiveQuizScreen.Session) :
  ActiveQuizScreen.step s s' -> uniqueAnswers s -> uniqueAnswers s'.
Proof.
  intros Hstep Hnd. inversion Hstep; subst.
  - unfold uniqueAnswers, ActiveQuizScreen.handleAnswerSelect.
    by destruct (ActiveQuizScreen.isSubmitted s).
  - by apply handleSubmit_uniqueAnswers.
  - done.
Qed.

Lemma step_selection_NoDup (s s' : ActiveQuizScreen.Session) :
  ActiveQuizScreen.step s s' ->
  NoDup (ActiveQuizScreen.selectedAnswerIds s) ->
  NoDup (ActiveQuizScreen.selectedAnswerIds s').
Proof.
  intros Hstep Hnd. inversion Hstep; subst.
  - unfold ActiveQuizScreen.handleAnswerSelect.
    destruct (ActiveQuizScreen.isSubmitted s); [done |]. by apply toggle_NoDup.
  - unfold ActiveQuizScreen.handleSubmit.
    destruct (ActiveQuizScreen.selectedAnswerIds s) eqn:Hsel; [by rewrite Hsel |].
    destruct (ActiveQuizScreen.questions s !! ActiveQuizScreen.currentIndex s);
      simpl; by rewrite ?Hsel.
  - apply NoDup_nil_2.
Qed.

(** The two invariants are kept along any run of the session. *)
Lemma run_keeps_invariants (s0 s : ActiveQuizScreen.Session) :
  rtc ActiveQuizScreen.step s0 s ->
  NoDup (ActiveQuizScreen.selectedAnswerIds s0) /\ uniqueAnswers s0 ->
  NoDup (ActiveQuizScreen.selectedAnswerIds s) /\ uniqueAnswers s.
Proof.
  induction 1 as [s | s1 s2 s3 Hstep _ IH]; [done |].
  intros [Hsel Hans]. apply IH. split.
  - by apply (step_selection_NoDup s1 s2).
  - by apply (step_uniqueAnswers s1 s2).
Qed.

(** Every session reached from a fresh start has a repetition-free
    selection and at most one answer per question. *)
Lemma reachable_invariants (s0 s : ActiveQuizScreen.Session) :
  ActiveQuizScreen.fresh s0 ->
  rtc ActiveQuizScreen.step s0 s ->
  NoDup (ActiveQuizScreen.selectedAnswerIds s) /\ uniqueAnswers s.
Proof.
  intros (_ & Hsel & _ & Hans) Hrtc.
  apply (run_keeps_invariants s0 s Hrtc).
  unfold uniqueAnswers. rewrite Hsel, Hans. split; apply NoDup_nil_2.
Qed.

(** C9: when the answer list already has an entry for the current question,
    [handleSubmit] leaves the list as it is; submitting the same state a
    second time adds nothing; and along any run of the session that starts
    with at most one answer per question (a fresh session in particular),
    the answer list never holds two entries with the same questionId. *)
Theorem handleSubmit_appends_at_most_once (s : ActiveQuizScreen.Session) :
  (forall q,
     ActiveQuizScreen.questions s !! ActiveQuizScreen.currentIndex s = Some q ->
     In (Question.id q) (map QuizRunAnswer.questionId (ActiveQuizScreen.answers s)) ->
     ActiveQuizScreen.answers (ActiveQuizScreen.handleSubmit s)
     = ActiveQuizScreen.answers s) /\
  ActiveQuizScreen.answers (ActiveQuizScreen.handleSubmit (ActiveQuizScreen.handleSubmit s))
  = ActiveQuizScreen.answers (ActiveQuizScreen.handleSubmit s) /\
  (forall s0,
     NoDup (map QuizRunAnswer.questionId (ActiveQuizScreen.answers s0)) ->
     rtc ActiveQuizScreen.step s0 s ->
     NoDup (map QuizRunAnswer.questionId (ActiveQuizScreen.answers s))).
Proof.
  split; [| split].
  - intros q Hq Hin.
    destruct (ActiveQuizScreen.selectedAnswerIds s) eqn:Hsel.
    + by rewrite handleSubmit_blocked.
    + rewrite (handleSubmit_answers s q Hq) by (by rewrite Hsel).
      apply appendAnswer_present.
      apply in_map_iff in Hin as (x & Heq & Hin). by exists x.
  - destruct (ActiveQuizScreen.selectedAnswerIds s) eqn:Hsel.
    + by rewrite !(handleSubmit_blocked s Hsel).
    + destruct (ActiveQuizScreen.questions s !! ActiveQuizScreen.currentIndex s)
        as [q |] eqn:Hq.
      * assert (Hsame : ActiveQuizScreen.handleSubmit s
                        = ActiveQuizScreen.mk
                            (ActiveQuizScreen.testId s) (ActiveQuizScreen.quizTitle s)
                            (ActiveQuizScreen.questions s) (ActiveQuizScreen.isMiniRun s)
                            (ActiveQuizScreen.activePausedRunId s)
                            (ActiveQuizScreen.currentIndex s)
                            (ActiveQuizScreen.selectedAnswerIds s) true
                            (ActiveQuizScreen.appendAnswer
                               (ActiveQuizScreen.newAnswer
                                  (ActiveQuizScreen.selectedAnswerIds s) q)
                               (ActiveQuizScreen.answers s))).
        { unfold ActiveQuizScreen.handleSubmit. by rewrite Hq, Hsel. }
        rewrite Hsame at 1.
        rewrite (handleSubmit_answers _ q) by (simpl; by rewrite ?Hsel).
        simpl. rewrite (handleSubmit_answers s q Hq) by (by rewrite Hsel).
        apply appendAnswer_twice.
      * assert (Hsame : ActiveQuizScreen.handleSubmit s = s).
        { unfold ActiveQuizScreen.handleSubmit. by rewrite Hq, Hsel. }
        by rewrite !Hsame.
  - intros s0 Hnd Hrtc. revert Hnd.
    induction Hrtc as [s | s1 s2 s3 Hstep _ IH]; [done |].
    intros Hnd. by apply IH, (step_uniqueAnswers s1 s2).
Qed.

(** ** Reordering questions *)

(** After a deletion the order indices have a gap; reordering with the ids
    in their current presentation order renumbers the questions, so the
    order index of the last question changes from 2 to 1. *)
Lemma reorderQuestions_renumbers_after_delete :
  orderOf "quiz1" afterDelete = [("a", 0); ("c", 2)] /\
  presentedIdsOf "quiz1" afterDelete = ["a"; "c"] /\
  orderOf "quiz1"
    (Store.reorderQuestions "quiz1" (presentedIdsOf "quiz1" afterDelete) 5 afterDelete)
  = [("a", 0); ("c", 1)] /\
  orderOf "quiz1"
    (Store.reorderQuestions "quiz1" (presentedIdsOf "quiz1" afterDelete) 5 afterDelete)
  <> orderOf "quiz1" afterDelete.
Proof. vm_compute. repeat split. discriminate. Qed.

Lemma insertSorted_perm (q : Question.t) (l : list Question.t) :
  TestEditorScreen.insertSorted q l ≡ₚ q :: l.
Proof.
  induction l as [| x l IH]; simpl; [done |].
  destruct (Question.orderIndex q <=? Question.orderIndex x); [done |].
  rewrite IH. apply Permutation_swap.
Qed.

Lemma sortedQuestions_perm (l : list Question.t) :
  TestEditorScreen.sortedQuestions l ≡ₚ l.
Proof.
  induction l as [| x l IH]; simpl; [done |].
  unfold TestEditorScreen.sortedQuestions in *. simpl.
  by rewrite insertSorted_perm, IH.
Qed.

Lemma sortedQuestions_In (l : list Question.t) (x : Question.t) :
  In x (TestEditorScreen.sortedQuestions l) <-> In x l.
Proof.
  rewrite <- !list_elem_of_In. by rewrite sortedQuestions_perm.
Qed.

(** [find] by id returns some question with that id when one exists, and
    the question itself when ids are distinct. *)
Lemma find_by_id_some (qs : list Question.t) (x : Question.t) :
  In x qs ->
  is_Some (List.find (fun qn => String.eqb (Question.id qn) (Question.id x)) qs).
Proof.
  induction qs as [| y qs IH]; simpl; [done |].
  intros [-> | Hin].
  - by rewrite String.eqb_refl.
  - destruct (String.eqb _ _); [done | by apply IH].
Qed.

Lemma find_by_id_unique (qs : list Question.t) (x : Question.t) :
  NoDup (map Question.id qs) ->
  In x qs ->
  List.find (fun qn => String.eqb (Question.id qn) (Question.id x)) qs = Some x.
Proof.
  induction qs as [| y qs IH]; simpl; [done |].
  intros Hnd [-> | Hin].
  - by rewrite String.eqb_refl.
  - apply NoDup_cons in Hnd as [Hy Hnd].
    destruct (String.eqb _ _) eqn:Heq; [| by apply IH].
    apply String.eqb_eq in Heq. exfalso. apply Hy.
    apply list_elem_of_In, in_map_iff. by exists x.
Qed.

(** The result of [reordered] on the ids of a list [l] of questions that
    [find] returns unchanged: [l] itself, renumbered by position.  The index
    function [k] generalises [Z.of_nat] for the induction. *)
Lemma reordered_found (k : nat -> Z) (qs l : list Question.t) :
  (forall x, In x l ->
     List.find (fun qn => String.eqb (Question.id qn) (Question.id x)) qs = Some x) ->
  omap (fun x => x)
    (imap (fun index id =>
             match List.find (fun qn => String.eqb (Question.id qn) id) qs with
             | Some question => Some (Question.with_orderIndex question (k index))
             | None => None
             end)
          (map Question.id l))
  = imap (fun index x => Question.with_orderIndex x (k index)) l.
Proof.
  revert k. induction l as [| x l IH]; intros k Hfind; [done |].
  simpl. rewrite (Hfind x) by (by left). f_equal.
  apply (IH (fun i => k (S i))). intros y Hy. apply Hfind. by right.
Qed.

(** Without distinct ids the questions found may differ, but their order
    indices are the positions all the same. *)
Lemma reordered_orderIndex (k : nat -> Z) (qs l : list Question.t) :
  (forall x, In x l ->
     is_Some (List.find (fun qn => String.eqb (Question.id qn) (Question.id x)) qs)) ->
  map Question.orderIndex
    (omap (fun x => x)
       (imap (fun index id =>
                match List.find (fun qn => String.eqb (Question.id qn) id) qs with
                | Some question => Some (Question.with_orderIndex question (k index))
                | None => None
                end)
             (map Question.id l)))
  = imap (fun index _ => k index) l.
Proof.
  revert k. induction l as [| x l IH]; intros k Hfind; [done |].
  simpl. destruct (Hfind x) as [y Hy]; [by left |]. rewrite Hy. simpl. f_equal.
  apply (IH (fun i => k (S i))). intros z Hz. apply Hfind. by right.
Qed.

Lemma renumber_indexedByPosition (l : list Question.t) :
  indexedByPosition l ->
  imap (fun index x => Question.with_orderIndex x (Z.of_nat index)) l = l.
Proof.
  intros Hpos. apply list_eq. intros i. rewrite list_lookup_imap.
  destruct (l !! i) as [q |] eqn:Hq; [| done]. simpl.
  rewrite <- (Hpos i q Hq). by rewrite with_orderIndex_same.
Qed.

Lemma orderIndex_indexedByPosition (l : list Question.t) :
  indexedByPosition l ->
  map Question.orderIndex l = imap (fun index _ => Z.of_nat index) l.
Proof.
  intros Hpos. apply list_eq. intros i.
  rewrite list_lookup_fmap, list_lookup_imap.
  destruct (l !! i) as [q |] eqn:Hq; [| done]. simpl. by rewrite (Hpos i q Hq).
Qed.

(** [getQuiz] after an update of the quizzes with a given id that keeps
    their id: the update of what [getQuiz] returned before. *)
Lemma getQuiz_updated (quizId : string) (f : Quiz.t -> Quiz.t) (st : Store.StoreState) :
  (forall q, Quiz.id (f q) = Quiz.id q) ->
  Store.getQuiz quizId
    (Store.with_quizzes st
       (map (fun q => if String.eqb (Quiz.id q) quizId then f q else q)
            (Store.quizzes st)))
  = f <$> Store.getQuiz quizId st.
Proof.
  intros Hid. unfold Store.getQuiz. simpl.
  induction (Store.quizzes st) as [| q l IH]; simpl; [done |].
  destruct (String.eqb (Quiz.id q) quizId) eqn:Heq.
  - by rewrite Hid, Heq.
  - by rewrite Heq.
Qed.

(** The questions of a quiz after [reorderQuestions] with the ids of a list
    [l] of its questions. *)
Lemma reordered_orderIndex_positions (qs l : list Question.t) :
  (forall x, In x l -> In x qs) ->
  map Question.orderIndex (Store.reordered (map Question.id l) qs)
  = imap (fun index _ => Z.of_nat index) l.
Proof.
  intros Hin. unfold Store.reordered. apply (reordered_orderIndex Z.of_nat).
  intros x Hx. by apply find_by_id_some, Hin.
Qed.

(** Reordering in presentation order keeps the order indices only if they
    already are the positions. *)
Lemma reordered_same_only_if_positions (qs : list Question.t) :
  map Question.orderIndex
    (Store.reordered (TestEditorScreen.presentedIds qs) qs)
  = map Question.orderIndex (TestEditorScreen.sortedQuestions qs) ->
  indexedByPosition (TestEditorScreen.sortedQuestions qs).
Proof.
  unfold TestEditorScreen.presentedIds.
  rewrite reordered_orderIndex_positions by (intros x; apply sortedQuestions_In).
  intros Heq i q Hq.
  assert (Hi : imap (fun index _ => Z.of_nat index) (TestEditorScreen.sortedQuestions qs) !! i
               = map Question.orderIndex (TestEditorScreen.sortedQuestions qs) !! i)
    by (by rewrite Heq).
  rewrite list_lookup_imap, list_lookup_fmap, Hq in Hi. simpl in Hi. congruence.
Qed.

(** C5, as the code has it: when the order indices of a quiz, read in
    presentation order, are the positions 0, 1, 2, ... (no gap and no
    repetition), [reorderQuestions] with the ids in presentation order
    leaves the sequence of order indices as it is; and when the question ids
    are distinct, the quiz then holds exactly the same questions, each with
    its order index unchanged, stored in presentation order. *)
Theorem reorderQuestions_in_current_order (quizId : string) (now : Z)
    (st : Store.StoreState) (quiz : Quiz.t) :
  Store.getQuiz quizId st = Some quiz ->
  indexedByPosition (TestEditorScreen.sortedQuestions (Quiz.questions quiz)) ->
  exists quiz',
    Store.getQuiz quizId
      (Store.reorderQuestions quizId
         (TestEditorScreen.presentedIds (Quiz.questions quiz)) now st)
    = Some quiz' /\
    map Question.orderIndex (Quiz.questions quiz')
    = map Question.orderIndex (TestEditorScreen.sortedQuestions (Quiz.questions quiz)) /\
    (NoDup (map Question.id (Quiz.questions quiz)) ->
     Quiz.questions quiz' = TestEditorScreen.sortedQuestions (Quiz.questions quiz) /\
     forall qn, In qn (Quiz.questions quiz') <-> In qn (Quiz.questions quiz)).
Proof.
  intros Hget Hpos.
  exists (Store.reorderQuestions_quiz
            (TestEditorScreen.presentedIds (Quiz.questions quiz)) now quiz).
  split.
  { unfold Store.reorderQuestions. rewrite getQuiz_updated by done. by rewrite Hget. }
  simpl. unfold TestEditorScreen.presentedIds. split.
  - rewrite reordered_orderIndex_positions by (intros x; apply sortedQuestions_In).
    by rewrite orderIndex_indexedByPosition.
  - intros Hnd.
    assert (Heq : Store.reordered
                    (map Question.id (TestEditorScreen.sortedQuestions (Quiz.questions quiz)))
                    (Quiz.questions quiz)
                  = TestEditorScreen.sortedQuestions (Quiz.questions quiz)).
    { unfold Store.reordered. rewrite (reordered_found Z.of_nat).
      - by apply renumber_indexedByPosition.
      - intros x Hx. apply find_by_id_unique; [done |]. by apply sortedQuestions_In. }
    rewrite Heq. split; [done |]. intros qn. apply sortedQuestions_In.
Qed.

Lemma reorderQuestions_in_current_order_witness :
  let st := Store.with_quizzes initialState [quizStoredBackwards] in
  orderOf "quiz1" st = [("b", 1); ("a", 0)] /\
  presentedIdsOf "quiz1" st = ["a"; "b"] /\
  exists quiz',
    Store.getQuiz "quiz1"
      (Store.reorderQuestions "quiz1" (presentedIdsOf "quiz1" st) 7 st) = Some quiz' /\
    map Question.orderIndex (Quiz.questions quiz') = [0; 1] /\
    Quiz.questions quiz'
    = TestEditorScreen.sortedQuestions (Quiz.questions quizStoredBackwards).
Proof.
  intros st.
  assert (Hget : Store.getQuiz "quiz1" st = Some quizStoredBackwards) by reflexivity.
  assert (Hpos : indexedByPosition
                   (TestEditorScreen.sortedQuestions (Quiz.questions quizStoredBackwards))).
  { intros [| [| i]] q Hq; vm_compute in Hq; inversion Hq; reflexivity. }
  assert (Hnd : NoDup (map Question.id (Quiz.questions quizStoredBackwards))).
  { apply (bool_decide_unpack _). vm_compute. exact I. }
  destruct (reorderQuestions_in_current_order "quiz1" 7 st quizStoredBackwards Hget Hpos)
    as (quiz' & Hget' & Hidx & Hsame).
  split; [reflexivity |].
  split; [reflexivity |].
  exists quiz'. split; [exact Hget' |].
  split; [exact Hidx | exact (proj1 (Hsame Hnd))].
Defined.

(** ** Ending early, on the sample session *)

Lemma handleEndEarly_scores_submitted_only_witness :
  exists run st',
    ActiveQuizScreen.handleEndEarly "run1" (noonOf 20000) (sessionAt 4 fourSubmitted)
      initialState = (Some run, st') /\
    length (ActiveQuizScreen.questions (sessionAt 4 fourSubmitted)) = 5%nat /\
    QuizRun.totalQuestions run = 4 /\
    QuizRun.correctCount run = 3 /\
    QuizRun.wrongCount run = 1 /\
    QuizRun.scorePercentage run = 75%float /\
    QuizRun.isIncomplete run = Some true.
Proof.
  destruct (handleEndEarly_scores_submitted_only "run1" (noonOf 20000)
              (sessionAt 4 fourSubmitted) initialState)
    as (run & st' & Heq & _ & Htot & Hcor & Hwrong & _ & Hscore & Hinc);
    [reflexivity | discriminate |].
  exists run, st'. rewrite Hscore, Hwrong, Hcor, Htot.
  repeat split; [exact Heq | exact Hinc].
Defined.

Lemma handleEndEarly_without_answers_witness :
  exists run st',
    ActiveQuizScreen.handleEndEarly "run1" (noonOf 20000) (sessionAt 0 [])
      initialState = (Some run, st') /\
    QuizRun.totalQuestions run = 0 /\
    QuizRun.scorePercentage run = 0%float /\
    QuizRun.diamondsEarned run = Some 0%float.
Proof.
  destruct (handleEndEarly_without_answers "run1" (noonOf 20000)
              (sessionAt 0 []) initialState)
    as (_ & run & st' & Heq & _ & Htot & _ & _ & Hscore & _);
    [reflexivity | reflexivity |].
  exists run, st'. repeat split; try done.
  injection Heq as <- _. reflexivity.
Defined.

(** Submitting twice on the same state keeps a single answer. *)
Example resubmission_keeps_one_answer :
  ActiveQuizScreen.answers
    (ActiveQuizScreen.handleSubmit (ActiveQuizScreen.handleSubmit (sessionOn ["A"; "B"] [])))
  = [QuizRunAnswer.mk "q1" ["A"; "B"] true].
Proof. reflexivity. Qed.

(** For every session of up to 150 submitted answers, whatever the number of
    correct ones, the score that ending early computes differs from
    [100 * correctCount / totalQuestions] by less than 2^-44 (the two
    evaluation orders round differently in the last place). *)
Remark score_agrees_with_formula_up_to_150_answers :
  forallb
    (fun total =>
       forallb
         (fun correct =>
            sameUpTo 0x1p-44%float
              (snd (ActiveQuizScreen.calculateIncompleteScore
                      (answersWith correct total) 0))
              (specScorePercentage (Z.of_nat correct) (Z.of_nat total)))
         (seq 0 (S total)))
    (seq 1 150)
  = true.
Proof. vm_compute. reflexivity. Qed.

(** * Further properties of the store *)

(** ** Sorting by order index *)

Lemma insertSorted_ascending (q : Question.t) (l : list Question.t) :
  ascending l -> ascending (TestEditorScreen.insertSorted q l).
Proof.
  unfold ascending. induction l as [| x l IH]; simpl; intros Hs.
  - constructor; [constructor | constructor].
  - apply StronglySorted_inv in Hs as [Hl Hx].
    destruct (Question.orderIndex q <=? Question.orderIndex x) eqn:Hle.
    + apply Z.leb_le in Hle. constructor; [by constructor |].
      constructor; [done |].
      eapply List.Forall_impl; [| exact Hx]. simpl. intros a Ha. lia.
    + apply Z.leb_gt in Hle. constructor; [by apply IH |].
      assert (Hperm : TestEditorScreen.insertSorted q l ≡ₚ q :: l)
        by apply insertSorted_perm.
      apply List.Forall_forall. intros a Ha.
      apply list_elem_of_In in Ha. rewrite Hperm in Ha.
      apply elem_of_cons in Ha as [-> | Ha]; [lia |].
      apply list_elem_of_In in Ha.
      by apply (proj1 (List.Forall_forall _ _) Hx).
Qed.

Lemma sortedQuestions_ascending (l : list Question.t) :
  ascending (TestEditorScreen.sortedQuestions l).
Proof.
  induction l as [| x l IH]; [constructor |].
  by apply insertSorted_ascending.
Qed.

Lemma insertSorted_head (q : Question.t) (l : list Question.t) :
  ascending (q :: l) -> TestEditorScreen.insertSorted q l = q :: l.
Proof.
  intros Hs. apply StronglySorted_inv in Hs as [_ Hq].
  destruct l as [| x l]; [done |]. simpl.
  apply List.Forall_inv in Hq. by rewrite (proj2 (Z.leb_le _ _) Hq).
Qed.

(** Sorting a sorted list changes nothing. *)
Lemma sortedQuestions_of_ascending (l : list Question.t) :
  ascending l -> TestEditorScreen.sortedQuestions l = l.
Proof.
  induction l as [| x l IH]; [done |]. intros Hs.
  pose proof Hs as Hs'. apply StronglySorted_inv in Hs' as [Hl _].
  unfold TestEditorScreen.sortedQuestions in *. simpl.
  rewrite IH by done. by apply insertSorted_head.
Qed.

Lemma indexedByPosition_ascending (l : list Question.t) :
  indexedByPosition l -> ascending l.
Proof.
  unfold ascending.
  assert (Hgen : forall (l : list Question.t) (k : Z),
             (forall i q, l !! i = Some q -> Question.orderIndex q = k + Z.of_nat i) ->
             StronglySorted (fun a b => Question.orderIndex a <= Question.orderIndex b) l).
  { clear l. induction l as [| x l IH]; intros k Hpos; [constructor |].
    constructor.
    - apply (IH (k + 1)). intros i q Hq. rewrite (Hpos (S i) q Hq). lia.
    - apply List.Forall_forall. intros a Ha.
      apply list_elem_of_In, list_elem_of_lookup in Ha as [i Hi].
      rewrite (Hpos 0%nat x eq_refl), (Hpos (S i) a Hi). lia. }
  intros Hpos. apply (Hgen l 0). intros i q Hq. rewrite (Hpos i q Hq). lia.
Qed.

(** ** Reordering with any list of ids *)

Lemma reorderedBy_cons (k : nat -> Z) (id : string) (ids : list string)
    (qs : list Question.t) :
  reorderedBy k (id :: ids) qs
  = match List.find (fun qn => String.eqb (Question.id qn) id) qs with
    | Some question =>
      Question.with_orderIndex question (k 0%nat) :: reorderedBy (fun i => k (S i)) ids qs
    | None => reorderedBy (fun i => k (S i)) ids qs
    end.
Proof. unfold reorderedBy. simpl. by destruct (List.find _ qs). Qed.

Lemma find_by_id_Some (qs : list Question.t) (id : string) (q : Question.t) :
  List.find (fun qn => String.eqb (Question.id qn) id) qs = Some q ->
  In q qs /\ Question.id q = id.
Proof.
  intros Hfind. apply find_some in Hfind as [Hin Heq].
  by apply String.eqb_eq in Heq.
Qed.

Lemma find_by_id_None (qs : list Question.t) (id : string) :
  List.find (fun qn => String.eqb (Question.id qn) id) qs = None <->
  ~ In id (map Question.id qs).
Proof.
  split.
  - intros Hnone Hin. apply in_map_iff in Hin as (q & Hid & Hin).
    pose proof (find_none _ _ Hnone q Hin) as Hneq. simpl in Hneq.
    rewrite <- Hid, String.eqb_refl in Hneq. done.
  - intros Hnot. destruct (List.find _ qs) as [q |] eqn:Hfind; [| done].
    apply find_by_id_Some in Hfind as [Hin Hid]. exfalso. apply Hnot.
    apply in_map_iff. by exists q.
Qed.

(** Where the questions of the result come from. *)
Lemma reorderedBy_In (k : nat -> Z) (ids : list string) (qs : list Question.t)
    (x : Question.t) :
  In x (reorderedBy k ids qs) ->
  exists i q, ids !! i = Some (Question.id x) /\ In q qs /\
              x = Question.with_orderIndex q (k i).
Proof.
  revert k. induction ids as [| id ids IH]; intros k Hin; [done |].
  rewrite reorderedBy_cons in Hin.
  destruct (List.find _ qs) as [q |] eqn:Hfind.
  - destruct Hin as [<- | Hin].
    + apply find_by_id_Some in Hfind as [Hq Hid].
      exists 0%nat, q. simpl. by rewrite Hid.
    + destruct (IH _ Hin) as (i & q' & Hi & Hq' & Hx). by exists (S i), q'.
  - destruct (IH _ Hin) as (i & q' & Hi & Hq' & Hx). by exists (S i), q'.
Qed.

(** When every id is the id of a question, the result lists the ids in the
    given order, numbered by position. *)
Lemma reorderedBy_all_found (k : nat -> Z) (ids : list string) (qs : list Question.t) :
  (forall id, In id ids -> In id (map Question.id qs)) ->
  map (fun qn => (Question.id qn, Question.orderIndex qn)) (reorderedBy k ids qs)
  = imap (fun index id => (id, k index)) ids.
Proof.
  revert k. induction ids as [| id ids IH]; intros k Hall; [done |].
  rewrite reorderedBy_cons.
  destruct (List.find _ qs) as [q |] eqn:Hfind.
  - apply find_by_id_Some in Hfind as [_ Hid]. simpl. rewrite Hid. f_equal.
    apply (IH (fun i => k (S i))). intros x Hx. apply Hall. by right.
  - apply find_by_id_None in Hfind. exfalso. apply Hfind, Hall. by left.
Qed.

Lemma numbered_indexedByPosition (l : list Question.t) (ids : list string) :
  map (fun qn => (Question.id qn, Question.orderIndex qn)) l = numbered ids ->
  indexedByPosition l /\ map Question.id l = ids.
Proof.
  intros Heq. split.
  - intros i q Hq.
    assert (Hi : map (fun qn => (Question.id qn, Question.orderIndex qn)) l !! i
                 = numbered ids !! i) by (by rewrite Heq).
    unfold numbered in Hi. rewrite list_lookup_fmap, list_lookup_imap, Hq in Hi.
    simpl in Hi. destruct (ids !! i); simpl in Hi; congruence.
  - apply list_eq. intros i.
    assert (Hi : map (fun qn => (Question.id qn, Question.orderIndex qn)) l !! i
                 = numbered ids !! i) by (by rewrite Heq).
    unfold numbered in Hi. rewrite list_lookup_fmap, list_lookup_imap in Hi.
    rewrite list_lookup_fmap.
    destruct (l !! i), (ids !! i); simpl in *; congruence.
Qed.

Lemma getQuiz_reorderQuestions (quizId : string) (ids : list string) (now : Z)
    (st : Store.StoreState) :
  Store.getQuiz quizId (Store.reorderQuestions quizId ids now st)
  = Store.reorderQuestions_quiz ids now <$> Store.getQuiz quizId st.
Proof. unfold Store.reorderQuestions. by rewrite getQuiz_updated. Qed.

Lemma questionsOf_reorderQuestions (quizId : string) (ids : list string) (now : Z)
    (st : Store.StoreState) :
  questionsOf quizId (Store.reorderQuestions quizId ids now st)
  = match Store.getQuiz quizId st with
    | Some quiz => Store.reordered ids (Quiz.questions quiz)
    | None => []
    end.
Proof.
  unfold questionsOf. rewrite getQuiz_reorderQuestions.
  by destruct (Store.getQuiz quizId st).
Qed.

(** X1: when every id passed to [reorderQuestions] is the id of a question
    of the quiz, the quiz afterwards lists exactly those ids, in the order
    given and numbered 0, 1, 2, ..., and the editor presents them in that
    order. *)
Theorem reorderQuestions_order_is_authoritative (quizId : string) (ids : list string)
    (now : Z) (st : Store.StoreState) (quiz : Quiz.t) :
  Store.getQuiz quizId st = Some quiz ->
  (forall id, In id ids -> In id (map Question.id (Quiz.questions quiz))) ->
  orderOf quizId (Store.reorderQuestions quizId ids now st) = numbered ids /\
  presentedIdsOf quizId (Store.reorderQuestions quizId ids now st) = ids.
Proof.
  intros Hget Hall.
  unfold orderOf, presentedIdsOf. rewrite getQuiz_reorderQuestions, Hget. simpl.
  pose proof (reorderedBy_all_found Z.of_nat ids (Quiz.questions quiz) Hall) as Heq.
  fold (numbered ids) in Heq.
  change (reorderedBy Z.of_nat ids (Quiz.questions quiz))
    with (Store.reordered ids (Quiz.questions quiz)) in Heq.
  split; [done |].
  destruct (numbered_indexedByPosition _ _ Heq) as [Hpos Hids].
  unfold TestEditorScreen.presentedIds.
  by rewrite sortedQuestions_of_ascending by (by apply indexedByPosition_ascending).
Qed.

Lemma reorderQuestions_order_is_authoritative_witness :
  orderOf "quiz1" threeQuestions = [("a", 0); ("b", 1); ("c", 2)] /\
  orderOf "quiz1" (Store.reorderQuestions "quiz1" ["c"; "a"; "b"] 9 threeQuestions)
  = [("c", 0); ("a", 1); ("b", 2)] /\
  presentedIdsOf "quiz1" (Store.reorderQuestions "quiz1" ["c"; "a"; "b"] 9 threeQuestions)
  = ["c"; "a"; "b"].
Proof.
  split; [reflexivity |].
  assert (Hget : Store.getQuiz "quiz1" threeQuestions
                 = Some (Quiz.mk "quiz1" "Sample" EmptyString 0 3
                           (questionsOf "quiz1" threeQuestions))) by reflexivity.
  apply (reorderQuestions_order_is_authoritative "quiz1" ["c"; "a"; "b"] 9
           threeQuestions _ Hget).
  intros id Hid. vm_compute in Hid. vm_compute. tauto.
Defined.

Lemma find_reorderedBy_None (k : nat -> Z) (ids : list string) (qs : list Question.t)
    (id : string) :
  List.find (fun qn => String.eqb (Question.id qn) id) qs = None ->
  List.find (fun qn => String.eqb (Question.id qn) id) (reorderedBy k ids qs) = None.
Proof.
  intros Hnone. apply find_by_id_None. intros Hin.
  apply in_map_iff in Hin as (x & Hid & Hx).
  destruct (reorderedBy_In k ids qs x Hx) as (i & q & _ & Hq & ->). simpl in Hid.
  apply find_by_id_None in Hnone. apply Hnone, in_map_iff. by exists q.
Qed.

Lemma find_reorderedBy (k : nat -> Z) (ids : list string) (qs : list Question.t)
    (id : string) :
  In id ids ->
  exists j,
    List.find (fun qn => String.eqb (Question.id qn) id) (reorderedBy k ids qs)
    = (fun q => Question.with_orderIndex q j)
        <$> List.find (fun qn => String.eqb (Question.id qn) id) qs.
Proof.
  revert k. induction ids as [| a ids IH]; intros k Hin; [done |].
  rewrite reorderedBy_cons.
  destruct (String.eqb a id) eqn:Haid.
  - apply String.eqb_eq in Haid. subst a.
    destruct (List.find _ qs) as [q |] eqn:Hfind.
    + exists (k 0%nat). simpl.
      apply find_by_id_Some in Hfind as [_ Hid]. by rewrite Hid, String.eqb_refl.
    + exists 0. by rewrite find_reorderedBy_None.
  - assert (Hrest : In id ids).
    { destruct Hin as [-> | Hin]; [by rewrite String.eqb_refl in Haid | done]. }
    destruct (IH (fun i => k (S i)) Hrest) as [j Hj].
    destruct (List.find (fun qn => String.eqb (Question.id qn) a) qs) as [q |] eqn:Hfind.
    + exists j. simpl. apply find_by_id_Some in Hfind as [_ Hid].
      by rewrite Hid, Haid.
    + by exists j.
Qed.

(** Reordering a reordered list: the first reordering is forgotten as long
    as it kept every id of the second. *)
Lemma reorderedBy_reorderedBy (k k' : nat -> Z) (ids ids' : list string)
    (qs : list Question.t) :
  (forall id, In id ids -> In id ids') ->
  reorderedBy k ids (reorderedBy k' ids' qs) = reorderedBy k ids qs.
Proof.
  revert k. induction ids as [| a ids IH]; intros k Hsub; [done |].
  rewrite !reorderedBy_cons.
  destruct (find_reorderedBy k' ids' qs a) as [j Hj]; [apply Hsub; by left |].
  rewrite Hj. rewrite IH by (intros x Hx; apply Hsub; by right).
  by destruct (List.find _ qs).
Qed.

Lemma reorderedBy_length (k : nat -> Z) (ids : list string) (qs : list Question.t) :
  (length (reorderedBy k ids qs) <= length ids)%nat.
Proof.
  revert k. induction ids as [| a ids IH]; intros k; [done |].
  rewrite reorderedBy_cons. specialize (IH (fun i => k (S i))).
  destruct (List.find _ qs); simpl; lia.
Qed.

(** X2: [reorderQuestions] is idempotent: a second call with the same id
    list leaves the questions of every quiz, and their order indices, as the
    first call left them. *)
Theorem reorderQuestions_twice (quizId : string) (ids : list string) (now now' : Z)
    (st : Store.StoreState) :
  Store.reordered ids (Store.reordered ids (questionsOf quizId st))
  = Store.reordered ids (questionsOf quizId st) /\
  questionsOf quizId
    (Store.reorderQuestions quizId ids now' (Store.reorderQuestions quizId ids now st))
  = questionsOf quizId (Store.reorderQuestions quizId ids now st).
Proof.
  assert (Hidem : forall qs, Store.reordered ids (Store.reordered ids qs)
                             = Store.reordered ids qs).
  { intros qs. by apply (reorderedBy_reorderedBy Z.of_nat Z.of_nat). }
  split; [apply Hidem |].
  rewrite (questionsOf_reorderQuestions quizId ids now').
  rewrite getQuiz_reorderQuestions, questionsOf_reorderQuestions.
  destruct (Store.getQuiz quizId st); simpl; [apply Hidem | done].
Qed.

(** X3: [reorderQuestions] keeps only what the id list names: every question
    afterwards is a question of the quiz with a listed id (renumbered), a
    question whose id is not listed is gone, and with an empty list the quiz
    is left without questions. *)
Theorem reorderQuestions_drops_unlisted (quizId : string) (ids : list string)
    (now : Z) (st : Store.StoreState) (quiz : Quiz.t) :
  Store.getQuiz quizId st = Some quiz ->
  (forall x, In x (questionsOf quizId (Store.reorderQuestions quizId ids now st)) ->
     In (Question.id x) ids /\
     exists q, In q (Quiz.questions quiz) /\
               x = Question.with_orderIndex q (Question.orderIndex x)) /\
  (forall q, In q (Quiz.questions quiz) -> ~ In (Question.id q) ids ->
     ~ In (Question.id q)
          (map Question.id
             (questionsOf quizId (Store.reorderQuestions quizId ids now st)))) /\
  (length (questionsOf quizId (Store.reorderQuestions quizId ids now st))
   <= length ids)%nat /\
  (ids = [] -> questionsOf quizId (Store.reorderQuestions quizId ids now st) = []).
Proof.
  intros Hget. rewrite questionsOf_reorderQuestions, Hget.
  change (Store.reordered ids (Quiz.questions quiz))
    with (reorderedBy Z.of_nat ids (Quiz.questions quiz)).
  assert (Hfrom : forall x, In x (reorderedBy Z.of_nat ids (Quiz.questions quiz)) ->
            In (Question.id x) ids /\
            exists q, In q (Quiz.questions quiz) /\
                      x = Question.with_orderIndex q (Question.orderIndex x)).
  { intros x Hx. destruct (reorderedBy_In _ _ _ x Hx) as (i & q & Hi & Hq & Heq).
    split.
    - apply list_elem_of_In, list_elem_of_lookup. by exists i.
    - exists q. split; [done |]. rewrite Heq at 1. by rewrite Heq. }
  split; [exact Hfrom |]. split; [| split].
  - intros q Hq Hnot Hin. apply in_map_iff in Hin as (x & Hid & Hx).
    destruct (Hfrom x Hx) as [Hlisted _]. by rewrite Hid in Hlisted.
  - apply reorderedBy_length.
  - by intros ->.
Qed.

Lemma reorderQuestions_drops_unlisted_witness :
  orderOf "quiz1" (Store.reorderQuestions "quiz1" ["c"; "zz"; "a"] 9 threeQuestions)
  = [("c", 0); ("a", 2)] /\
  ~ In "b" (map Question.id
              (questionsOf "quiz1"
                 (Store.reorderQuestions "quiz1" ["c"; "zz"; "a"] 9 threeQuestions))).
Proof.
  split; [reflexivity |].
  assert (Hget : Store.getQuiz "quiz1" threeQuestions
                 = Some (Quiz.mk "quiz1" "Sample" EmptyString 0 3
                           (questionsOf "quiz1" threeQuestions))) by reflexivity.
  destruct (reorderQuestions_drops_unlisted "quiz1" ["c"; "zz"; "a"] 9
              threeQuestions _ Hget) as (_ & Hgone & _).
  apply (Hgone (Question.mk "b" "text" 1
                  [Answer.mk "A" "yes" true; Answer.mk "B" "no" false] None)).
  - vm_compute. tauto.
  - vm_compute. intros [H | [H | [H | []]]]; discriminate H.
Defined.

(** ** Adding and deleting questions *)

Lemma maxOrder_bounds (qs : list Question.t) :
  -1 <= Store.maxOrder qs /\
  forall q, In q qs -> Question.orderIndex q <= Store.maxOrder qs.
Proof.
  unfold Store.maxOrder.
  assert (Hgen : forall (qs : list Question.t) (m : Z),
            m <= fold_left (fun mx qn => Z.max mx (Question.orderIndex qn)) qs m /\
            forall q, In q qs ->
              Question.orderIndex q
              <= fold_left (fun mx qn => Z.max mx (Question.orderIndex qn)) qs m).
  { clear qs. induction qs as [| x qs IH]; intros m; simpl; [split; [lia | done] |].
    destruct (IH (Z.max m (Question.orderIndex x))) as [Hm Hall]. split; [lia |].
    intros q [<- | Hq]; [lia | by apply Hall]. }
  apply Hgen.
Qed.

Lemma insertSorted_snoc (x n : Question.t) (l : list Question.t) :
  Question.orderIndex x <= Question.orderIndex n ->
  TestEditorScreen.insertSorted x (l ++ [n]) = TestEditorScreen.insertSorted x l ++ [n].
Proof.
  intros Hle. induction l as [| y l IH]; simpl.
  - by rewrite (proj2 (Z.leb_le _ _) Hle).
  - destruct (Question.orderIndex x <=? Question.orderIndex y); [done |].
    by rewrite IH.
Qed.

Lemma sortedQuestions_snoc (n : Question.t) (qs : list Question.t) :
  (forall q, In q qs -> Question.orderIndex q <= Question.orderIndex n) ->
  TestEditorScreen.sortedQuestions (qs ++ [n])
  = TestEditorScreen.sortedQuestions qs ++ [n].
Proof.
  unfold TestEditorScreen.sortedQuestions.
  induction qs as [| x qs IH]; intros Hall; [done |]. simpl.
  rewrite IH by (intros q Hq; apply Hall; by right).
  apply insertSorted_snoc, Hall. by left.
Qed.

Lemma getQuiz_addQuestion (quizId newId : string) (now : Z) (question : Question.t)
    (st : Store.StoreState) :
  Store.getQuiz quizId (Store.addQuestion quizId newId now question st)
  = Store.addQuestion_quiz newId now question <$> Store.getQuiz quizId st.
Proof. unfold Store.addQuestion. by rewrite getQuiz_updated. Qed.

(** X4: [addQuestion] on an existing quiz appends one question with the new
    id and the given text and answers; its order index is one more than the
    largest in the quiz (0 in an empty quiz), so it is larger than every
    other, the indices stay distinct if they were, and the editor presents
    the new question last, after the others in their previous order. *)
Theorem addQuestion_goes_last (quizId newId : string) (now : Z)
    (question : Question.t) (st : Store.StoreState) (quiz : Quiz.t) :
  Store.getQuiz quizId st = Some quiz ->
  exists added,
    questionsOf quizId (Store.addQuestion quizId newId now question st)
    = Quiz.questions quiz ++ [added] /\
    Question.id added = newId /\
    Question.text added = Question.text question /\
    Question.answers added = Question.answers question /\
    Question.orderIndex added = Store.maxOrder (Quiz.questions quiz) + 1 /\
    (Quiz.questions quiz = [] -> Question.orderIndex added = 0) /\
    (forall q, In q (Quiz.questions quiz) ->
       Question.orderIndex q < Question.orderIndex added) /\
    (NoDup (map Question.orderIndex (Quiz.questions quiz)) ->
     NoDup (map Question.orderIndex (Quiz.questions quiz ++ [added]))) /\
    presentedIdsOf quizId (Store.addQuestion quizId newId now question st)
    = presentedIdsOf quizId st ++ [newId].
Proof.
  intros Hget.
  destruct (maxOrder_bounds (Quiz.questions quiz)) as [Hmin Hmax].
  eexists. unfold questionsOf, presentedIdsOf.
  rewrite getQuiz_addQuestion, Hget. simpl.
  split; [reflexivity |]. simpl.
  assert (Hlt : forall q, In q (Quiz.questions quiz) ->
                  Question.orderIndex q < Store.maxOrder (Quiz.questions quiz) + 1).
  { intros q Hq. specialize (Hmax q Hq). lia. }
  repeat split; try done.
  - by intros ->.
  - intros Hnd. rewrite map_app. apply NoDup_app. simpl.
    repeat split; [done | | apply NoDup_singleton].
    intros i Hi Hi'. apply list_elem_of_singleton in Hi'. subst i.
    apply list_elem_of_In, in_map_iff in Hi as (q & Heq & Hq).
    specialize (Hlt q Hq). lia.
  - unfold TestEditorScreen.presentedIds.
    rewrite sortedQuestions_snoc; [by rewrite map_app |].
    intros q Hq. simpl. specialize (Hlt q Hq). lia.
Qed.

Lemma addQuestion_goes_last_witness :
  orderOf "quiz1" (Store.addQuestion "quiz1" "d" 8 questionBody afterDelete)
  = [("a", 0); ("c", 2); ("d", 3)] /\
  presentedIdsOf "quiz1" (Store.addQuestion "quiz1" "d" 8 questionBody afterDelete)
  = presentedIdsOf "quiz1" afterDelete ++ ["d"].
Proof.
  split; [reflexivity |].
  assert (Hget : Store.getQuiz "quiz1" afterDelete
                 = Some (Quiz.mk "quiz1" "Sample" EmptyString 0 4
                           (questionsOf "quiz1" afterDelete))) by reflexivity.
  destruct (addQuestion_goes_last "quiz1" "d" 8 questionBody afterDelete _ Hget)
    as (added & _ & _ & _ & _ & _ & _ & _ & _ & Hlast).
  exact Hlast.
Defined.

Lemma ascending_filter (p : Question.t -> bool) (l : list Question.t) :
  ascending l -> ascending (List.filter p l).
Proof.
  unfold ascending. induction l as [| x l IH]; simpl; intros Hs; [constructor |].
  apply StronglySorted_inv in Hs as [Hl Hx].
  destruct (p x); [| by apply IH].
  constructor; [by apply IH |].
  apply List.Forall_forall. intros a Ha. apply filter_In in Ha as [Ha _].
  by apply (proj1 (List.Forall_forall _ _) Hx).
Qed.

Lemma filter_insertSorted (p : Question.t -> bool) (q : Question.t)
    (l : list Question.t) :
  ascending l ->
  List.filter p (TestEditorScreen.insertSorted q l)
  = if p q then TestEditorScreen.insertSorted q (List.filter p l)
    else List.filter p l.
Proof.
  induction l as [| x l IH]; intros Hs.
  - simpl. by destruct (p q).
  - pose proof Hs as Hs'. apply StronglySorted_inv in Hs' as [Hl Hx]. simpl.
    destruct (Question.orderIndex q <=? Question.orderIndex x) eqn:Hle.
    + apply Z.leb_le in Hle.
      change (List.filter p (q :: x :: l))
        with (if p q then q :: List.filter p (x :: l) else List.filter p (x :: l)).
      destruct (p q) eqn:Hpq; [| done].
      symmetry. apply insertSorted_head. constructor.
      * by apply (ascending_filter p (x :: l)).
      * apply List.Forall_forall. intros a Ha. apply filter_In in Ha as [Ha _].
        destruct Ha as [<- | Ha]; [done |].
        pose proof (proj1 (List.Forall_forall _ _) Hx a Ha) as Hxa. simpl in Hxa. lia.
    + simpl. destruct (p x) eqn:Hpx.
      * rewrite (IH Hl). destruct (p q); [| done]. simpl. by rewrite Hle.
      * by rewrite (IH Hl).
Qed.

(** Sorting commutes with removing questions. *)
Lemma sortedQuestions_filter (p : Question.t -> bool) (l : list Question.t) :
  TestEditorScreen.sortedQuestions (List.filter p l)
  = List.filter p (TestEditorScreen.sortedQuestions l).
Proof.
  induction l as [| x l IH]; [done |].
  change (TestEditorScreen.sortedQuestions (x :: l))
    with (TestEditorScreen.insertSorted x (TestEditorScreen.sortedQuestions l)).
  rewrite filter_insertSorted by apply sortedQuestions_ascending. simpl.
  destruct (p x); [| done].
  change (TestEditorScreen.sortedQuestions (x :: List.filter p l))
    with (TestEditorScreen.insertSorted x
            (TestEditorScreen.sortedQuestions (List.filter p l))).
  by rewrite IH.
Qed.

Lemma map_id_filter_neq (questionId : string) (l : list Question.t) :
  map Question.id
    (List.filter (fun qn => negb (String.eqb (Question.id qn) questionId)) l)
  = List.filter (fun id => negb (String.eqb id questionId)) (map Question.id l).
Proof.
  induction l as [| x l IH]; [done |]. simpl.
  destruct (String.eqb (Question.id x) questionId); simpl; by rewrite IH.
Qed.

Lemma getQuiz_deleteQuestion (quizId questionId : string) (now : Z)
    (st : Store.StoreState) :
  Store.getQuiz quizId (Store.deleteQuestion quizId questionId now st)
  = Store.deleteQuestion_quiz questionId now <$> Store.getQuiz quizId st.
Proof. unfold Store.deleteQuestion. by rewrite getQuiz_updated. Qed.

(** X5: [deleteQuestion] removes the questions with the given id and nothing
    else: a question is in the quiz afterwards exactly when it was before
    and has another id (so it keeps its order index, no renumbering), and
    the editor presents the remaining questions in their previous relative
    order. *)
Theorem deleteQuestion_keeps_the_rest (quizId questionId : string) (now : Z)
    (st : Store.StoreState) :
  (forall q, In q (questionsOf quizId (Store.deleteQuestion quizId questionId now st)) <->
             In q (questionsOf quizId st) /\ Question.id q <> questionId) /\
  presentedIdsOf quizId (Store.deleteQuestion quizId questionId now st)
  = List.filter (fun id => negb (String.eqb id questionId)) (presentedIdsOf quizId st).
Proof.
  unfold questionsOf, presentedIdsOf. rewrite getQuiz_deleteQuestion.
  destruct (Store.getQuiz quizId st) as [quiz |]; simpl.
  - split; [intros q; apply (filter_neqb_In Question.id) |].
    unfold TestEditorScreen.presentedIds.
    by rewrite sortedQuestions_filter, map_id_filter_neq.
  - split; [| done]. intros q. tauto.
Qed.

(** ** Operations on a quiz that does not exist *)

Lemma map_unmatched (quizId : string) (f : Quiz.t -> Quiz.t) (quizzes : list Quiz.t) :
  List.find (fun q => String.eqb (Quiz.id q) quizId) quizzes = None ->
  map (fun q => if String.eqb (Quiz.id q) quizId then f q else q) quizzes = quizzes.
Proof.
  induction quizzes as [| q l IH]; simpl; [done |].
  destruct (String.eqb (Quiz.id q) quizId); [done |].
  intros Hnone. by rewrite IH.
Qed.

Lemma with_quizzes_same (st : Store.StoreState) :
  Store.with_quizzes st (Store.quizzes st) = st.
Proof. by destruct st. Qed.

(** X6: with an id that no quiz of the store has, [updateQuiz],
    [addQuestion], [updateQuestion], [deleteQuestion] and [reorderQuestions]
    leave the store exactly as it is (no quiz is created, no error is
    reported). *)
Theorem operations_on_a_missing_quiz (quizId : string) (now : Z)
    (st : Store.StoreState) :
  Store.getQuiz quizId st = None ->
  (forall updates, Store.updateQuiz quizId updates now st = st) /\
  (forall newId question, Store.addQuestion quizId newId now question st = st) /\
  (forall questionId updates,
     Store.updateQuestion quizId questionId updates now st = st) /\
  (forall questionId, Store.deleteQuestion quizId questionId now st = st) /\
  (forall questionIds, Store.reorderQuestions quizId questionIds now st = st).
Proof.
  intros Hnone. unfold Store.getQuiz in Hnone.
  unfold Store.updateQuiz, Store.addQuestion, Store.updateQuestion,
    Store.deleteQuestion, Store.reorderQuestions.
  repeat split; intros; rewrite map_unmatched by done; apply with_quizzes_same.
Qed.

Lemma operations_on_a_missing_quiz_witness :
  Store.getQuiz "other" threeQuestions = None /\
  Store.deleteQuestion "other" "a" 9 threeQuestions = threeQuestions /\
  Store.reorderQuestions "other" ["c"; "a"] 9 threeQuestions = threeQuestions.
Proof.
  assert (Hnone : Store.getQuiz "other" threeQuestions = None) by reflexivity.
  destruct (operations_on_a_missing_quiz "other" 9 threeQuestions Hnone)
    as (_ & _ & _ & Hdel & Hre).
  split; [exact Hnone |]. split; [apply Hdel | apply Hre].
Defined.

(** ** Paused runs *)

Lemma findIndex_Some (newId : string) (prev : list PausedRun.t) (i : nat) :
  Store.findIndex newId prev = Some i ->
  (exists p, prev !! i = Some p /\ PausedRun.id p = newId) /\
  forall j p, (j < i)%nat -> prev !! j = Some p -> PausedRun.id p <> newId.
Proof.
  revert i. induction prev as [| x prev IH]; intros i; simpl; [done |].
  destruct (String.eqb (PausedRun.id x) newId) eqn:Heq.
  - intros [= <-]. apply String.eqb_eq in Heq. split; [by exists x | lia].
  - destruct (Store.findIndex newId prev) as [i' |]; [| done].
    intros [= <-]. destruct (IH i' eq_refl) as [Hat Hbefore]. split; [done |].
    intros [| j] p Hj Hp.
    + injection Hp as <-. intros Hid. rewrite Hid, String.eqb_refl in Heq. done.
    + apply (Hbefore j p); [lia | done].
Qed.

Lemma findIndex_None (newId : string) (prev : list PausedRun.t) :
  Store.findIndex newId prev = None <->
  ~ In newId (map PausedRun.id prev).
Proof.
  induction prev as [| x prev IH]; simpl; [tauto |].
  destruct (String.eqb (PausedRun.id x) newId) eqn:Heq.
  - apply String.eqb_eq in Heq. split; [done | intros Hnot; exfalso; tauto].
  - apply String.eqb_neq in Heq.
    destruct (Store.findIndex newId prev) as [i |].
    + split; [done |]. intros Hnot. exfalso. apply Hnot. right.
      destruct (in_dec String.string_dec newId (map PausedRun.id prev))
        as [Hin | Hout]; [done |].
      by apply IH in Hout.
    + split; [| done]. intros _ [Hx | Hin]; [done |]. by apply (proj1 IH).
Qed.

(** [find] by id in a list whose element at the first matching position was
    replaced by a record with the same id. *)
Lemma find_replaced (newId : string) (r : PausedRun.t) (prev : list PausedRun.t)
    (i : nat) (id : string) :
  Store.findIndex newId prev = Some i ->
  PausedRun.id r = newId ->
  List.find (fun p => String.eqb (PausedRun.id p) id) (<[i := r]> prev)
  = if String.eqb newId id then Some r
    else List.find (fun p => String.eqb (PausedRun.id p) id) prev.
Proof.
  intros Hidx Hr. revert i Hidx.
  induction prev as [| x prev IH]; intros i; simpl; [done |].
  destruct (String.eqb (PausedRun.id x) newId) eqn:Heq.
  - intros [= <-]. simpl. apply String.eqb_eq in Heq. rewrite Hr, Heq.
    by destruct (String.eqb newId id).
  - destruct (Store.findIndex newId prev) as [i' |]; [| done].
    intros [= <-]. simpl.
    destruct (String.eqb (PausedRun.id x) id) eqn:Hxid.
    + apply String.eqb_eq in Hxid. subst id. rewrite String.eqb_sym, Heq. done.
    + by apply IH.
Qed.

(** The record [savePausedRun] stores. *)
Lemma savePausedRun_lookup (generated : string) (now : Z) (run : PausedInput.t)
    (st : Store.StoreState) (id : string) :
  Store.getPausedRun id (snd (Store.savePausedRun generated now run st))
  = if String.eqb (default generated (truthy (PausedInput.id run))) id
    then Some (PausedRun.mk (default generated (truthy (PausedInput.id run)))
                 (PausedInput.quizId run) (PausedInput.currentQuestionIndex run)
                 (PausedInput.selectedAnswerIds run) (PausedInput.answers run) now
                 (PausedInput.shuffle run) (PausedInput.shuffleAnswers run)
                 (PausedInput.questionIds run))
    else Store.getPausedRun id st.
Proof.
  unfold Store.getPausedRun. simpl.
  destruct (Store.findIndex _ (Store.pausedRuns st)) as [i |] eqn:Hidx.
  - by rewrite (find_replaced _ _ _ i id Hidx).
  - done.
Qed.

(** The ids of the paused runs after [savePausedRun]. *)
Lemma savePausedRun_ids (generated : string) (now : Z) (run : PausedInput.t)
    (st : Store.StoreState) :
  map PausedRun.id (Store.pausedRuns (snd (Store.savePausedRun generated now run st)))
  = if bool_decide (default generated (truthy (PausedInput.id run))
                    ∈ map PausedRun.id (Store.pausedRuns st))
    then map PausedRun.id (Store.pausedRuns st)
    else default generated (truthy (PausedInput.id run)) :: map PausedRun.id (Store.pausedRuns st).
Proof.
  simpl. set (newId := default generated (truthy (PausedInput.id run))).
  destruct (Store.findIndex newId (Store.pausedRuns st)) as [i |] eqn:Hidx.
  - rewrite bool_decide_eq_true_2.
    + destruct (findIndex_Some _ _ _ Hidx) as [(p & Hp & Hid) _].
      rewrite list_fmap_insert. apply list_insert_id.
      rewrite list_lookup_fmap, Hp. simpl. by rewrite Hid.
    + destruct (in_dec String.string_dec newId
                  (map PausedRun.id (Store.pausedRuns st))) as [Hin | Hout];
        [by apply list_elem_of_In |].
      apply findIndex_None in Hout. congruence.
  - apply findIndex_None in Hidx.
    by rewrite bool_decide_eq_false_2 by (by rewrite list_elem_of_In).
Qed.

(** X7: [savePausedRun] is an upsert.  The returned id is the id given, or
    the generated one when no id (or an empty one) is given.  The record
    stored under the returned id is the one just saved; the lookup of every
    other id is unchanged;
    when the id was already in the list the list keeps its ids, in the same
    order (the record is replaced where it was, none is added), and
    otherwise the new record is put in front. *)
Theorem savePausedRun_upserts (generated : string) (now : Z) (run : PausedInput.t)
    (st : Store.StoreState) :
  let newId := fst (Store.savePausedRun generated now run st) in
  let st' := snd (Store.savePausedRun generated now run st) in
  (PausedInput.id run = None \/ PausedInput.id run = Some EmptyString ->
   newId = generated) /\
  (forall id, PausedInput.id run = Some id -> id <> EmptyString -> newId = id) /\
  (exists saved,
     Store.getPausedRun newId st' = Some saved /\
     PausedRun.id saved = newId /\
     PausedRun.quizId saved = PausedInput.quizId run /\
     PausedRun.currentQuestionIndex saved = PausedInput.currentQuestionIndex run /\
     PausedRun.selectedAnswerIds saved = PausedInput.selectedAnswerIds run /\
     PausedRun.answers saved = PausedInput.answers run /\
     PausedRun.timestamp saved = now) /\
  (forall id, id <> newId -> Store.getPausedRun id st' = Store.getPausedRun id st) /\
  (In newId (map PausedRun.id (Store.pausedRuns st)) ->
   map PausedRun.id (Store.pausedRuns st') = map PausedRun.id (Store.pausedRuns st)) /\
  (~ In newId (map PausedRun.id (Store.pausedRuns st)) ->
   map PausedRun.id (Store.pausedRuns st') = newId :: map PausedRun.id (Store.pausedRuns st)) /\
  (NoDup (map PausedRun.id (Store.pausedRuns st)) ->
   NoDup (map PausedRun.id (Store.pausedRuns st'))).
Proof.
  cbv zeta. change (fst (Store.savePausedRun generated now run st))
    with (default generated (truthy (PausedInput.id run))).
  set (newId := default generated (truthy (PausedInput.id run))).
  pose proof (savePausedRun_ids generated now run st) as Hids. fold newId in Hids.
  split; [| split; [| split; [| split; [| split; [| split]]]]].
  - unfold newId. by intros [-> | ->].
  - unfold newId. intros id -> Hne. by destruct id.
  - eexists. rewrite savePausedRun_lookup. fold newId. rewrite String.eqb_refl.
    by repeat split.
  - intros id Hne. rewrite savePausedRun_lookup. fold newId.
    by rewrite (proj2 (String.eqb_neq _ _)) by done.
  - intros Hin. by rewrite Hids, bool_decide_eq_true_2 by (by apply list_elem_of_In).
  - intros Hout.
    by rewrite Hids, bool_decide_eq_false_2 by (by rewrite list_elem_of_In).
  - intros Hnd. rewrite Hids. case_bool_decide as Hin; [done |].
    by apply NoDup_cons.
Qed.

(** X8: after [deletePausedRun] no record is found under the deleted id, and
    the lookup of every other id is unchanged. *)
Theorem deletePausedRun_forgets (id : string) (st : Store.StoreState) :
  Store.getPausedRun id (Store.deletePausedRun id st) = None /\
  forall other, other <> id ->
    Store.getPausedRun other (Store.deletePausedRun id st)
    = Store.getPausedRun other st.
Proof.
  unfold Store.getPausedRun, Store.deletePausedRun. simpl.
  induction (Store.pausedRuns st) as [| x l [IHgone IHother]]; [done |]. simpl.
  destruct (String.eqb (PausedRun.id x) id) eqn:Heq; simpl.
  - split; [done |]. intros other Hne. apply String.eqb_eq in Heq.
    rewrite Heq, (proj2 (String.eqb_neq _ _)) by done. by apply IHother.
  - rewrite Heq. split; [done |]. intros other Hne.
    destruct (String.eqb (PausedRun.id x) other); [done | by apply IHother].
Qed.

(** ** The run ledger, read back *)

(** X9: a run just added is the one [getRun] finds under its id (even if an
    older run had the same id), it is the first of [getRunsByQuiz] for its
    quiz, and the runs listed for every other quiz are unchanged. *)
Theorem addRun_then_lookup (newId : string) (now : Z) (run : RunInput.t)
    (st : Store.StoreState) :
  let newRun := fst (Store.addRun newId now run st) in
  let st' := snd (Store.addRun newId now run st) in
  Store.getRun newId st' = Some newRun /\
  Store.getRunsByQuiz (RunInput.quizId run) st'
  = newRun :: Store.getRunsByQuiz (RunInput.quizId run) st /\
  (forall quizId, quizId <> RunInput.quizId run ->
     Store.getRunsByQuiz quizId st' = Store.getRunsByQuiz quizId st) /\
  (forall id, id <> newId -> Store.getRun id st' = Store.getRun id st).
Proof.
  simpl. unfold Store.getRun, Store.getRunsByQuiz. simpl.
  rewrite !String.eqb_refl. repeat split.
  - intros quizId Hne.
    by rewrite (proj2 (String.eqb_neq _ _)) by done.
  - intros id Hne. by rewrite (proj2 (String.eqb_neq _ _)) by done.
Qed.

(** ** More on the streak *)

Lemma isoDay_yesterday (now : Z) : isoDay (addDays now (-1)) = isoDay now - 1.
Proof. rewrite isoDay_addDays. lia. Qed.

(** X10: the gap check is idempotent: run a second time at the same instant
    it changes nothing more (freezers are not consumed twice, the streak is
    not reset twice). *)
Theorem checkStreak_twice (now : Z) (prev : StreakData.t) :
  Store.checkStreak now (Store.checkStreak now prev) = Store.checkStreak now prev.
Proof.
  unfold Store.checkStreak. cbv zeta. rewrite !isoDay_yesterday.
  destruct (bool_decide (StreakData.lastCompletedDate prev = Some (isoDay now)))
    eqn:Htoday; [by rewrite Htoday |].
  destruct (bool_decide (StreakData.lastCompletedDate prev = Some (isoDay now - 1)))
    eqn:Hyesterday; [by rewrite Htoday, Hyesterday |].
  destruct (StreakData.lastCompletedDate prev) as [last |] eqn:Hlast;
    [| by rewrite Hlast, Htoday, Hyesterday].
  destruct (0 <? ceilDiv (Z.abs (now - dayStart last)) msPerDay - 1) eqn:Hpos;
    [| by rewrite Hlast, Htoday, Hyesterday, Hpos].
  destruct (ceilDiv (Z.abs (now - dayStart last)) msPerDay - 1
            <=? StreakData.freezers prev) eqn:Henough; simpl.
  - clear Htoday Hyesterday.
    case_bool_decide as Hsame; [injection Hsame; lia |].
    case_bool_decide as Hy; [done | by destruct Hy].
  - by rewrite Htoday, Hyesterday, Hpos, Henough.
Qed.





(** X14: through the Streak screen the freezer count never passes 3: the
    button leaves a count of at most 3 at most 3, changes it by one at most,
    and changes nothing besides the count and the balance. *)
Theorem pressBuy_keeps_the_cap (confirm : bool) (st : Store.StoreState) :
  let st' := snd (StreakScreen.pressBuy confirm st) in
  (StreakData.freezers (Store.streak st) <= 3 ->
   StreakData.freezers (Store.streak st') <= 3) /\
  (StreakData.freezers (Store.streak st') = StreakData.freezers (Store.streak st) \/
   StreakData.freezers (Store.streak st') = StreakData.freezers (Store.streak st) + 1) /\
  (fst (StreakScreen.pressBuy confirm st) <> StreakScreen.Purchase true -> st' = st) /\
  Store.quizzes st' = Store.quizzes st /\
  Store.runs st' = Store.runs st /\
  Store.pausedRuns st' = Store.pausedRuns st /\
  StreakData.currentStreak (Store.streak st') = StreakData.currentStreak (Store.streak st) /\
  StreakData.history (Store.streak st') = StreakData.history (Store.streak st).
Proof.
  unfold StreakScreen.pressBuy, Store.buyFreezer.
  destruct (3 <=? StreakData.freezers (Store.streak st)) eqn:Hcap; simpl;
    [by auto 10 |].
  apply Z.leb_gt in Hcap.
  destruct (num_lt (Store.diamonds st) 100); simpl; [by auto 10 |].
  destruct confirm; simpl; [| by auto 10].
  destruct (num_ge (Store.diamonds st) 100); simpl; [| by auto 10].
  repeat split; try done; try lia.
Qed.

(** * Further properties of the session engine *)

(** ** Shuffling *)

Lemma insert_Permutation {A} (l : list A) (i : nat) (a b : A) :
  l !! i = Some a ->
  l ≡ₚ a :: (take i l ++ drop (S i) l) /\
  <[i := b]> l ≡ₚ b :: (take i l ++ drop (S i) l).
Proof.
  intros Hi. split.
  - rewrite <- (take_drop_middle l i a Hi) at 1. by rewrite Permutation_middle.
  - rewrite insert_take_drop by (by eapply lookup_lt_Some).
    by rewrite Permutation_middle.
Qed.

Lemma swap_Permutation {A} (i j : nat) (l : list A) :
  ActiveQuizScreen.swap i j l ≡ₚ l.
Proof.
  unfold ActiveQuizScreen.swap.
  destruct (l !! i) as [x |] eqn:Hi; [| done].
  destruct (l !! j) as [y |] eqn:Hj; [| done].
  destruct (insert_Permutation l i x y Hi) as [Hl Hm].
  assert (Hmj : <[i := y]> l !! j = Some y).
  { destruct (decide (i = j)) as [-> | Hne].
    - apply list_lookup_insert_eq. by eapply lookup_lt_Some.
    - by rewrite list_lookup_insert_ne. }
  destruct (insert_Permutation (<[i := y]> l) j y x Hmj) as [Hm' Hl'].
  etransitivity; [exact Hl' |]. etransitivity; [| symmetry; exact Hl].
  apply Permutation_skip. apply (Permutation_cons_inv (a := y)).
  etransitivity; [symmetry; exact Hm' | exact Hm].
Qed.

Lemma shuffleLoop_Permutation {A} (i : nat) (draws : list nat) (l : list A) :
  ActiveQuizScreen.shuffleLoop i draws l ≡ₚ l.
Proof.
  revert draws l. induction i as [| i IH]; intros draws l; [done |].
  destruct draws as [| j rest]; [done |]. simpl.
  by rewrite IH, swap_Permutation.
Qed.

Lemma shuffleArray_Permutation {A} (draws : list nat) (l : list A) :
  ActiveQuizScreen.shuffleArray draws l ≡ₚ l.
Proof. apply shuffleLoop_Permutation. Qed.

(** X15: whatever the random draws, [shuffleArray] returns a rearrangement
    of its argument: the same elements with the same multiplicities, hence
    the same length; and arrays of at most one element are returned as they
    are. *)
Theorem shuffleArray_rearranges {A : Type} (draws : list nat) (array : list A) :
  ActiveQuizScreen.validDraws (length array - 1) draws ->
  ActiveQuizScreen.shuffleArray draws array ≡ₚ array /\
  length (ActiveQuizScreen.shuffleArray draws array) = length array /\
  (forall x, In x (ActiveQuizScreen.shuffleArray draws array) <-> In x array) /\
  ((length array <= 1)%nat -> ActiveQuizScreen.shuffleArray draws array = array).
Proof.
  intros _. pose proof (shuffleArray_Permutation draws array) as Hperm.
  split; [done |]. split; [by rewrite Hperm |]. split.
  - intros x. rewrite <- !list_elem_of_In. by rewrite Hperm.
  - intros Hlen. unfold ActiveQuizScreen.shuffleArray.
    by replace (length array - 1)%nat with 0%nat by lia.
Qed.

Lemma shuffleArray_rearranges_witness :
  ActiveQuizScreen.shuffleArray [1; 0; 1]%nat ["a"; "b"; "c"; "d"] = ["c"; "d"; "a"; "b"] /\
  ActiveQuizScreen.shuffleArray [1; 0; 1]%nat ["a"; "b"; "c"; "d"]
  ≡ₚ ["a"; "b"; "c"; "d"].
Proof.
  split; [reflexivity |].
  apply (shuffleArray_rearranges [1; 0; 1]%nat ["a"; "b"; "c"; "d"]).
  simpl. lia.
Defined.

(** ** The questions of a session *)

Lemma orderedQuestions_In (quiz : Quiz.t) (ids : option (list string)) (q : Question.t) :
  In q (ActiveQuizScreen.orderedQuestions quiz ids) <->
  In q (Quiz.questions quiz) /\
  ActiveQuizScreen.hasCorrectAnswer q = true /\
  (ActiveQuizScreen.nonEmptyIds ids = true ->
   exists l, ids = Some l /\ In (Question.id q) l).
Proof.
  unfold ActiveQuizScreen.orderedQuestions, ActiveQuizScreen.nonEmptyIds.
  rewrite sortedQuestions_In.
  destruct ids as [[| a rest] |]; cbv beta iota zeta.
  - rewrite filter_In. split; [intros [? ?]; by repeat split | tauto].
  - rewrite !filter_In, includes_In. split.
    + intros [[Hin Hc] Hsub]. repeat split; try done. intros _. by eexists.
    + intros (Hin & Hc & Hsub). repeat split; try done.
      destruct Hsub as (l & [= <-] & Hl); done.
  - rewrite filter_In. split; [intros [? ?]; by repeat split | tauto].
Qed.

Lemma correctIds_nonempty (q : Question.t) :
  ActiveQuizScreen.hasCorrectAnswer q = true -> ActiveQuizScreen.correctIds q <> [].
Proof.
  unfold ActiveQuizScreen.hasCorrectAnswer, ActiveQuizScreen.correctIds.
  intros Hex. apply existsb_exists in Hex as (a & Hin & Ha).
  intros Hnil. apply map_eq_nil in Hnil.
  assert (Hina : In a (List.filter Answer.isCorrect (Question.answers q)))
    by (by apply filter_In).
  by rewrite Hnil in Hina.
Qed.

Lemma selectionIsCorrect_correctIds (q : Question.t) :
  ActiveQuizScreen.selectionIsCorrect (ActiveQuizScreen.correctIds q) q = true.
Proof.
  unfold ActiveQuizScreen.selectionIsCorrect.
  rewrite Nat.eqb_refl. simpl. apply forallb_forall.
  intros id Hid. by apply includes_In.
Qed.

(** X16: the questions a session plays, before any shuffle.  They are
    exactly the questions of the quiz that have a correct answer and, when a
    non-empty id subset is given, an id in the subset; they come sorted by
    order index; and each of them can be answered correctly: its correct ids
    form a non-empty selection that is judged correct. *)
Theorem orderedQuestions_are_playable (quiz : Quiz.t) (ids : option (list string)) :
  (forall q, In q (ActiveQuizScreen.orderedQuestions quiz ids) <->
     In q (Quiz.questions quiz) /\
     ActiveQuizScreen.hasCorrectAnswer q = true /\
     (ActiveQuizScreen.nonEmptyIds ids = true ->
      exists l, ids = Some l /\ In (Question.id q) l)) /\
  ascending (ActiveQuizScreen.orderedQuestions quiz ids) /\
  (forall q, In q (ActiveQuizScreen.orderedQuestions quiz ids) ->
     ActiveQuizScreen.correctIds q <> [] /\
     ActiveQuizScreen.selectionIsCorrect (ActiveQuizScreen.correctIds q) q = true) /\
  ActiveQuizScreen.questionsInPlay (Some quiz) false false ids [] []
  = ActiveQuizScreen.orderedQuestions quiz ids /\
  (forall shuffle shuffleAnswers draws answerDraws,
     ActiveQuizScreen.questionsInPlay None shuffle shuffleAnswers ids draws answerDraws
     = []).
Proof.
  split; [apply orderedQuestions_In |].
  split; [apply sortedQuestions_ascending |].
  split; [| done].
  intros q Hq. apply orderedQuestions_In in Hq as (_ & Hc & _).
  split; [by apply correctIds_nonempty | apply selectionIsCorrect_correctIds].
Qed.

Lemma filter_Permutation {A} (p : A -> bool) (l l' : list A) :
  l ≡ₚ l' -> List.filter p l ≡ₚ List.filter p l'.
Proof.
  induction 1 as [| x l l' _ IH | x y l | l l' l'' _ IH1 _ IH2]; simpl.
  - done.
  - destruct (p x); [by apply Permutation_skip | done].
  - destruct (p x), (p y); try done. apply Permutation_swap.
  - by etransitivity.
Qed.

Lemma correctIds_Permutation (q q0 : Question.t) :
  Question.answers q ≡ₚ Question.answers q0 ->
  ActiveQuizScreen.correctIds q ≡ₚ ActiveQuizScreen.correctIds q0.
Proof.
  intros Hperm. unfold ActiveQuizScreen.correctIds.
  apply Permutation_map. by apply filter_Permutation.
Qed.

(** The judgement of a selection does not depend on the order of the
    answers. *)
Lemma selectionIsCorrect_Permutation (selected : list string) (q q0 : Question.t) :
  Question.answers q ≡ₚ Question.answers q0 ->
  ActiveQuizScreen.selectionIsCorrect selected q
  = ActiveQuizScreen.selectionIsCorrect selected q0.
Proof.
  intros Hperm. apply correctIds_Permutation in Hperm.
  unfold ActiveQuizScreen.selectionIsCorrect.
  rewrite (Permutation_length Hperm). f_equal.
  induction selected as [| id selected IH]; [done |].
  cbn [forallb]. f_equal; [| exact IH].
  apply eq_iff_eq_true.
  rewrite !includes_In, <- !list_elem_of_In. by rewrite Hperm.
Qed.

(** X17: shuffling changes the order only.  With valid draws, the questions
    in play have the ids of the unshuffled questions, each as often; every
    question in play is one of the unshuffled questions with its answers
    rearranged (same id, text, order index and images), and every selection
    is judged on it exactly as on the unshuffled question. *)
Theorem questionsInPlay_shuffle_keeps_content (quiz : Quiz.t)
    (shuffle shuffleAnswers : bool) (ids : option (list string))
    (draws : list nat) (answerDraws : list (list nat)) :
  let ordered := ActiveQuizScreen.orderedQuestions quiz ids in
  let shuffled := if shuffle then ActiveQuizScreen.shuffleArray draws ordered
                  else ordered in
  let inPlay := ActiveQuizScreen.questionsInPlay (Some quiz) shuffle shuffleAnswers
                  ids draws answerDraws in
  (shuffle = true -> ActiveQuizScreen.validDraws (length ordered - 1) draws) ->
  (shuffleAnswers = true -> validAnswerDraws shuffled answerDraws) ->
  map Question.id inPlay ≡ₚ map Question.id ordered /\
  length inPlay = length ordered /\
  forall q, In q inPlay ->
    exists q0, In q0 ordered /\
      Question.id q = Question.id q0 /\
      Question.text q = Question.text q0 /\
      Question.orderIndex q = Question.orderIndex q0 /\
      Question.images q = Question.images q0 /\
      Question.answers q ≡ₚ Question.answers q0 /\
      forall selected,
        ActiveQuizScreen.selectionIsCorrect selected q
        = ActiveQuizScreen.selectionIsCorrect selected q0.
Proof.
  intros ordered shuffled inPlay _ _.
  assert (Hshuffled : shuffled ≡ₚ ordered).
  { unfold shuffled. destruct shuffle; [apply shuffleArray_Permutation | done]. }
  assert (Hfrom : forall q, In q inPlay ->
            exists q0, In q0 shuffled /\
              Question.id q = Question.id q0 /\
              Question.text q = Question.text q0 /\
              Question.orderIndex q = Question.orderIndex q0 /\
              Question.images q = Question.images q0 /\
              Question.answers q ≡ₚ Question.answers q0).
  { intros q Hq. unfold inPlay, ActiveQuizScreen.questionsInPlay in Hq.
    fold ordered in Hq. fold shuffled in Hq.
    destruct shuffleAnswers.
    - apply list_elem_of_In, list_elem_of_lookup in Hq as [i Hi].
      rewrite list_lookup_imap in Hi.
      destruct (shuffled !! i) as [q0 |] eqn:Hq0; [| done].
      injection Hi as <-. exists q0. split.
      + apply list_elem_of_In, list_elem_of_lookup. by exists i.
      + repeat split; try done. simpl. apply shuffleArray_Permutation.
    - exists q. by repeat split. }
  assert (Hids : map Question.id inPlay = map Question.id shuffled).
  { unfold inPlay, ActiveQuizScreen.questionsInPlay.
    fold ordered. fold shuffled. destruct shuffleAnswers; [| done].
    apply list_eq. intros i. rewrite !list_lookup_fmap, list_lookup_imap.
    by destruct (shuffled !! i). }
  split; [by rewrite Hids, Hshuffled |].
  split.
  - rewrite <- (length_map Question.id inPlay), Hids, length_map.
    by rewrite Hshuffled.
  - intros q Hq. destruct (Hfrom q Hq) as (q0 & Hq0 & Hid & Htext & Hidx & Himg & Hans).
    exists q0. split.
    + apply list_elem_of_In. rewrite <- Hshuffled. by apply list_elem_of_In.
    + repeat split; try done. intros selected.
      by apply selectionIsCorrect_Permutation.
Qed.

Lemma questionsInPlay_shuffle_keeps_content_witness :
  map Question.id
    (ActiveQuizScreen.questionsInPlay (Some playQuiz) true true None
       [0; 0]%nat [[1]; [0]; [0; 0]]%nat)
  = ["b"; "c"; "a"] /\
  map (fun q => map Answer.id (Question.answers q))
    (ActiveQuizScreen.questionsInPlay (Some playQuiz) true true None
       [0; 0]%nat [[1]; [0]; [0; 0]]%nat)
  = [["b1"; "b2"]; ["c2"; "c1"]; ["a2"; "a3"; "a1"]] /\
  map Question.id
    (ActiveQuizScreen.questionsInPlay (Some playQuiz) true true None
       [0; 0]%nat [[1]; [0]; [0; 0]]%nat)
  ≡ₚ map Question.id (ActiveQuizScreen.orderedQuestions playQuiz None).
Proof.
  split; [reflexivity |]. split; [reflexivity |].
  apply (questionsInPlay_shuffle_keeps_content playQuiz true true None
           [0; 0]%nat [[1]; [0]; [0; 0]]%nat).
  - intros _. vm_compute. lia.
  - intros _ [| [| [| i]]] q [= <-]; vm_compute; lia.
Defined.

(** ** Selecting answers *)

Lemma toggle_In (answerId : string) (prev : list string) (id : string) :
  In id (ActiveQuizScreen.toggle answerId prev) <->
  (id = answerId /\ ~ In answerId prev) \/ (id <> answerId /\ In id prev).
Proof.
  unfold ActiveQuizScreen.toggle.
  destruct (ActiveQuizScreen.includes answerId prev) eqn:Hinc.
  - apply includes_In in Hinc. rewrite filter_In, negb_true_iff, String.eqb_neq.
    split.
    + intros [Hin Hne]. by right.
    + intros [[_ Hnot] | [Hne Hin]]; [done | by split].
  - assert (Hnot : ~ In answerId prev).
    { intros Hin. apply includes_In in Hin. congruence. }
    rewrite in_app_iff. simpl. split.
    + intros [Hin | [<- | []]].
      * right. split; [| done]. by intros ->.
      * by left.
    + intros [[-> _] | [_ Hin]]; [right; by left | by left].
Qed.

Lemma toggle_toggle (answerId : string) (prev : list string) :
  NoDup prev ->
  ActiveQuizScreen.toggle answerId (ActiveQuizScreen.toggle answerId prev) ≡ₚ prev.
Proof.
  intros Hnd. apply NoDup_Permutation; [| done |].
  - by do 2 apply toggle_NoDup.
  - intros id. rewrite !list_elem_of_In, !toggle_In.
    destruct (String.string_dec id answerId) as [-> | Hne]; [| tauto].
    destruct (in_dec String.string_dec answerId prev); tauto.
Qed.

Lemma selectionIsCorrect_selection_Permutation (selected selected' : list string)
    (q : Question.t) :
  selected ≡ₚ selected' ->
  ActiveQuizScreen.selectionIsCorrect selected q
  = ActiveQuizScreen.selectionIsCorrect selected' q.
Proof.
  intros Hperm. unfold ActiveQuizScreen.selectionIsCorrect.
  rewrite (Permutation_length Hperm). f_equal.
  apply eq_iff_eq_true. rewrite !forallb_forall.
  split; intros Hall id Hid; apply Hall;
    apply list_elem_of_In; apply list_elem_of_In in Hid;
    [by rewrite Hperm | by rewrite <- Hperm].
Qed.

(** X18: tapping an answer.  After the question is submitted a tap changes
    nothing.  Before, it flips the membership of the tapped id in the
    selection and of no other id, and leaves the position and the recorded
    answers alone; tapping the same answer twice gives back the same set of
    selected ids, so every question judges the selection as before. *)
Theorem handleAnswerSelect_flips_one_answer (answerId : string)
    (s : ActiveQuizScreen.Session) :
  let s' := ActiveQuizScreen.handleAnswerSelect answerId s in
  let s'' := ActiveQuizScreen.handleAnswerSelect answerId s' in
  (ActiveQuizScreen.isSubmitted s = true -> s' = s) /\
  (ActiveQuizScreen.isSubmitted s = false ->
   (In answerId (ActiveQuizScreen.selectedAnswerIds s') <->
    ~ In answerId (ActiveQuizScreen.selectedAnswerIds s)) /\
   (forall id, id <> answerId ->
      (In id (ActiveQuizScreen.selectedAnswerIds s') <->
       In id (ActiveQuizScreen.selectedAnswerIds s)))) /\
  ActiveQuizScreen.answers s' = ActiveQuizScreen.answers s /\
  ActiveQuizScreen.currentIndex s' = ActiveQuizScreen.currentIndex s /\
  ActiveQuizScreen.isSubmitted s' = ActiveQuizScreen.isSubmitted s /\
  (NoDup (ActiveQuizScreen.selectedAnswerIds s) ->
   ActiveQuizScreen.selectedAnswerIds s'' ≡ₚ ActiveQuizScreen.selectedAnswerIds s /\
   forall q, ActiveQuizScreen.selectionIsCorrect (ActiveQuizScreen.selectedAnswerIds s'') q
             = ActiveQuizScreen.selectionIsCorrect (ActiveQuizScreen.selectedAnswerIds s) q).
Proof.
  intros s' s''. unfold s'', s', ActiveQuizScreen.handleAnswerSelect.
  destruct (ActiveQuizScreen.isSubmitted s) eqn:Hsub; rewrite ?Hsub; simpl; rewrite ?Hsub.
  - repeat split; try done.
  - split; [done |]. split; [| repeat split; try done].
    + intros _. split.
      * rewrite toggle_In. tauto.
      * intros id Hne. rewrite toggle_In. tauto.
    + by apply toggle_toggle.
    + intros q. apply selectionIsCorrect_selection_Permutation.
      by apply toggle_toggle.
Qed.

(** ** Progress of a session *)

Lemma progressInvariant_fresh (s : ActiveQuizScreen.Session) :
  ActiveQuizScreen.fresh s -> progressInvariant s.
Proof.
  intros (Hidx & _ & Hsub & Hans).
  unfold progressInvariant, answeredUpTo, counted.
  rewrite Hidx, Hans, Hsub. repeat split.
  - lia.
  - by intros a [].
  - left. simpl. lia.
  - done.
Qed.

Lemma appendAnswer_In (a x : QuizRunAnswer.t) (prev : list QuizRunAnswer.t) :
  In x (ActiveQuizScreen.appendAnswer a prev) -> In x prev \/ x = a.
Proof.
  unfold ActiveQuizScreen.appendAnswer. destruct (existsb _ prev); [by left |].
  rewrite in_app_iff. simpl. intros [? | [-> | []]]; [by left | by right].
Qed.

Lemma appendAnswer_has_id (a : QuizRunAnswer.t) (prev : list QuizRunAnswer.t) :
  In (QuizRunAnswer.questionId a)
     (map QuizRunAnswer.questionId (ActiveQuizScreen.appendAnswer a prev)).
Proof.
  unfold ActiveQuizScreen.appendAnswer. destruct (existsb _ prev) eqn:Hex.
  - apply existsb_exists in Hex as (x & Hin & Heq). apply String.eqb_eq in Heq.
    apply in_map_iff. by exists x.
  - rewrite map_app, in_app_iff. right. by left.
Qed.

Lemma step_progressInvariant (s s' : ActiveQuizScreen.Session) :
  ActiveQuizScreen.step s s' -> progressInvariant s -> progressInvariant s'.
Proof.
  intros Hstep Hinv. pose proof Hinv as (Hidx & Hans & Hcnt & Hsub).
  inversion Hstep; subst.
  - unfold ActiveQuizScreen.handleAnswerSelect.
    destruct (ActiveQuizScreen.isSubmitted s) eqn:Hs; [done |].
    repeat split; try done.
  - unfold ActiveQuizScreen.handleSubmit.
    destruct (ActiveQuizScreen.selectedAnswerIds s) as [| id sel] eqn:Hsel; [done |].
    destruct (ActiveQuizScreen.questions s !! ActiveQuizScreen.currentIndex s)
      as [q |] eqn:Hq; [| done].
    assert (Hcur : currentAnswered
              (ActiveQuizScreen.mk (ActiveQuizScreen.testId s)
                 (ActiveQuizScreen.quizTitle s) (ActiveQuizScreen.questions s)
                 (ActiveQuizScreen.isMiniRun s) (ActiveQuizScreen.activePausedRunId s)
                 (ActiveQuizScreen.currentIndex s) (id :: sel) true
                 (ActiveQuizScreen.appendAnswer
                    (ActiveQuizScreen.newAnswer (id :: sel) q)
                    (ActiveQuizScreen.answers s)))).
    { exists q. split; [done |]. simpl.
      apply (appendAnswer_has_id (ActiveQuizScreen.newAnswer (id :: sel) q)). }
    repeat split; try done.
    + intros a Ha. simpl in Ha. apply appendAnswer_In in Ha as [Ha | ->].
      * by apply Hans.
      * exists (ActiveQuizScreen.currentIndex s), q. repeat split; done.
    + destruct Hcnt as [Hle | [Hle Hcur']].
      * right. split; [| done]. simpl.
        unfold ActiveQuizScreen.appendAnswer. destruct (existsb _ _); [lia |].
        rewrite length_app. simpl. lia.
      * right. split; [| done]. simpl.
        destruct Hcur' as (q' & Hq' & Hin). rewrite Hq in Hq'. injection Hq' as <-.
        apply in_map_iff in Hin as (x & Hx & Hin).
        rewrite appendAnswer_present; [done |]. by exists x.
  - unfold ActiveQuizScreen.handleNext. repeat split; simpl; try done.
    + intros a Ha. destruct (Hans a Ha) as (i & q & Hi & Hq & Hrec).
      exists i, q. split; [simpl; lia | by split].
    + left. simpl. destruct Hcnt as [Hle | [Hle _]]; lia.
Qed.

Lemma run_progressInvariant (s0 s : ActiveQuizScreen.Session) :
  rtc ActiveQuizScreen.step s0 s ->
  progressInvariant s0 ->
  progressInvariant s /\
  ActiveQuizScreen.questions s = ActiveQuizScreen.questions s0 /\
  ActiveQuizScreen.testId s = ActiveQuizScreen.testId s0 /\
  ActiveQuizScreen.isMiniRun s = ActiveQuizScreen.isMiniRun s0 /\
  ActiveQuizScreen.activePausedRunId s = ActiveQuizScreen.activePausedRunId s0.
Proof.
  induction 1 as [s | s1 s2 s3 Hstep _ IH]; [done |].
  intros Hinv. destruct IH as (Hinv3 & Hq & Ht & Hm & Hp).
  { by apply (step_progressInvariant s1 s2). }
  split; [done |].
  rewrite Hq, Ht, Hm, Hp. inversion Hstep; subst; try done.
  - unfold ActiveQuizScreen.handleAnswerSelect.
    by destruct (ActiveQuizScreen.isSubmitted s1).
  - unfold ActiveQuizScreen.handleSubmit.
    destruct (ActiveQuizScreen.selectedAnswerIds s1); [done |].
    by destruct (ActiveQuizScreen.questions s1 !! ActiveQuizScreen.currentIndex s1).
Qed.

(** X19: a session started afresh and driven by taps, submissions and moves
    to the next question keeps its question list, stays on a position inside
    it, and records only what was submitted: every recorded answer belongs
    to a question shown so far, has a non-empty selection and the verdict
    [handleSubmit] computes for that selection; there is at most one answer
    per question id, at most one answer per question shown, and never more
    answers than questions; and once the question on screen is submitted an
    answer is recorded under its id. *)
Theorem session_records_what_was_submitted (s0 s : ActiveQuizScreen.Session) :
  ActiveQuizScreen.fresh s0 ->
  rtc ActiveQuizScreen.step s0 s ->
  ActiveQuizScreen.questions s = ActiveQuizScreen.questions s0 /\
  (ActiveQuizScreen.currentIndex s <= length (ActiveQuizScreen.questions s) - 1)%nat /\
  (forall a, In a (ActiveQuizScreen.answers s) ->
     exists i q, (i <= ActiveQuizScreen.currentIndex s)%nat /\
       ActiveQuizScreen.questions s !! i = Some q /\
       QuizRunAnswer.questionId a = Question.id q /\
       QuizRunAnswer.selectedAnswerIds a <> [] /\
       QuizRunAnswer.isCorrect a
       = ActiveQuizScreen.selectionIsCorrect (QuizRunAnswer.selectedAnswerIds a) q) /\
  uniqueAnswers s /\
  (length (ActiveQuizScreen.answers s) <= S (ActiveQuizScreen.currentIndex s))%nat /\
  (length (ActiveQuizScreen.answers s) <= length (ActiveQuizScreen.questions s))%nat /\
  (ActiveQuizScreen.isSubmitted s = true -> currentAnswered s).
Proof.
  intros Hfresh Hrun.
  destruct (run_progressInvariant s0 s Hrun (progressInvariant_fresh s0 Hfresh))
    as ((Hidx & Hans & Hcnt & Hsub) & Hq & _).
  destruct (reachable_invariants s0 s Hfresh Hrun) as [_ Huniq].
  repeat split; try done.
  - intros a Ha. destruct (Hans a Ha) as (i & q & Hi & Hqi & Hrec & Hne).
    exists i, q. repeat split; try done; by rewrite Hrec.
  - destruct Hcnt as [Hle | [Hle _]]; lia.
  - destruct Hcnt as [Hle | [Hle (q & Hcur & _)]].
    + lia.
    + apply lookup_lt_Some in Hcur. lia.
Qed.

Lemma session_records_what_was_submitted_witness :
  ActiveQuizScreen.answers afterFirstQuestion = [QuizRunAnswer.mk "q1" ["A"] false] /\
  ActiveQuizScreen.currentIndex afterFirstQuestion = 1%nat /\
  uniqueAnswers afterFirstQuestion /\
  (length (ActiveQuizScreen.answers afterFirstQuestion)
   <= length (ActiveQuizScreen.questions afterFirstQuestion))%nat.
Proof.
  split; [reflexivity |]. split; [reflexivity |].
  assert (Hfresh : ActiveQuizScreen.fresh (sessionAt 0 [])) by (by repeat split).
  assert (Hrun : rtc ActiveQuizScreen.step (sessionAt 0 []) afterFirstQuestion).
  { eapply rtc_l; [apply (ActiveQuizScreen.step_select "A") |].
    eapply rtc_l; [apply ActiveQuizScreen.step_submit |].
    eapply rtc_l; [apply ActiveQuizScreen.step_next; simpl; lia |].
    apply rtc_refl. }
  destruct (session_records_what_was_submitted (sessionAt 0 []) afterFirstQuestion
              Hfresh Hrun) as (_ & _ & _ & Huniq & _ & Hlen & _).
  by split.
Defined.

(** ** Pausing and resuming *)

Lemma saved_id_nonempty (generated : string) (id : option string) :
  generated <> EmptyString -> default generated (truthy id) <> EmptyString.
Proof. intros Hgen. by destruct id as [[| c r] |]. Qed.

Lemma truthy_nonempty (id : string) :
  id <> EmptyString -> truthy (Some id) = Some id.
Proof. by destruct id. Qed.

Lemma handlePause_saves (generated : string) (now : Z)
    (params : ActiveQuizScreen.RouteParams) (s : ActiveQuizScreen.Session)
    (st : Store.StoreState) :
  ActiveQuizScreen.isMiniRun s = false ->
  ActiveQuizScreen.handlePause generated now params s st
  = (Some (default generated (truthy (ActiveQuizScreen.activePausedRunId s))),
     snd (Store.savePausedRun generated now
            (ActiveQuizScreen.pauseRecord params s st) st)).
Proof. intros Hmini. unfold ActiveQuizScreen.handlePause. by rewrite Hmini. Qed.

Lemma pausedRunOf_resume (pausedRunId testId : string) (st : Store.StoreState) :
  pausedRunId <> EmptyString ->
  ActiveQuizScreen.pausedRunOf (ActiveQuizScreen.resumeParams pausedRunId testId) st
  = Store.getPausedRun pausedRunId st.
Proof.
  intros Hne. unfold ActiveQuizScreen.pausedRunOf, ActiveQuizScreen.resumeParams.
  cbn [ActiveQuizScreen.p_pausedRunId]. by rewrite truthy_nonempty.
Qed.

Lemma questionsInPlay_unshuffled (quiz : option Quiz.t) (ids : option (list string))
    (draws draws' : list nat) (answerDraws answerDraws' : list (list nat)) :
  ActiveQuizScreen.questionsInPlay quiz false false ids draws answerDraws
  = ActiveQuizScreen.questionsInPlay quiz false false ids draws' answerDraws'.
Proof. by destruct quiz. Qed.

(** X20: pausing and resuming.  [handlePause] on a session that is not a
    practice session saves it under its paused-run id (a generated one the
    first time) and touches nothing but the paused runs.  The session that
    [handleResumeRun] then starts from the saved record is on the same quiz
    at the same position with the same selection and the same recorded
    answers, not submitted, with the same shuffle settings and id subset;
    its questions are those of the original parameters for the same draws,
    hence the same questions in the same order whenever nothing is
    shuffled. *)
Theorem handlePause_then_resume (generated : string) (now : Z)
    (params : ActiveQuizScreen.RouteParams) (s : ActiveQuizScreen.Session)
    (st : Store.StoreState) (draws : list nat) (answerDraws : list (list nat)) :
  generated <> EmptyString ->
  ActiveQuizScreen.isMiniRun s = false ->
  ActiveQuizScreen.testId s = ActiveQuizScreen.p_testId params ->
  let newId := default generated (truthy (ActiveQuizScreen.activePausedRunId s)) in
  let st' := snd (ActiveQuizScreen.handlePause generated now params s st) in
  let resume := ActiveQuizScreen.resumeParams newId (ActiveQuizScreen.testId s) in
  let resumed := ActiveQuizScreen.start resume st' draws answerDraws in
  fst (ActiveQuizScreen.handlePause generated now params s st) = Some newId /\
  Store.quizzes st' = Store.quizzes st /\
  Store.runs st' = Store.runs st /\
  Store.streak st' = Store.streak st /\
  Store.diamonds st' = Store.diamonds st /\
  ActiveQuizScreen.testId resumed = ActiveQuizScreen.testId s /\
  ActiveQuizScreen.currentIndex resumed = ActiveQuizScreen.currentIndex s /\
  ActiveQuizScreen.selectedAnswerIds resumed = ActiveQuizScreen.selectedAnswerIds s /\
  ActiveQuizScreen.answers resumed = ActiveQuizScreen.answers s /\
  ActiveQuizScreen.isSubmitted resumed = false /\
  ActiveQuizScreen.activePausedRunId resumed = Some newId /\
  ActiveQuizScreen.effectiveShuffle resume st'
  = ActiveQuizScreen.effectiveShuffle params st /\
  ActiveQuizScreen.effectiveShuffleAnswers resume st'
  = ActiveQuizScreen.effectiveShuffleAnswers params st /\
  ActiveQuizScreen.effectiveQuestionIds resume st'
  = ActiveQuizScreen.effectiveQuestionIds params st /\
  ActiveQuizScreen.questions resumed
  = ActiveQuizScreen.questions (ActiveQuizScreen.start params st draws answerDraws) /\
  (ActiveQuizScreen.effectiveShuffle params st = false ->
   ActiveQuizScreen.effectiveShuffleAnswers params st = false ->
   forall draws0 answerDraws0,
     ActiveQuizScreen.questions resumed
     = ActiveQuizScreen.questions
         (ActiveQuizScreen.start params st draws0 answerDraws0)).
Proof.
  intros Hgen Hmini Htest newId st' resume resumed.
  assert (Hne : newId <> EmptyString) by (by apply saved_id_nonempty).
  assert (Hpaused :
    ActiveQuizScreen.pausedRunOf resume st'
    = Some (PausedRun.mk newId (ActiveQuizScreen.testId s)
              (Z.of_nat (ActiveQuizScreen.currentIndex s))
              (ActiveQuizScreen.selectedAnswerIds s) (ActiveQuizScreen.answers s) now
              (ActiveQuizScreen.effectiveShuffle params st)
              (Some (ActiveQuizScreen.effectiveShuffleAnswers params st))
              (ActiveQuizScreen.effectiveQuestionIds params st))).
  { unfold resume. rewrite pausedRunOf_resume by done.
    unfold st'. rewrite handlePause_saves by done. cbn [snd].
    rewrite savePausedRun_lookup. cbn [ActiveQuizScreen.pauseRecord PausedInput.id].
    fold newId. by rewrite String.eqb_refl. }
  assert (Hquizzes : Store.quizzes st' = Store.quizzes st).
  { unfold st'. by rewrite handlePause_saves by done. }
  assert (Hshuffle : ActiveQuizScreen.effectiveShuffle resume st'
                     = ActiveQuizScreen.effectiveShuffle params st).
  { unfold ActiveQuizScreen.effectiveShuffle at 1. by rewrite Hpaused. }
  assert (Hanswers : ActiveQuizScreen.effectiveShuffleAnswers resume st'
                     = ActiveQuizScreen.effectiveShuffleAnswers params st).
  { unfold ActiveQuizScreen.effectiveShuffleAnswers at 1. by rewrite Hpaused. }
  assert (Hids : ActiveQuizScreen.effectiveQuestionIds resume st'
                 = ActiveQuizScreen.effectiveQuestionIds params st).
  { unfold ActiveQuizScreen.effectiveQuestionIds at 1. by rewrite Hpaused. }
  assert (Hquestions : ActiveQuizScreen.questions resumed
    = ActiveQuizScreen.questions (ActiveQuizScreen.start params st draws answerDraws)).
  { unfold resumed, ActiveQuizScreen.start. cbn [ActiveQuizScreen.questions].
    rewrite Hshuffle, Hanswers, Hids.
    unfold Store.getQuiz. rewrite Hquizzes.
    unfold resume. cbn [ActiveQuizScreen.resumeParams ActiveQuizScreen.p_testId].
    by rewrite Htest. }
  split; [by rewrite handlePause_saves by done |].
  split; [done |].
  split; [unfold st'; by rewrite handlePause_saves by done |].
  split; [unfold st'; by rewrite handlePause_saves by done |].
  split; [unfold st'; by rewrite handlePause_saves by done |].
  split; [done |].
  split; [unfold resumed, ActiveQuizScreen.start; cbn [ActiveQuizScreen.currentIndex];
          rewrite Hpaused; cbn [PausedRun.currentQuestionIndex]; lia |].
  split; [unfold resumed, ActiveQuizScreen.start;
          cbn [ActiveQuizScreen.selectedAnswerIds]; by rewrite Hpaused |].
  split; [unfold resumed, ActiveQuizScreen.start;
          cbn [ActiveQuizScreen.answers]; by rewrite Hpaused |].
  split; [done |]. split; [done |].
  split; [done |]. split; [done |]. split; [done |]. split; [done |].
  intros Hs Ha draws0 answerDraws0. rewrite Hquestions.
  unfold ActiveQuizScreen.start. cbn [ActiveQuizScreen.questions].
  rewrite Hs, Ha. apply questionsInPlay_unshuffled.
Qed.

Lemma handlePause_then_resume_witness :
  ActiveQuizScreen.handlePause "p1" 5 playParams playSession playStore
  = (Some "p1",
     Store.mk [playQuiz] []
       [PausedRun.mk "p1" "quiz1" 0 ["a1"] [] 5 false (Some false) None]
       defaultSettings defaultStreak 0%float) /\
  ActiveQuizScreen.selectedAnswerIds
    (ActiveQuizScreen.start (ActiveQuizScreen.resumeParams "p1" "quiz1")
       (snd (ActiveQuizScreen.handlePause "p1" 5 playParams playSession playStore))
       [] [])
  = ["a1"] /\
  ActiveQuizScreen.questions
    (ActiveQuizScreen.start (ActiveQuizScreen.resumeParams "p1" "quiz1")
       (snd (ActiveQuizScreen.handlePause "p1" 5 playParams playSession playStore))
       [] [])
  = ActiveQuizScreen.questions playSession.
Proof.
  split; [reflexivity |].
  assert (Hgen : "p1" <> EmptyString) by done.
  destruct (handlePause_then_resume "p1" 5 playParams playSession playStore [] []
              Hgen eq_refl eq_refl)
    as (_ & _ & _ & _ & _ & _ & _ & Hsel & _ & _ & _ & _ & _ & _ & Hq & _).
  split; [exact Hsel | exact Hq].
Defined.

Lemma handleBackground_saves (generated : string) (now : Z)
    (params : ActiveQuizScreen.RouteParams) (s : ActiveQuizScreen.Session)
    (st : Store.StoreState) :
  ActiveQuizScreen.isMiniRun s = false ->
  ActiveQuizScreen.isSubmitted s = false ->
  ActiveQuizScreen.handleBackground generated now params s st
  = (ActiveQuizScreen.mk (ActiveQuizScreen.testId s) (ActiveQuizScreen.quizTitle s)
       (ActiveQuizScreen.questions s) (ActiveQuizScreen.isMiniRun s)
       (Some (default generated (truthy (ActiveQuizScreen.activePausedRunId s))))
       (ActiveQuizScreen.currentIndex s) (ActiveQuizScreen.selectedAnswerIds s)
       (ActiveQuizScreen.isSubmitted s) (ActiveQuizScreen.answers s),
     snd (Store.savePausedRun generated now
            (ActiveQuizScreen.pauseRecord params s st) st)).
Proof.
  intros Hmini Hsub. unfold ActiveQuizScreen.handleBackground.
  by rewrite Hmini, Hsub.
Qed.

(** X21: saving in the background.  When the app goes to the background
    during a question that is not yet submitted, a session that is not a
    practice session is saved and remembers the id of its record; the
    session itself is otherwise untouched.  A second save of the same
    session goes to the same record: the list of paused runs keeps its ids
    and the record holds the state and the time of the latest save. *)
Theorem handleBackground_keeps_one_record (generated generated' : string)
    (now now' : Z) (params : ActiveQuizScreen.RouteParams)
    (s : ActiveQuizScreen.Session) (st : Store.StoreState) :
  generated <> EmptyString ->
  ActiveQuizScreen.isMiniRun s = false ->
  ActiveQuizScreen.isSubmitted s = false ->
  let newId := default generated (truthy (ActiveQuizScreen.activePausedRunId s)) in
  let s1 := fst (ActiveQuizScreen.handleBackground generated now params s st) in
  let st1 := snd (ActiveQuizScreen.handleBackground generated now params s st) in
  let s2 := fst (ActiveQuizScreen.handleBackground generated' now' params s1 st1) in
  let st2 := snd (ActiveQuizScreen.handleBackground generated' now' params s1 st1) in
  ActiveQuizScreen.activePausedRunId s1 = Some newId /\
  ActiveQuizScreen.questions s1 = ActiveQuizScreen.questions s /\
  ActiveQuizScreen.currentIndex s1 = ActiveQuizScreen.currentIndex s /\
  ActiveQuizScreen.selectedAnswerIds s1 = ActiveQuizScreen.selectedAnswerIds s /\
  ActiveQuizScreen.answers s1 = ActiveQuizScreen.answers s /\
  ActiveQuizScreen.isSubmitted s1 = false /\
  In newId (map PausedRun.id (Store.pausedRuns st1)) /\
  s2 = s1 /\
  map PausedRun.id (Store.pausedRuns st2) = map PausedRun.id (Store.pausedRuns st1) /\
  exists saved,
    Store.getPausedRun newId st2 = Some saved /\
    PausedRun.timestamp saved = now' /\
    PausedRun.quizId saved = ActiveQuizScreen.testId s /\
    PausedRun.currentQuestionIndex saved = Z.of_nat (ActiveQuizScreen.currentIndex s) /\
    PausedRun.selectedAnswerIds saved = ActiveQuizScreen.selectedAnswerIds s /\
    PausedRun.answers saved = ActiveQuizScreen.answers s.
Proof.
  intros Hgen Hmini Hsub newId s1 st1 s2 st2.
  assert (Hne : newId <> EmptyString) by (by apply saved_id_nonempty).
  assert (Hs1 : s1 = ActiveQuizScreen.mk (ActiveQuizScreen.testId s)
                  (ActiveQuizScreen.quizTitle s) (ActiveQuizScreen.questions s)
                  (ActiveQuizScreen.isMiniRun s) (Some newId)
                  (ActiveQuizScreen.currentIndex s)
                  (ActiveQuizScreen.selectedAnswerIds s)
                  (ActiveQuizScreen.isSubmitted s) (ActiveQuizScreen.answers s)).
  { unfold s1. by rewrite handleBackground_saves by done. }
  assert (Hst1 : st1 = snd (Store.savePausedRun generated now
                              (ActiveQuizScreen.pauseRecord params s st) st)).
  { unfold st1. by rewrite handleBackground_saves by done. }
  assert (Hmini1 : ActiveQuizScreen.isMiniRun s1 = false) by (by rewrite Hs1).
  assert (Hsub1 : ActiveQuizScreen.isSubmitted s1 = false) by (by rewrite Hs1).
  assert (Hactive1 : default generated' (truthy (ActiveQuizScreen.activePausedRunId s1))
                     = newId).
  { rewrite Hs1. cbn [ActiveQuizScreen.activePausedRunId].
    by rewrite truthy_nonempty. }
  assert (Hin : In newId (map PausedRun.id (Store.pausedRuns st1))).
  { rewrite Hst1, savePausedRun_ids.
    cbn [ActiveQuizScreen.pauseRecord PausedInput.id]. fold newId.
    case_bool_decide as Hold; [by apply list_elem_of_In | by left]. }
  assert (Hs2 : s2 = s1).
  { unfold s2. rewrite handleBackground_saves by done. cbn [fst].
    rewrite Hactive1. by rewrite Hs1. }
  assert (Hst2 : st2 = snd (Store.savePausedRun generated' now'
                              (ActiveQuizScreen.pauseRecord params s1 st1) st1)).
  { unfold st2. by rewrite handleBackground_saves by done. }
  split; [by rewrite Hs1 |]. split; [by rewrite Hs1 |]. split; [by rewrite Hs1 |].
  split; [by rewrite Hs1 |]. split; [by rewrite Hs1 |]. split; [done |].
  split; [done |]. split; [done |]. split.
  - rewrite Hst2, savePausedRun_ids.
    cbn [ActiveQuizScreen.pauseRecord PausedInput.id]. rewrite Hactive1.
    by rewrite bool_decide_eq_true_2 by (by apply list_elem_of_In).
  - eexists. split.
    + rewrite Hst2, savePausedRun_lookup.
      cbn [ActiveQuizScreen.pauseRecord PausedInput.id]. rewrite Hactive1.
      by rewrite String.eqb_refl.
    + cbn. by rewrite Hs1.
Qed.

Lemma handleBackground_keeps_one_record_witness :
  map PausedRun.id
    (Store.pausedRuns
       (snd (ActiveQuizScreen.handleBackground "p2" 9 playParams
               (fst (ActiveQuizScreen.handleBackground "p1" 5 playParams
                       playSession playStore))
               (snd (ActiveQuizScreen.handleBackground "p1" 5 playParams
                       playSession playStore)))))
  = ["p1"] /\
  ActiveQuizScreen.activePausedRunId
    (fst (ActiveQuizScreen.handleBackground "p1" 5 playParams playSession playStore))
  = Some "p1".
Proof.
  split; [reflexivity |].
  assert (Hgen : "p1" <> EmptyString) by done.
  destruct (handleBackground_keeps_one_record "p1" "p2" 5 9 playParams playSession
              playStore Hgen eq_refl eq_refl) as (Hactive & _).
  exact Hactive.
Defined.

(** ** Finishing *)




(** ** Practice sessions *)

Lemma step_keeps_setup (s s' : ActiveQuizScreen.Session) :
  ActiveQuizScreen.step s s' ->
  ActiveQuizScreen.questions s' = ActiveQuizScreen.questions s /\
  ActiveQuizScreen.isMiniRun s' = ActiveQuizScreen.isMiniRun s.
Proof.
  intros Hstep. inversion Hstep; subst.
  - unfold ActiveQuizScreen.handleAnswerSelect.
    by destruct (ActiveQuizScreen.isSubmitted s).
  - unfold ActiveQuizScreen.handleSubmit.
    destruct (ActiveQuizScreen.selectedAnswerIds s); [done |].
    by destruct (ActiveQuizScreen.questions s !! ActiveQuizScreen.currentIndex s).
  - done.
Qed.

Lemma run_keeps_setup (s0 s : ActiveQuizScreen.Session) :
  rtc ActiveQuizScreen.step s0 s ->
  ActiveQuizScreen.questions s = ActiveQuizScreen.questions s0 /\
  ActiveQuizScreen.isMiniRun s = ActiveQuizScreen.isMiniRun s0.
Proof.
  induction 1 as [s | s1 s2 s3 Hstep _ [IHq IHm]]; [done |].
  destruct (step_keeps_setup s1 s2 Hstep) as [Hq Hm].
  by rewrite IHq, IHm, Hq, Hm.
Qed.

Lemma questionsInPlay_ids (quiz : option Quiz.t) (shuffle shuffleAnswers : bool)
    (ids : option (list string)) (draws : list nat) (answerDraws : list (list nat))
    (q : Question.t) :
  In q (ActiveQuizScreen.questionsInPlay quiz shuffle shuffleAnswers ids draws
          answerDraws) ->
  exists quiz0 q0, quiz = Some quiz0 /\
    In q0 (ActiveQuizScreen.orderedQuestions quiz0 ids) /\
    Question.id q = Question.id q0.
Proof.
  destruct quiz as [quiz0 |]; [| done]. intros Hq. exists quiz0.
  unfold ActiveQuizScreen.questionsInPlay in Hq.
  set (ordered := ActiveQuizScreen.orderedQuestions quiz0 ids) in *.
  set (shuffled := if shuffle then ActiveQuizScreen.shuffleArray draws ordered
                   else ordered) in *.
  assert (Hshuffled : forall x, In x shuffled -> In x ordered).
  { intros x Hx. unfold shuffled in Hx. destruct shuffle; [| done].
    apply list_elem_of_In. apply list_elem_of_In in Hx.
    by rewrite (shuffleArray_Permutation draws ordered) in Hx. }
  destruct shuffleAnswers.
  - apply list_elem_of_In, list_elem_of_lookup in Hq as [i Hi].
    rewrite list_lookup_imap in Hi.
    destruct (shuffled !! i) as [q0 |] eqn:Hq0; [| done].
    injection Hi as <-. exists q0. repeat split; try done.
    apply Hshuffled, list_elem_of_In, list_elem_of_lookup. by exists i.
  - exists q. repeat split; try done. by apply Hshuffled.
Qed.

(** X23: practice sessions leave no trace.  A session started on a
    non-empty subset of question ids is a practice session and stays one
    whatever is tapped, submitted or skipped to; it shows only questions
    whose id is in the subset; and finishing it, ending it early, pausing it
    or sending the app to the background leaves the store exactly as it is:
    no run, no diamonds, no streak, no paused run. *)
Theorem practice_session_leaves_no_trace (params : ActiveQuizScreen.RouteParams)
    (st : Store.StoreState) (draws : list nat) (answerDraws : list (list nat))
    (s : ActiveQuizScreen.Session) (id : string) (rest : list string) :
  ActiveQuizScreen.p_questionIds params = Some (id :: rest) ->
  rtc ActiveQuizScreen.step (ActiveQuizScreen.start params st draws answerDraws) s ->
  ActiveQuizScreen.isMiniRun s = true /\
  (forall q, In q (ActiveQuizScreen.questions s) -> In (Question.id q) (id :: rest)) /\
  forall (generated newId : string) (timestamp now : Z)
         (finalAnswers : list QuizRunAnswer.t) (st' : Store.StoreState),
    ActiveQuizScreen.finishQuiz newId timestamp now s finalAnswers st' = (None, st') /\
    ActiveQuizScreen.handleEndEarly newId now s st' = (None, st') /\
    ActiveQuizScreen.handlePause generated now params s st' = (None, st') /\
    ActiveQuizScreen.handleBackground generated now params s st' = (s, st').
Proof.
  intros Hids Hrun. destruct (run_keeps_setup _ _ Hrun) as [Hq Hm].
  assert (Hmini : ActiveQuizScreen.isMiniRun s = true).
  { rewrite Hm. unfold ActiveQuizScreen.start. cbn [ActiveQuizScreen.isMiniRun].
    unfold ActiveQuizScreen.isMiniRunOf, ActiveQuizScreen.effectiveQuestionIds.
    by rewrite Hids. }
  split; [done |]. split.
  - intros q Hin. rewrite Hq in Hin. unfold ActiveQuizScreen.start in Hin.
    cbn [ActiveQuizScreen.questions] in Hin.
    apply questionsInPlay_ids in Hin as (quiz0 & q0 & _ & Hq0 & ->).
    apply orderedQuestions_In in Hq0 as (_ & _ & Hsub).
    unfold ActiveQuizScreen.effectiveQuestionIds in Hsub. rewrite Hids in Hsub.
    destruct (Hsub eq_refl) as (l & [= <-] & Hl). done.
  - intros generated newId timestamp now finalAnswers st'.
    unfold ActiveQuizScreen.finishQuiz, ActiveQuizScreen.handleEndEarly,
      ActiveQuizScreen.handlePause, ActiveQuizScreen.handleBackground.
    rewrite Hmini. by destruct (ActiveQuizScreen.calculateIncompleteScore _ _).
Qed.

Lemma practice_session_leaves_no_trace_witness :
  map Question.id (ActiveQuizScreen.questions practiceSession) = ["a"; "c"] /\
  ActiveQuizScreen.answers practiceSession = oneWrongAnswer /\
  ActiveQuizScreen.finishQuiz "r1" 5 (noonOf 20000) practiceSession
    (ActiveQuizScreen.answers practiceSession) playStore
  = (None, playStore).
Proof.
  split; [reflexivity |]. split; [reflexivity |].
  assert (Hrun : rtc ActiveQuizScreen.step
                   (ActiveQuizScreen.start practiceParams playStore [] [])
                   practiceSession).
  { eapply rtc_l; [apply (ActiveQuizScreen.step_select "a1") |].
    eapply rtc_l; [apply ActiveQuizScreen.step_submit |].
    apply rtc_refl. }
  destruct (practice_session_leaves_no_trace practiceParams playStore [] []
              practiceSession "a" ["c"] eq_refl Hrun) as (_ & _ & Hstore).
  destruct (Hstore "p1" "r1" 5 (noonOf 20000)
              (ActiveQuizScreen.answers practiceSession) playStore) as (Hfinish & _).
  exact Hfinish.
Defined.

(** ** Moving a question in the editor *)

Lemma presentedIdsOf_reorderQuestions (quizId : string) (ids : list string)
    (now : Z) (st : Store.StoreState) (quiz : Quiz.t) :
  Store.getQuiz quizId st = Some quiz ->
  (forall id, In id ids -> In id (map Question.id (Quiz.questions quiz))) ->
  presentedIdsOf quizId (Store.reorderQuestions quizId ids now st) = ids.
Proof.
  intros Hget Hall.
  unfold presentedIdsOf. rewrite getQuiz_reorderQuestions, Hget. simpl.
  pose proof (reorderedBy_all_found Z.of_nat ids (Quiz.questions quiz) Hall) as Heq.
  fold (numbered ids) in Heq.
  change (reorderedBy Z.of_nat ids (Quiz.questions quiz))
    with (Store.reordered ids (Quiz.questions quiz)) in Heq.
  destruct (numbered_indexedByPosition _ _ Heq) as [Hpos Hids].
  unfold TestEditorScreen.presentedIds.
  by rewrite sortedQuestions_of_ascending by (by apply indexedByPosition_ascending).
Qed.

Lemma getQuiz_after_reorderQuestions (quizId : string) (ids : list string)
    (now : Z) (st : Store.StoreState) (quiz : Quiz.t) :
  Store.getQuiz quizId st = Some quiz ->
  exists quiz', Store.getQuiz quizId (Store.reorderQuestions quizId ids now st)
                = Some quiz'.
Proof. intros Hget. rewrite getQuiz_reorderQuestions, Hget. by eexists. Qed.

(** Moving the row at position [length l1] down, or the next row up,
    exchanges the two. *)
Lemma handleMoveQuestion_exchange (quizId : string) (now : Z) (st : Store.StoreState)
    (quiz : Quiz.t) (l1 l2 : list string) (x y : string)
    (direction : TestEditorScreen.Direction) :
  quizId <> EmptyString ->
  Store.getQuiz quizId st = Some quiz ->
  presentedIdsOf quizId st = l1 ++ x :: y :: l2 ->
  exists st' quiz',
    TestEditorScreen.handleMoveQuestion (Some quizId)
      (match direction with
       | TestEditorScreen.up => S (length l1)
       | TestEditorScreen.down => length l1
       end) direction now st = Some st' /\
    Store.getQuiz quizId st' = Some quiz' /\
    presentedIdsOf quizId st' = l1 ++ y :: x :: l2.
Proof.
  intros Hne Hget Hpresented.
  unfold presentedIdsOf in Hpresented. rewrite Hget in Hpresented.
  unfold TestEditorScreen.presentedIds in Hpresented.
  set (sorted := TestEditorScreen.sortedQuestions (Quiz.questions quiz)) in *.
  assert (Hsorted : forall q, In q sorted -> In q (Quiz.questions quiz)).
  { intros q. unfold sorted. by rewrite sortedQuestions_In. }
  apply fmap_app_inv in Hpresented as (s1 & rest & -> & Hrest & Hsplit).
  symmetry in Hrest. apply fmap_cons_inv in Hrest as (qx & rest' & -> & Hrest' & ->).
  symmetry in Hrest'. apply fmap_cons_inv in Hrest' as (qy & s2 & -> & -> & ->).
  assert (Hlen : length (Question.id <$> s1) = length s1) by apply length_fmap.
  assert (Hall : forall id,
            In id (map Question.id (s1 ++ qy :: qx :: s2)) ->
            In id (map Question.id (Quiz.questions quiz))).
  { intros id Hid. apply in_map_iff in Hid as (q & <- & Hq). apply in_map.
    apply Hsorted. rewrite Hsplit. rewrite !in_app_iff in *. simpl in *. tauto. }
  assert (Hids : map Question.id (s1 ++ qy :: qx :: s2)
                 = (Question.id <$> s1) ++ Question.id qy :: Question.id qx
                     :: (Question.id <$> s2)).
  { by rewrite map_app. }
  unfold TestEditorScreen.handleMoveQuestion.
  rewrite truthy_nonempty by done. rewrite Hget. fold sorted.
  rewrite Hsplit, Hlen. rewrite length_app. cbn [length].
  destruct direction.
  - rewrite (proj2 (Z.ltb_ge _ _)) by lia.
    rewrite (proj2 (Z.leb_gt _ _)) by lia.
    cbn [orb].
    replace (Z.to_nat (Z.of_nat (S (length s1)) - 1)) with (length s1) by lia.
    change (s1 ++ qx :: qy :: s2) with (s1 ++ [qx] ++ qy :: s2).
    rewrite (app_assoc s1 [qx]).
    rewrite (list_lookup_middle (s1 ++ [qx]) s2 qy (S (length s1)))
      by (rewrite length_app; simpl; lia).
    replace (S (length s1)) with (length (s1 ++ [qx]))
      by (rewrite length_app; simpl; lia).
    rewrite delete_middle, <- app_assoc.
    replace (length (s1 ++ [qx])) with (S (length s1))
      by (rewrite length_app; simpl; lia).
    rewrite take_app_length, drop_app_length.
    eexists. destruct (getQuiz_after_reorderQuestions quizId
                         (map Question.id (s1 ++ qy :: [qx] ++ s2)) now st quiz Hget)
      as [quiz' Hquiz'].
    exists quiz'. split; [reflexivity |]. split; [exact Hquiz' |].
    rewrite (presentedIdsOf_reorderQuestions quizId _ now st quiz Hget) by exact Hall.
    exact Hids.
  - rewrite (proj2 (Z.ltb_ge _ _)) by lia.
    rewrite (proj2 (Z.leb_gt _ _)) by lia.
    cbn [orb].
    replace (Z.to_nat (Z.of_nat (length s1) + 1)) with (S (length s1)) by lia.
    rewrite (list_lookup_middle s1 (qy :: s2) qx (length s1)) by done.
    rewrite delete_middle.
    change (s1 ++ qy :: s2) with (s1 ++ [qy] ++ s2).
    rewrite (app_assoc s1 [qy]).
    replace (S (length s1)) with (length (s1 ++ [qy]))
      by (rewrite length_app; simpl; lia).
    rewrite take_app_length, drop_app_length, <- app_assoc.
    eexists. destruct (getQuiz_after_reorderQuestions quizId
                         (map Question.id (s1 ++ [qy] ++ qx :: s2)) now st quiz Hget)
      as [quiz' Hquiz'].
    exists quiz'. split; [reflexivity |]. split; [exact Hquiz' |].
    rewrite (presentedIdsOf_reorderQuestions quizId _ now st quiz Hget) by exact Hall.
    exact Hids.
Qed.

(** X24: the editor's move buttons.  On a quiz presented as
    [... x, y, ...], moving [x] down or moving [y] up gives [... y, x, ...]
    and leaves the rest of the presented order alone; moving [y] up and then
    down again restores the presented order; moving the first row up or the
    last row down changes nothing. *)
Theorem handleMoveQuestion_swaps_neighbours (quizId : string) (now now' : Z)
    (st : Store.StoreState) (quiz : Quiz.t) (l1 l2 : list string) (x y : string) :
  quizId <> EmptyString ->
  Store.getQuiz quizId st = Some quiz ->
  presentedIdsOf quizId st = l1 ++ x :: y :: l2 ->
  (exists st',
     TestEditorScreen.handleMoveQuestion (Some quizId) (length l1)
       TestEditorScreen.down now st = Some st' /\
     presentedIdsOf quizId st' = l1 ++ y :: x :: l2) /\
  (exists st' st'',
     TestEditorScreen.handleMoveQuestion (Some quizId) (S (length l1))
       TestEditorScreen.up now st = Some st' /\
     presentedIdsOf quizId st' = l1 ++ y :: x :: l2 /\
     TestEditorScreen.handleMoveQuestion (Some quizId) (length l1)
       TestEditorScreen.down now' st' = Some st'' /\
     presentedIdsOf quizId st'' = presentedIdsOf quizId st) /\
  TestEditorScreen.handleMoveQuestion (Some quizId) 0 TestEditorScreen.up now st
  = Some st /\
  TestEditorScreen.handleMoveQuestion (Some quizId)
    (length (presentedIdsOf quizId st) - 1) TestEditorScreen.down now st
  = Some st.
Proof.
  intros Hne Hget Hpresented. split; [| split; [| split]].
  - destruct (handleMoveQuestion_exchange quizId now st quiz l1 l2 x y
                TestEditorScreen.down Hne Hget Hpresented) as (st' & _ & Hmove & _ & Hids).
    by exists st'.
  - destruct (handleMoveQuestion_exchange quizId now st quiz l1 l2 x y
                TestEditorScreen.up Hne Hget Hpresented)
      as (st' & quiz' & Hmove & Hget' & Hids).
    destruct (handleMoveQuestion_exchange quizId now' st' quiz' l1 l2 y x
                TestEditorScreen.down Hne Hget' Hids) as (st'' & _ & Hmove' & _ & Hids').
    exists st', st''. by rewrite Hpresented.
  - unfold TestEditorScreen.handleMoveQuestion. by rewrite truthy_nonempty.
  - unfold TestEditorScreen.handleMoveQuestion. rewrite truthy_nonempty by done.
    unfold presentedIdsOf, TestEditorScreen.presentedIds. rewrite Hget, length_map.
    set (n := length (TestEditorScreen.sortedQuestions (Quiz.questions quiz))).
    assert (Hlast : (Z.of_nat n <=? Z.of_nat (n - 1) + 1) = true)
      by (apply Z.leb_le; lia).
    by rewrite Hlast, orb_true_r.
Qed.

Lemma handleMoveQuestion_swaps_neighbours_witness :
  presentedIdsOf "quiz1" threeQuestions = ["a"; "b"; "c"] /\
  exists st',
    TestEditorScreen.handleMoveQuestion (Some "quiz1") 1 TestEditorScreen.down 9
      threeQuestions = Some st' /\
    presentedIdsOf "quiz1" st' = ["a"; "c"; "b"].
Proof.
  split; [reflexivity |].
  assert (Hne : "quiz1" <> EmptyString) by done.
  assert (Hget : exists quiz, Store.getQuiz "quiz1" threeQuestions = Some quiz)
    by (eexists; reflexivity).
  destruct Hget as [quiz Hget].
  destruct (handleMoveQuestion_swaps_neighbours "quiz1" 9 9 threeQuestions quiz
              ["a"] [] "b" "c" Hne Hget eq_refl) as (Hdown & _).
  exact Hdown.
Defined.

(** * The question editor *)

Lemma removeAnswer_ids (answerId : string) (prev : list Answer.t) :
  map Answer.id (QuestionEditorScreen.removeAnswer answerId prev)
  = List.filter (fun id => negb (String.eqb id answerId)) (map Answer.id prev).
Proof.
  unfold QuestionEditorScreen.removeAnswer.
  assert (Hids : map Answer.id
                   (List.filter (fun a => negb (String.eqb (Answer.id a) answerId)) prev)
                 = List.filter (fun id => negb (String.eqb id answerId))
                     (map Answer.id prev)).
  { induction prev as [| a l IH]; simpl; [done |].
    destruct (String.eqb (Answer.id a) answerId); simpl; by rewrite ?IH. }
  rewrite <- Hids.
  destruct (List.filter _ prev) as [| first rest]; simpl; [done |].
  by destruct (negb (Answer.isCorrect first || existsb Answer.isCorrect rest)).
Qed.

Lemma removeAnswer_has_correct (answerId : string) (prev : list Answer.t) :
  QuestionEditorScreen.removeAnswer answerId prev <> [] ->
  existsb Answer.isCorrect (QuestionEditorScreen.removeAnswer answerId prev) = true.
Proof.
  unfold QuestionEditorScreen.removeAnswer.
  destruct (List.filter _ prev) as [| first rest]; [done |].
  intros _. destruct (existsb Answer.isCorrect (first :: rest)) eqn:Hex.
  - cbn [negb andb]. exact Hex.
  - done.
Qed.

Lemma filter_neq_length (answerId : string) (ids : list string) :
  NoDup ids ->
  (length ids - 1 <= length (List.filter (fun id => negb (String.eqb id answerId)) ids)
   <= length ids)%nat.
Proof.
  induction 1 as [| id ids Hnot Hnd IH]; simpl; [lia |].
  destruct (String.eqb id answerId) eqn:Heq; simpl; [| lia].
  apply String.eqb_eq in Heq. subst id.
  assert (Hsame : List.filter (fun id => negb (String.eqb id answerId)) ids = ids).
  { clear IH Hnd. induction ids as [| x l IHl]; simpl; [done |].
    destruct (String.eqb x answerId) eqn:Hx.
    - apply String.eqb_eq in Hx. subst x. exfalso. apply Hnot. by left.
    - simpl. rewrite IHl; [done |]. intros Hin. apply Hnot. by right. }
  rewrite Hsame. lia.
Qed.

Lemma editStep_invariant (e e' : QuestionEditorScreen.Editor) :
  QuestionEditorScreen.editStep e e' -> editorInvariant e -> editorInvariant e'.
Proof.
  intros Hstep Hinv. pose proof Hinv as [Hnd Hlen]. inversion Hstep; subst.
  - unfold QuestionEditorScreen.handleAddAnswer.
    destruct (6 <=? length (QuestionEditorScreen.answers e))%nat eqn:Hsix; [done |].
    apply Nat.leb_gt in Hsix. split; simpl.
    + rewrite map_app. apply NoDup_app. repeat split; [done | | apply NoDup_singleton].
      intros id Hid Hid'. apply list_elem_of_singleton in Hid'. subst id.
      by apply list_elem_of_In in Hid.
    + rewrite length_app. simpl. lia.
  - unfold QuestionEditorScreen.handleRemoveAnswer.
    destruct (length (QuestionEditorScreen.answers e) <=? 2)%nat eqn:Htwo; [done |].
    apply Nat.leb_gt in Htwo. split; simpl.
    + rewrite removeAnswer_ids.
      by apply NoDup_ListNoDup, List.NoDup_filter, NoDup_ListNoDup.
    + rewrite <- (length_map Answer.id), removeAnswer_ids.
      pose proof (filter_neq_length answerId _ Hnd) as Hfilter.
      rewrite length_map in Hfilter. lia.
  - split; simpl.
    + rewrite map_map.
      erewrite map_ext; [exact Hnd |].
      intros a. simpl. by destruct (String.eqb (Answer.id a) answerId).
    + by rewrite length_map.
  - split; simpl.
    + rewrite map_map.
      erewrite map_ext; [exact Hnd |].
      intros a. simpl. by destruct (String.eqb (Answer.id a) answerId).
    + by rewrite length_map.
Qed.

(** X25: the answer list of the question editor.  Starting from an answer
    list with distinct ids and between two and six entries (the two blank
    answers of a new question are one), adding, removing, retyping and
    marking answers keeps the ids distinct and the number of answers
    between two and six; and a removal that takes an answer away leaves at
    least one answer marked correct. *)
Theorem editor_keeps_two_to_six_answers (e0 e : QuestionEditorScreen.Editor) :
  NoDup (map Answer.id (QuestionEditorScreen.answers e0)) ->
  (2 <= length (QuestionEditorScreen.answers e0) <= 6)%nat ->
  rtc QuestionEditorScreen.editStep e0 e ->
  NoDup (map Answer.id (QuestionEditorScreen.answers e)) /\
  (2 <= length (QuestionEditorScreen.answers e) <= 6)%nat /\
  forall answerId,
    (2 < length (QuestionEditorScreen.answers e))%nat ->
    existsb Answer.isCorrect
      (QuestionEditorScreen.answers (QuestionEditorScreen.handleRemoveAnswer answerId e))
    = true.
Proof.
  intros Hnd Hlen Hrun.
  assert (Hinv : editorInvariant e).
  { assert (Hinv0 : editorInvariant e0) by done.
    clear Hnd Hlen. induction Hrun as [e | e1 e2 e3 Hstep _ IH]; [done |].
    apply IH. by apply (editStep_invariant e1 e2). }
  destruct Hinv as [Hnd' Hlen']. split; [done |]. split; [done |].
  intros answerId Hthree.
  unfold QuestionEditorScreen.handleRemoveAnswer.
  rewrite (proj2 (Nat.leb_gt _ _)) by lia. simpl.
  apply removeAnswer_has_correct. intros Hnil.
  pose proof (filter_neq_length answerId _ Hnd') as Hfilter.
  rewrite <- removeAnswer_ids, Hnil, length_map in Hfilter. simpl in Hfilter. lia.
Qed.

Lemma editor_keeps_two_to_six_answers_witness :
  QuestionEditorScreen.answers editedAnswers
  = [Answer.mk "a2" EmptyString true; Answer.mk "a3" EmptyString false] /\
  (2 <= length (QuestionEditorScreen.answers editedAnswers) <= 6)%nat.
Proof.
  split; [reflexivity |].
  assert (Hnd : NoDup (map Answer.id
                         (QuestionEditorScreen.answers
                            (QuestionEditorScreen.initial None "a1" "a2")))).
  { apply (bool_decide_unpack _). vm_compute. exact I. }
  assert (Hlen : (2 <= length (QuestionEditorScreen.answers
                                 (QuestionEditorScreen.initial None "a1" "a2")) <= 6)%nat)
    by (simpl; lia).
  assert (Hrun : rtc QuestionEditorScreen.editStep
                   (QuestionEditorScreen.initial None "a1" "a2") editedAnswers).
  { eapply rtc_l.
    - apply (QuestionEditorScreen.edit_add "a3"). simpl. intros [H | [H | []]]; done.
    - eapply rtc_l; [apply (QuestionEditorScreen.edit_remove "a1") |]. apply rtc_refl. }
  destruct (editor_keeps_two_to_six_answers _ _ Hnd Hlen Hrun) as (_ & Hlen' & _).
  exact Hlen'.
Defined.

Section Save.

Variable trim : string -> string.

Lemma getQuiz_updateQuestion (quizId questionId : string)
    (updates : QuestionUpdates.t) (now : Z) (st : Store.StoreState) :
  Store.getQuiz quizId (Store.updateQuestion quizId questionId updates now st)
  = Store.updateQuestion_quiz questionId updates now <$> Store.getQuiz quizId st.
Proof. unfold Store.updateQuestion. by rewrite getQuiz_updated. Qed.

(** X26: saving from the question editor.  An invalid form saves nothing.
    A valid one stores the trimmed question text and the non-blank answers
    in their order, at least two of them, blank answers being dropped: as a
    new question at the end of the quiz, or in place of the edited question,
    which keeps its id and order index while every other question stays as
    it is.  The stored question has a correct answer exactly when a
    non-blank answer was marked correct. *)
Theorem handleSave_stores_the_nonblank_answers (testId : string)
    (questionId : option string) (newId : string) (now : Z)
    (e : QuestionEditorScreen.Editor) (st : Store.StoreState) (quiz : Quiz.t) :
  Store.getQuiz testId st = Some quiz ->
  let validAnswers :=
    List.filter (QuestionEditorScreen.nonBlank trim) (QuestionEditorScreen.answers e) in
  let st' := QuestionEditorScreen.handleSave trim testId questionId newId now e st in
  (QuestionEditorScreen.isValid trim e = false -> st' = st) /\
  (QuestionEditorScreen.isValid trim e = true ->
   (2 <= length validAnswers)%nat /\
   trim (QuestionEditorScreen.questionText e) <> EmptyString /\
   (forall a, In a validAnswers ->
      In a (QuestionEditorScreen.answers e) /\ trim (Answer.text a) <> EmptyString) /\
   existsb Answer.isCorrect validAnswers
   = existsb (fun a => Answer.isCorrect a && QuestionEditorScreen.nonBlank trim a)
       (QuestionEditorScreen.answers e) /\
   (QuestionEditorScreen.existingQuestion testId questionId st = None ->
    questionsOf testId st'
    = Quiz.questions quiz ++
      [Question.mk newId (trim (QuestionEditorScreen.questionText e))
         (Store.maxOrder (Quiz.questions quiz) + 1) validAnswers
         (Some (QuestionEditorScreen.images e))]) /\
   (forall qid, questionId = Some qid ->
      QuestionEditorScreen.existingQuestion testId questionId st <> None ->
      questionsOf testId st'
      = map (fun qn =>
               if String.eqb (Question.id qn) qid
               then Question.mk (Question.id qn)
                      (trim (QuestionEditorScreen.questionText e))
                      (Question.orderIndex qn) validAnswers
                      (Some (QuestionEditorScreen.images e))
               else qn)
            (Quiz.questions quiz))).
Proof.
  intros Hget validAnswers st'. split.
  - intros Hinvalid. unfold st', QuestionEditorScreen.handleSave. by rewrite Hinvalid.
  - intros Hvalid. pose proof Hvalid as Hparts.
    unfold QuestionEditorScreen.isValid in Hparts.
    apply andb_true_iff in Hparts as [Hparts Hcount].
    apply andb_true_iff in Hparts as [Hparts _].
    apply andb_true_iff in Hparts as [Htext _].
    apply Nat.leb_le in Hcount. apply Nat.ltb_lt in Htext.
    split; [done |]. split.
    { intros Hempty. rewrite Hempty in Htext. simpl in Htext. lia. }
    split.
    { intros a Ha. apply filter_In in Ha as [Hin Hnb]. split; [done |].
      unfold QuestionEditorScreen.nonBlank in Hnb. apply Nat.ltb_lt in Hnb.
      intros Hempty. rewrite Hempty in Hnb. simpl in Hnb. lia. }
    split.
    { unfold validAnswers. generalize (QuestionEditorScreen.answers e).
      intros l. induction l as [| a l IH]; simpl; [done |].
      destruct (QuestionEditorScreen.nonBlank trim a); simpl.
      - by rewrite IH, andb_true_r.
      - by rewrite IH, andb_false_r. }
    split.
    { intros Hnew. unfold st', QuestionEditorScreen.handleSave.
      rewrite Hvalid, Hnew. cbn [negb].
      unfold questionsOf. by rewrite getQuiz_addQuestion, Hget. }
    intros qid -> Hold. unfold st', QuestionEditorScreen.handleSave.
    rewrite Hvalid. cbn [negb].
    destruct (QuestionEditorScreen.existingQuestion testId (Some qid) st); [| done].
    unfold questionsOf. by rewrite getQuiz_updateQuestion, Hget.
Qed.

End Save.

Lemma handleSave_stores_the_nonblank_answers_witness :
  QuestionEditorScreen.isValid trimStart blankCorrect = true /\
  questionsOf "quiz1"
    (QuestionEditorScreen.handleSave trimStart "quiz1" None "q9" 7 blankCorrect
       oneEmptyQuiz)
  = [Question.mk "q9" "What?" 0
       [Answer.mk "a2" "yes" false; Answer.mk "a3" "no" false] (Some [])] /\
  (2 <= length (List.filter (QuestionEditorScreen.nonBlank trimStart)
                  (QuestionEditorScreen.answers blankCorrect)))%nat.
Proof.
  split; [reflexivity |]. split; [reflexivity |].
  assert (Hget : exists quiz, Store.getQuiz "quiz1" oneEmptyQuiz = Some quiz)
    by (eexists; reflexivity).
  destruct Hget as [quiz Hget].
  destruct (handleSave_stores_the_nonblank_answers trimStart "quiz1" None "q9" 7
              blankCorrect oneEmptyQuiz quiz Hget) as [_ Hsaved].
  destruct (Hsaved eq_refl) as (Hcount & _).
  exact Hcount.
Defined.

(** * Reviewing mistakes *)

Lemma reviewStep_fold (quiz : Quiz.t) (l : list QuizRunAnswer.t)
    (seen : list string) (acc : list ReviewMistakesScreen.MistakeItem) :
  map ReviewMistakesScreen.questionId acc = rev seen ->
  NoDup seen ->
  let result := fold_left (ReviewMistakesScreen.reviewStep quiz) l (seen, acc) in
  map ReviewMistakesScreen.questionId (snd result) = rev (fst result) /\
  NoDup (fst result) /\
  (forall id, In id (fst result) <->
              In id seen \/ In id (map QuizRunAnswer.questionId l)) /\
  (forall item, In item (snd result) ->
     In item acc \/
     exists a, In a l /\ item = ReviewMistakesScreen.itemOf quiz a).
Proof.
  revert seen acc. induction l as [| a l IH]; intros seen acc Hacc Hnd; simpl.
  - repeat split; try done; [tauto | by intros [? | []] | by left].
  - destruct (ActiveQuizScreen.includes (QuizRunAnswer.questionId a) seen) eqn:Hinc.
    + apply includes_In in Hinc.
      destruct (IH seen acc Hacc Hnd) as (Hids & Hnd' & Hseen & Hitems).
      split; [done |]. split; [done |]. split.
      * intros id. rewrite Hseen. split; [tauto |].
        intros [? | [<- | ?]]; tauto.
      * intros item Hitem. destruct (Hitems item Hitem) as [? | (b & Hb & ->)];
          [by left |]. right. exists b. split; [by right | done].
    + assert (Hnot : ~ In (QuizRunAnswer.questionId a) seen).
      { intros Hin. apply includes_In in Hin. congruence. }
      destruct (IH (QuizRunAnswer.questionId a :: seen)
                  (acc ++ [ReviewMistakesScreen.itemOf quiz a])) as (Hids & Hnd' & Hseen & Hitems).
      { rewrite map_app, Hacc. done. }
      { apply NoDup_cons. split; [by rewrite list_elem_of_In | done]. }
      split; [done |]. split; [done |]. split.
      * intros id. rewrite Hseen. simpl. tauto.
      * intros item Hitem. destruct (Hitems item Hitem) as [Hin | (b & Hb & ->)].
        -- apply in_app_iff in Hin as [? | [<- | []]]; [by left |].
           right. exists a. split; [by left | done].
        -- right. exists b. split; [by right | done].
Qed.

Lemma questionsToReview_ids (mode : ReviewMistakesScreen.Mode) (run : QuizRun.t)
    (quiz : Quiz.t) :
  let answersToReview :=
    match mode with
    | ReviewMistakesScreen.mistakes =>
      List.filter (fun a => negb (QuizRunAnswer.isCorrect a)) (QuizRun.answers run)
    | ReviewMistakesScreen.all => QuizRun.answers run
    end in
  let items := ReviewMistakesScreen.questionsToReview mode (Some run) (Some quiz) in
  NoDup (map ReviewMistakesScreen.questionId items) /\
  (forall id, In id (map ReviewMistakesScreen.questionId items) <->
              In id (map QuizRunAnswer.questionId answersToReview)) /\
  (forall item, In item items ->
     exists a, In a answersToReview /\ item = ReviewMistakesScreen.itemOf quiz a).
Proof.
  intros answersToReview items.
  destruct (reviewStep_fold quiz answersToReview [] [] eq_refl (NoDup_nil_2))
    as (Hids & Hnd & Hseen & Hitems).
  unfold items, ReviewMistakesScreen.questionsToReview. fold answersToReview.
  split; [| split].
  - rewrite Hids. by apply NoDup_ListNoDup, List.NoDup_rev, NoDup_ListNoDup.
  - intros id. rewrite Hids, <- in_rev, Hseen. simpl. tauto.
  - intros item Hitem. destruct (Hitems item Hitem) as [[] | ?]. done.
Qed.

(** X27: from the review of mistakes to the practice session.  The review
    lists every question of the run that has a wrong answer exactly once,
    and nothing else; each item shows the text and the correct answers of
    its question, when the quiz still has it.  When there is something to
    retry, the session that [handleRetryMistakes] starts is a practice
    session whose questions are exactly the questions of the quiz that have
    a correct answer and were answered wrongly in the run, sorted by order
    index. *)
Theorem retry_plays_the_mistakes (runId : string) (st : Store.StoreState)
    (run : QuizRun.t) (quiz : Quiz.t) (draws : list nat)
    (answerDraws : list (list nat)) :
  Store.getRun runId st = Some run ->
  Store.getQuiz (QuizRun.quizId run) st = Some quiz ->
  let items := ReviewMistakesScreen.review ReviewMistakesScreen.mistakes runId st in
  let wrong id :=
    exists a, In a (QuizRun.answers run) /\ QuizRunAnswer.isCorrect a = false /\
              QuizRunAnswer.questionId a = id in
  let s := ActiveQuizScreen.start (ReviewMistakesScreen.retryParams run items) st
             draws answerDraws in
  NoDup (map ReviewMistakesScreen.questionId items) /\
  (forall id, In id (map ReviewMistakesScreen.questionId items) <-> wrong id) /\
  (forall item, In item items ->
     forall q, List.find (fun q => String.eqb (Question.id q)
                                     (ReviewMistakesScreen.questionId item))
                 (Quiz.questions quiz) = Some q ->
       ReviewMistakesScreen.questionText item = Question.text q /\
       ReviewMistakesScreen.correctAnswers item
       = map Answer.text (List.filter Answer.isCorrect (Question.answers q))) /\
  (items <> [] ->
   ActiveQuizScreen.isMiniRun s = true /\
   ascending (ActiveQuizScreen.questions s) /\
   forall q, In q (ActiveQuizScreen.questions s) <->
     In q (Quiz.questions quiz) /\
     ActiveQuizScreen.hasCorrectAnswer q = true /\
     wrong (Question.id q)).
Proof.
  intros Hrun Hquiz items wrong s.
  assert (Hitems : items = ReviewMistakesScreen.questionsToReview
                             ReviewMistakesScreen.mistakes (Some run) (Some quiz)).
  { unfold items, ReviewMistakesScreen.review. by rewrite Hrun, Hquiz. }
  destruct (questionsToReview_ids ReviewMistakesScreen.mistakes run quiz)
    as (Hnd & Hids & Hfrom).
  rewrite <- Hitems in Hnd, Hids, Hfrom.
  assert (Hwrong : forall id,
            In id (map ReviewMistakesScreen.questionId items) <-> wrong id).
  { intros id. rewrite Hids, in_map_iff. unfold wrong. split.
    - intros (a & <- & Ha). apply filter_In in Ha as [Hin Hneg].
      exists a. by rewrite negb_true_iff in Hneg.
    - intros (a & Hin & Hneg & <-). exists a. split; [done |].
      apply filter_In. by rewrite negb_true_iff. }
  split; [done |]. split; [done |]. split.
  - intros item Hitem q Hq. destruct (Hfrom item Hitem) as (a & _ & ->).
    simpl in Hq. unfold ReviewMistakesScreen.itemOf. cbn. by rewrite Hq.
  - intros Hsome.
    assert (Hparams : ActiveQuizScreen.effectiveQuestionIds
                        (ReviewMistakesScreen.retryParams run items) st
                      = Some (map ReviewMistakesScreen.questionId items)) by done.
    assert (Hnonempty : ActiveQuizScreen.nonEmptyIds
                          (Some (map ReviewMistakesScreen.questionId items)) = true).
    { by destruct items. }
    assert (Hquestions : ActiveQuizScreen.questions s
              = ActiveQuizScreen.orderedQuestions quiz
                  (Some (map ReviewMistakesScreen.questionId items))).
    { unfold s, ActiveQuizScreen.start. cbn [ActiveQuizScreen.questions].
      rewrite Hparams.
      cbn [ReviewMistakesScreen.retryParams ActiveQuizScreen.p_testId].
      by rewrite Hquiz. }
    split; [| split].
    + unfold s, ActiveQuizScreen.start. cbn [ActiveQuizScreen.isMiniRun].
      unfold ActiveQuizScreen.isMiniRunOf. by rewrite Hparams, Hnonempty.
    + rewrite Hquestions. apply sortedQuestions_ascending.
    + intros q. rewrite Hquestions, orderedQuestions_In. split.
      * intros (Hin & Hc & Hsub). repeat split; try done.
        destruct (Hsub Hnonempty) as (l & [= <-] & Hl). by apply Hwrong.
      * intros (Hin & Hc & Hw). repeat split; try done.
        intros _. eexists. split; [done |]. by apply Hwrong.
Qed.

Lemma retry_plays_the_mistakes_witness :
  map ReviewMistakesScreen.questionId
    (ReviewMistakesScreen.review ReviewMistakesScreen.mistakes "r1" reviewStore)
  = ["c"; "a"] /\
  map Question.id
    (ActiveQuizScreen.questions
       (ActiveQuizScreen.start
          (ReviewMistakesScreen.retryParams playedRun
             (ReviewMistakesScreen.review ReviewMistakesScreen.mistakes "r1"
                reviewStore))
          reviewStore [] []))
  = ["a"; "c"] /\
  NoDup (map ReviewMistakesScreen.questionId
           (ReviewMistakesScreen.review ReviewMistakesScreen.mistakes "r1"
              reviewStore)).
Proof.
  split; [reflexivity |]. split; [reflexivity |].
  assert (Hquiz : exists quiz, Store.getQuiz (QuizRun.quizId playedRun) reviewStore
                               = Some quiz) by (eexists; reflexivity).
  destruct Hquiz as [quiz Hquiz].
  destruct (retry_plays_the_mistakes "r1" reviewStore playedRun quiz [] []
              eq_refl Hquiz) as (Hnd & _).
  exact Hnd.
Defined.

(** * Feedback after a submission *)

Lemma find_answer_by_id (answers : list Answer.t) (a : Answer.t) :
  NoDup (map Answer.id answers) ->
  In a answers ->
  List.find (fun x => String.eqb (Answer.id x) (Answer.id a)) answers = Some a.
Proof.
  induction answers as [| x l IH]; simpl; [done |].
  intros Hnd [-> | Hin].
  - by rewrite String.eqb_refl.
  - apply NoDup_cons in Hnd as [Hnot Hnd].
    destruct (String.eqb (Answer.id x) (Answer.id a)) eqn:Heq; [| by apply IH].
    apply String.eqb_eq in Heq. exfalso. apply Hnot.
    rewrite Heq. apply list_elem_of_In. by apply in_map.
Qed.

Lemma getAnswerState_submitted (s : ActiveQuizScreen.Session) (q : Question.t)
    (a : Answer.t) :
  ActiveQuizScreen.questions s !! ActiveQuizScreen.currentIndex s = Some q ->
  ActiveQuizScreen.isSubmitted s = true ->
  NoDup (map Answer.id (Question.answers q)) ->
  In a (Question.answers q) ->
  ActiveQuizScreen.getAnswerState s (Answer.id a)
  = if Answer.isCorrect a then ActiveQuizScreen.stCorrect
    else if ActiveQuizScreen.includes (Answer.id a)
              (ActiveQuizScreen.selectedAnswerIds s)
         then ActiveQuizScreen.stWrong
         else ActiveQuizScreen.stDefault.
Proof.
  intros Hq Hsub Hnd Hin. unfold ActiveQuizScreen.getAnswerState.
  by rewrite Hsub, Hq, (find_answer_by_id _ a Hnd Hin).
Qed.

(** X28: the colours shown after a submission agree with the verdict.  On
    a question whose answers have distinct ids, an answer is shown as
    correct exactly when it is a correct answer, as wrong exactly when it
    was selected and is not correct, and otherwise as default; and a
    repetition-free selection among the answers of the question is judged
    correct exactly when no answer is shown as wrong and every answer shown
    as correct was selected. *)
Theorem feedback_matches_verdict (s : ActiveQuizScreen.Session) (q : Question.t) :
  ActiveQuizScreen.questions s !! ActiveQuizScreen.currentIndex s = Some q ->
  ActiveQuizScreen.isSubmitted s = true ->
  NoDup (map Answer.id (Question.answers q)) ->
  NoDup (ActiveQuizScreen.selectedAnswerIds s) ->
  (forall id, In id (ActiveQuizScreen.selectedAnswerIds s) ->
              In id (map Answer.id (Question.answers q))) ->
  (forall a, In a (Question.answers q) ->
     (ActiveQuizScreen.getAnswerState s (Answer.id a) = ActiveQuizScreen.stCorrect <->
      Answer.isCorrect a = true) /\
     (ActiveQuizScreen.getAnswerState s (Answer.id a) = ActiveQuizScreen.stWrong <->
      Answer.isCorrect a = false /\
      In (Answer.id a) (ActiveQuizScreen.selectedAnswerIds s)) /\
     ActiveQuizScreen.getAnswerState s (Answer.id a) <> ActiveQuizScreen.stSelected) /\
  (ActiveQuizScreen.selectionIsCorrect (ActiveQuizScreen.selectedAnswerIds s) q = true <->
   forall a, In a (Question.answers q) ->
     ActiveQuizScreen.getAnswerState s (Answer.id a) <> ActiveQuizScreen.stWrong /\
     (ActiveQuizScreen.getAnswerState s (Answer.id a) = ActiveQuizScreen.stCorrect ->
      In (Answer.id a) (ActiveQuizScreen.selectedAnswerIds s))).
Proof.
  intros Hq Hsub Hnd Hsel Hamong.
  assert (Hstate : forall a, In a (Question.answers q) ->
    (ActiveQuizScreen.getAnswerState s (Answer.id a) = ActiveQuizScreen.stCorrect <->
     Answer.isCorrect a = true) /\
    (ActiveQuizScreen.getAnswerState s (Answer.id a) = ActiveQuizScreen.stWrong <->
     Answer.isCorrect a = false /\
     In (Answer.id a) (ActiveQuizScreen.selectedAnswerIds s)) /\
    ActiveQuizScreen.getAnswerState s (Answer.id a) <> ActiveQuizScreen.stSelected).
  { intros a Ha. rewrite (getAnswerState_submitted s q a Hq Hsub Hnd Ha).
    destruct (Answer.isCorrect a);
      [by repeat split; try done; intros [? ?] |].
    destruct (ActiveQuizScreen.includes (Answer.id a)
                (ActiveQuizScreen.selectedAnswerIds s)) eqn:Hinc.
    - apply includes_In in Hinc. by repeat split.
    - assert (Hnot : ~ In (Answer.id a) (ActiveQuizScreen.selectedAnswerIds s)).
      { intros Hin. apply includes_In in Hin. congruence. }
      repeat split; try done. by intros [_ ?]. }
  assert (Hcorrect : forall a, In a (Question.answers q) ->
            (In (Answer.id a) (ActiveQuizScreen.correctIds q) <->
             Answer.isCorrect a = true)).
  { intros a Ha. unfold ActiveQuizScreen.correctIds. rewrite in_map_iff. split.
    - intros (b & Hid & Hb). apply filter_In in Hb as [Hb Hc].
      pose proof (find_answer_by_id _ b Hnd Hb) as Hfind.
      rewrite Hid, (find_answer_by_id _ a Hnd Ha) in Hfind. by injection Hfind as ->.
    - intros Hc. exists a. split; [done |]. by apply filter_In. }
  split; [done |].
  rewrite (selectionIsCorrect_iff _ q Hsel (correctIds_NoDup q Hnd)). split.
  - intros Heq a Ha. destruct (Hstate a Ha) as (Hc & Hw & _). split.
    + intros Hwrong. apply Hw in Hwrong as [Hfalse Hin].
      apply Heq, (Hcorrect a Ha) in Hin. congruence.
    + intros Hshown. apply Heq, (Hcorrect a Ha). by apply Hc.
  - intros Hshown id. split.
    + intros Hin. destruct (proj1 (in_map_iff _ _ _) (Hamong id Hin)) as (a & <- & Ha).
      destruct (Hstate a Ha) as (_ & Hw & _). destruct (Hshown a Ha) as [Hnot _].
      apply (Hcorrect a Ha). destruct (Answer.isCorrect a); [done |].
      exfalso. apply Hnot, Hw. by split.
    + intros Hin. unfold ActiveQuizScreen.correctIds in Hin.
      apply in_map_iff in Hin as (a & <- & Ha). apply filter_In in Ha as [Ha Hc].
      destruct (Hstate a Ha) as (Hsc & _). destruct (Hshown a Ha) as [_ Hsel'].
      by apply Hsel', Hsc.
Qed.

Lemma feedback_matches_verdict_witness :
  map (fun a => ActiveQuizScreen.getAnswerState practiceSession (Answer.id a))
    [Answer.mk "a1" "yes" true; Answer.mk "a2" "no" false; Answer.mk "a3" "yes" true]
  = [ActiveQuizScreen.stCorrect; ActiveQuizScreen.stDefault; ActiveQuizScreen.stCorrect] /\
  ActiveQuizScreen.selectionIsCorrect
    (ActiveQuizScreen.selectedAnswerIds practiceSession)
    (Question.mk "a" "first" 0
       [Answer.mk "a1" "yes" true; Answer.mk "a2" "no" false;
        Answer.mk "a3" "yes" true] None)
  = false /\
  (ActiveQuizScreen.getAnswerState practiceSession "a1" = ActiveQuizScreen.stCorrect <->
   true = true).
Proof.
  split; [reflexivity |]. split; [reflexivity |].
  assert (Hnd : NoDup (map Answer.id
                         [Answer.mk "a1" "yes" true; Answer.mk "a2" "no" false;
                          Answer.mk "a3" "yes" true])).
  { apply (bool_decide_unpack _). vm_compute. exact I. }
  assert (Hsel : NoDup (ActiveQuizScreen.selectedAnswerIds practiceSession)).
  { apply (bool_decide_unpack _). vm_compute. exact I. }
  assert (Hamong : forall id,
            In id (ActiveQuizScreen.selectedAnswerIds practiceSession) ->
            In id (map Answer.id
                     [Answer.mk "a1" "yes" true; Answer.mk "a2" "no" false;
                      Answer.mk "a3" "yes" true])).
  { intros id [<- | []]. by left. }
  destruct (feedback_matches_verdict practiceSession
              (Question.mk "a" "first" 0
                 [Answer.mk "a1" "yes" true; Answer.mk "a2" "no" false;
                  Answer.mk "a3" "yes" true] None)
              eq_refl eq_refl Hnd Hsel Hamong) as [Hstates _].
  destruct (Hstates (Answer.mk "a1" "yes" true)) as (Hc & _); [by left |].
  exact Hc.
Defined.

(** * Starting a quiz *)

(** X29: the number of questions announced before a quiz is the number the
    session plays.  The session that [handleStartQuiz] starts is a fresh
    session, not a practice session, on exactly the questions counted on
    the pre-quiz screen (those with a correct answer): in order of their
    order index without shuffle, rearranged with it. *)
Theorem preQuiz_count_is_session_length (testId : string) (shuffle : bool)
    (st : Store.StoreState) (quiz : Quiz.t) (draws : list nat)
    (answerDraws : list (list nat)) :
  Store.getQuiz testId st = Some quiz ->
  (shuffle = true ->
   ActiveQuizScreen.validDraws (length (PreQuizScreen.validQuestions quiz) - 1) draws) ->
  let s := ActiveQuizScreen.start (PreQuizScreen.startParams testId shuffle) st
             draws answerDraws in
  length (ActiveQuizScreen.questions s) = length (PreQuizScreen.validQuestions quiz) /\
  ActiveQuizScreen.questions s ≡ₚ PreQuizScreen.validQuestions quiz /\
  (shuffle = false ->
   ActiveQuizScreen.questions s
   = TestEditorScreen.sortedQuestions (PreQuizScreen.validQuestions quiz)) /\
  ActiveQuizScreen.fresh s /\
  ActiveQuizScreen.isMiniRun s = false /\
  ActiveQuizScreen.quizTitle s = Quiz.title quiz.
Proof.
  intros Hget _ s.
  assert (Hquestions : ActiveQuizScreen.questions s
            = if shuffle
              then ActiveQuizScreen.shuffleArray draws
                     (TestEditorScreen.sortedQuestions (PreQuizScreen.validQuestions quiz))
              else TestEditorScreen.sortedQuestions (PreQuizScreen.validQuestions quiz)).
  { unfold s, ActiveQuizScreen.start. cbn [ActiveQuizScreen.questions].
    cbn [PreQuizScreen.startParams ActiveQuizScreen.p_testId]. rewrite Hget.
    unfold ActiveQuizScreen.effectiveShuffle, ActiveQuizScreen.effectiveShuffleAnswers,
      ActiveQuizScreen.effectiveQuestionIds, ActiveQuizScreen.pausedRunOf.
    cbn. by rewrite orb_false_r. }
  assert (Hperm : ActiveQuizScreen.questions s ≡ₚ PreQuizScreen.validQuestions quiz).
  { rewrite Hquestions. destruct shuffle.
    - by rewrite shuffleArray_Permutation, sortedQuestions_perm.
    - apply sortedQuestions_perm. }
  split; [by rewrite Hperm |]. split; [done |].
  split; [by intros -> |].
  split; [by repeat split |].
  split; [done |].
  unfold s, ActiveQuizScreen.start. cbn [ActiveQuizScreen.quizTitle].
  cbn [PreQuizScreen.startParams ActiveQuizScreen.p_testId]. by rewrite Hget.
Qed.

Lemma preQuiz_count_is_session_length_witness :
  length (PreQuizScreen.validQuestions playQuiz) = 3%nat /\
  map Question.id
    (ActiveQuizScreen.questions
       (ActiveQuizScreen.start (PreQuizScreen.startParams "quiz1" true) playStore
          [0; 0]%nat []))
  = ["b"; "c"; "a"] /\
  length (ActiveQuizScreen.questions
            (ActiveQuizScreen.start (PreQuizScreen.startParams "quiz1" true) playStore
               [0; 0]%nat []))
  = length (PreQuizScreen.validQuestions playQuiz).
Proof.
  split; [reflexivity |]. split; [reflexivity |].
  assert (Hdraws : true = true ->
            ActiveQuizScreen.validDraws
              (length (PreQuizScreen.validQuestions playQuiz) - 1) [0; 0]%nat).
  { intros _. vm_compute. lia. }
  destruct (preQuiz_count_is_session_length "quiz1" true playStore playQuiz
              [0; 0]%nat [] eq_refl Hdraws) as (Hlen & _).
  exact Hlen.
Defined.

(** * Creating a quiz *)

Lemma fillAnswers_keeps (gen : nat -> string) (n : nat) (answers : list Answer.t) :
  map Answer.text (fst (Store.fillAnswers gen n answers)) = map Answer.text answers /\
  map Answer.isCorrect (fst (Store.fillAnswers gen n answers))
  = map Answer.isCorrect answers /\
  forall i a, answers !! i = Some a -> Answer.id a <> EmptyString ->
    Answer.id <$> fst (Store.fillAnswers gen n answers) !! i = Some (Answer.id a).
Proof.
  revert n. induction answers as [| a rest IH]; intros n; simpl; [done |].
  destruct (Answer.id a) as [| c r] eqn:Hid; cbn [truthy].
  - destruct (IH (S n)) as (Htext & Hcorrect & Hids).
    destruct (Store.fillAnswers gen (S n) rest) as [rest' n']. simpl in *.
    rewrite Htext, Hcorrect. repeat split; try done.
    intros [| i] b Hb Hne; simpl in *; [| by apply Hids].
    injection Hb as <-. by rewrite Hid in Hne.
  - destruct (IH n) as (Htext & Hcorrect & Hids).
    destruct (Store.fillAnswers gen n rest) as [rest' n']. simpl in *.
    rewrite Htext, Hcorrect. repeat split; try done.
    intros [| i] b Hb Hne; simpl in *; [| by apply Hids].
    by injection Hb as <-.
Qed.

Lemma existsb_map_isCorrect (answers : list Answer.t) :
  existsb Answer.isCorrect answers = existsb (fun b => b) (map Answer.isCorrect answers).
Proof. induction answers as [| a l IH]; simpl; [done | by rewrite IH]. Qed.

Lemma fillQuestions_keeps (gen : nat -> string) (n : nat) (questions : list Question.t) :
  length (fst (Store.fillQuestions gen n questions)) = length questions /\
  forall i q, questions !! i = Some q ->
    exists q', fst (Store.fillQuestions gen n questions) !! i = Some q' /\
      Question.text q' = Question.text q /\
      Question.orderIndex q' = Question.orderIndex q /\
      Question.images q' = Question.images q /\
      (Question.id q <> EmptyString -> Question.id q' = Question.id q) /\
      map Answer.text (Question.answers q') = map Answer.text (Question.answers q) /\
      map Answer.isCorrect (Question.answers q')
      = map Answer.isCorrect (Question.answers q) /\
      ActiveQuizScreen.hasCorrectAnswer q' = ActiveQuizScreen.hasCorrectAnswer q.
Proof.
  revert n. induction questions as [| q rest IH]; intros n; [done |].
  cbn [Store.fillQuestions].
  destruct (match truthy (Some (Question.id q)) with
            | Some id => (id, n)
            | None => (gen n, S n)
            end) as [newId n1] eqn:Hnew.
  destruct (fillAnswers_keeps gen n1 (Question.answers q)) as (Htext & Hcorrect & _).
  destruct (Store.fillAnswers gen n1 (Question.answers q)) as [answers' n2].
  destruct (IH n2) as [Hlen Hrest].
  destruct (Store.fillQuestions gen n2 rest) as [rest' n3]. simpl in *.
  split; [by rewrite Hlen |].
  intros [| i] x Hx; simpl in *; [| by apply Hrest].
  injection Hx as <-. eexists. split; [reflexivity |]. simpl.
  repeat split; try done.
  - intros Hne. destruct (Question.id q) as [| c r]; [done |].
    cbn [truthy] in Hnew. by injection Hnew as <- _.
  - unfold ActiveQuizScreen.hasCorrectAnswer. simpl.
    by rewrite !existsb_map_isCorrect, Hcorrect.
Qed.

Lemma find_quiz_app (id : string) (quizzes : list Quiz.t) (newQuiz : Quiz.t) :
  List.find (fun q => String.eqb (Quiz.id q) id) (quizzes ++ [newQuiz])
  = match List.find (fun q => String.eqb (Quiz.id q) id) quizzes with
    | Some q => Some q
    | None => if String.eqb (Quiz.id newQuiz) id then Some newQuiz else None
    end.
Proof.
  induction quizzes as [| q l IH]; simpl; [done |].
  by destruct (String.eqb (Quiz.id q) id).
Qed.

(** X30: creating a quiz.  [addQuiz] puts the new quiz, under a generated
    id and with the given title and description, after the quizzes already
    there; when no older quiz has that id the new quiz is the one [getQuiz]
    finds under it, and the lookup of every other id is unchanged.  The
    questions are taken over one for one in their order, with their text,
    order index, images, answer texts and correctness (so a question can be
    played afterwards exactly when it could before); an id that is given is
    kept and only missing ids are generated. *)
Theorem addQuiz_then_getQuiz (gen : nat -> string) (created updated : Z)
    (quiz : QuizInput.t) (st : Store.StoreState) :
  let newQuiz := fst (Store.addQuiz gen created updated quiz st) in
  let st' := snd (Store.addQuiz gen created updated quiz st) in
  Quiz.title newQuiz = QuizInput.title quiz /\
  Quiz.description newQuiz = QuizInput.description quiz /\
  Store.quizzes st' = Store.quizzes st ++ [newQuiz] /\
  (~ In (Quiz.id newQuiz) (map Quiz.id (Store.quizzes st)) ->
   Store.getQuiz (Quiz.id newQuiz) st' = Some newQuiz) /\
  (forall id, id <> Quiz.id newQuiz -> Store.getQuiz id st' = Store.getQuiz id st) /\
  length (Quiz.questions newQuiz) = length (QuizInput.questions quiz) /\
  (forall i q, QuizInput.questions quiz !! i = Some q ->
     exists q', Quiz.questions newQuiz !! i = Some q' /\
       Question.text q' = Question.text q /\
       Question.orderIndex q' = Question.orderIndex q /\
       Question.images q' = Question.images q /\
       (Question.id q <> EmptyString -> Question.id q' = Question.id q) /\
       map Answer.text (Question.answers q') = map Answer.text (Question.answers q) /\
       map Answer.isCorrect (Question.answers q')
       = map Answer.isCorrect (Question.answers q) /\
       ActiveQuizScreen.hasCorrectAnswer q' = ActiveQuizScreen.hasCorrectAnswer q) /\
  Store.runs st' = Store.runs st /\
  Store.pausedRuns st' = Store.pausedRuns st /\
  Store.streak st' = Store.streak st /\
  Store.diamonds st' = Store.diamonds st.
Proof.
  cbv zeta. unfold Store.addQuiz. cbn [fst snd].
  destruct (fillQuestions_keeps gen 1 (QuizInput.questions quiz)) as [Hlen Hquestions].
  split; [done |]. split; [done |]. split; [done |]. split.
  { intros Hnew. unfold Store.getQuiz. cbn. rewrite find_quiz_app.
    destruct (List.find _ (Store.quizzes st)) as [old |] eqn:Hold.
    - apply find_some in Hold as [Hin Heq]. apply String.eqb_eq in Heq.
      exfalso. apply Hnew. cbn. rewrite <- Heq. by apply in_map.
    - cbn. by rewrite String.eqb_refl. }
  split.
  { intros id Hne. unfold Store.getQuiz. cbn. rewrite find_quiz_app.
    destruct (List.find _ (Store.quizzes st)); [done |].
    cbn in *. rewrite (proj2 (String.eqb_neq _ _)); [done |]. by intros <-. }
  split; [done |]. split; [done |]. done.
Qed.
